(** * Christmas Magic / Starry Night: gesture mapping and particle physics

    A shallow embedding of the gesture pipeline, the particle integrator
    and the animation loop of [script.js] (the Christmas tree effect) and
    of the starry-night effect script, with the properties the
    specification states about them and further properties of the code.

    Numbers.  A JavaScript number is modelled as a real number: [+], [*],
    [/], [Math.abs], [Math.min], [Math.max], [Math.sqrt], [Math.sin],
    [Math.cos] and [Math.acos] are the exact operations of [R]; rounding,
    infinities and NaN are not represented.  A comparison of two numbers
    is the boolean [ltb]/[gtb] below.

    Failure.  Reading a property of [undefined] (an array index past the
    end followed by [.x] or [.y]) throws a [TypeError]; functions that read
    landmarks return [option], [None] standing for the throw, and the
    stateful callbacks return an [Outcome] that keeps the store as it was
    when the exception left the callback. *)

From Stdlib Require Import Reals Lra List Bool Arith Lia.
Import ListNotations.

Local Open Scope R_scope.

(** ** Numbers and small vectors *)

Definition ltb (a b : R) : bool := if Rlt_dec a b then true else false.
Definition gtb (a b : R) : bool := ltb b a.

(** [Math.hypot(a, b)] *)
Definition hypot (a b : R) : R := sqrt (a * a + b * b).

(** [Math.max(lo, Math.min(hi, v))] *)
Definition clamp (lo hi v : R) : R := Rmax lo (Rmin hi v).

Module Point2.
Record t := mk { x : R; y : R }.
End Point2.

Module Vector3.
Record t := mk { x : R; y : R; z : R }.

  (** [Vector3.length()] *)
Definition length (v : t) : R := sqrt (x v * x v + y v * y v + z v * z v).

  (** [Vector3.multiplyScalar(s)] *)
Definition multiplyScalar (s : R) (v : t) : t :=
    mk (x v * s) (y v * s) (z v * s).
End Vector3.

(** ** Landmarks and the classifier

    [getPalmCenter], [getHandSize] and [recognizeGesture] are the same
    text in both effect scripts. *)

Module Landmark.
Record t := mk { x : R; y : R; z : R }.
End Landmark.

Definition LandmarkFrame := list Landmark.t.

Inductive Gesture := NONE | FIST | OPEN_PALM | PINCH | POINT | V_SIGN.

Definition Gesture_eqb (a b : Gesture) : bool :=
  match a, b with
  | NONE, NONE | FIST, FIST | OPEN_PALM, OPEN_PALM
  | PINCH, PINCH | POINT, POINT | V_SIGN, V_SIGN => true
  | _, _ => false
  end.

(** The option monad for code that may throw on [undefined]. *)
Definition bind {A B} (m : option A) (k : A -> option B) : option B :=
  match m with Some a => k a | None => None end.

Notation "'let?' p ':=' m 'in' k" := (bind m (fun p => k))
  (at level 10, p pattern, m at level 100, k at level 200).

(** [lm[i]] followed by a property read: [None] when [i] is out of range. *)
Definition at_ (lm : LandmarkFrame) (i : nat) : option Landmark.t :=
  nth_error lm i.

Definition getPalmCenter (landmarks : LandmarkFrame) : option Point2.t :=
  let? wrist := at_ landmarks 0 in
  let? middleMCP := at_ landmarks 9 in
  Some (Point2.mk ((Landmark.x wrist + Landmark.x middleMCP) / 2)
                  ((Landmark.y wrist + Landmark.y middleMCP) / 2)).

Definition getHandSize (landmarks : LandmarkFrame) : option R :=
  let? wrist := at_ landmarks 0 in
  let? middleTip := at_ landmarks 12 in
  let palmDiagonal :=
    hypot (Landmark.x wrist - Landmark.x middleTip)
          (Landmark.y wrist - Landmark.y middleTip) in
  let? thumbTip := at_ landmarks 4 in
  let? pinkyTip := at_ landmarks 20 in
  let palmWidth :=
    hypot (Landmark.x thumbTip - Landmark.x pinkyTip)
          (Landmark.y thumbTip - Landmark.y pinkyTip) in
  let? middleMCP := at_ landmarks 9 in
  let palmHeight :=
    hypot (Landmark.x wrist - Landmark.x middleMCP)
          (Landmark.y wrist - Landmark.y middleMCP) in
  Some ((palmDiagonal + palmWidth + palmHeight) / 3).

(** The inner helper of [recognizeGesture]. *)
Definition isExtended (lm : LandmarkFrame) (tipId pipId : nat) : option bool :=
  let? tip := at_ lm tipId in
  let? pip := at_ lm pipId in
  Some (ltb (Landmark.y tip) (Landmark.y pip)).

Definition recognizeGesture (lm : LandmarkFrame) : option Gesture :=
  let? indexExtended := isExtended lm 8 6 in
  let? middleExtended := isExtended lm 12 10 in
  let? ringExtended := isExtended lm 16 14 in
  let? pinkyExtended := isExtended lm 20 18 in
  let? indexTip := at_ lm 8 in
  let? thumbTip := at_ lm 4 in
  let pinchDistance :=
    hypot (Landmark.x indexTip - Landmark.x thumbTip)
          (Landmark.y indexTip - Landmark.y thumbTip) in
  if ltb pinchDistance 0.06 then Some PINCH
  else if negb indexExtended && negb middleExtended
          && negb ringExtended && negb pinkyExtended then Some FIST
  else if indexExtended && middleExtended
          && ringExtended && pinkyExtended then Some OPEN_PALM
  else if indexExtended && middleExtended
          && negb ringExtended && negb pinkyExtended then Some V_SIGN
  else if indexExtended && negb middleExtended
          && negb ringExtended && negb pinkyExtended then Some POINT
  else Some NONE.

(** ** State shared by both effects *)

Module GestureVelocity.
Record t := mk { rotX : R; rotY : R; zoom : R }.
End GestureVelocity.

(** The result of a callback: the store it leaves, and whether it returned
    or was left by a [TypeError]. *)
Inductive Outcome (S : Type) : Type :=
| Ok (s : S)
| TypeError (s : S).
Arguments Ok {S} s.
Arguments TypeError {S} s.

Definition is_None {A} (o : option A) : bool :=
  match o with None => true | Some _ => false end.

Definition option_nat_eqb (a b : option nat) : bool :=
  match a, b with
  | Some m, Some n => Nat.eqb m n
  | None, None => true
  | _, _ => false
  end.

(** ** The Christmas tree effect, [script.js] *)

Module Tree.

Module CONFIG.
Module physics.
Definition gravity : R := -0.0003.
Definition damping : R := 0.95.
Definition returnForce : R := 0.008.
Definition turbulence : R := 0.001.
Definition maxSpeed : R := 0.015.
End physics.
Module camera.
Definition initialZ : R := 6.
Definition minZ : R := 3.
Definition maxZ : R := 10.
End camera.
End CONFIG.

(** An entry of [particlePhases]. *)
Record Phase := mkPhase {
    offset : R;
    speedX : R; speedY : R; speedZ : R;
    amplitudeX : R; amplitudeY : R; amplitudeZ : R }.

(** Index [i] of the parallel arrays [positions] (three consecutive
    cells), [particleVelocities], [particleTargets], [sphereTargets] and
    [particlePhases], which hold one entry per particle, gathered in one
    record. *)
Record Particle := mkParticle {
    position : Vector3.t;
    velocity : Vector3.t;
    target : Vector3.t;
    sphereTarget : Vector3.t;
    phase : Phase }.

(** The module-level variables the gesture pipeline and the integrator
    read and write.  Photos are identified by their index; the photo
    frames, gift boxes and the tree-top star are scene objects, modelled
    with the animation loop further down.  [closingAnimations] counts the closing animations in
    flight: the chains of [requestAnimationFrame(animateClose)] that
    [closeExpandedPhoto] has started and that have not reached their last
    step. *)
Record State := mkState {
    expandedPhoto : option nat;
    selectedPhoto : option nat;
    particles : list Particle;
    isExploded : bool;
    lastGesture : Gesture;
    gestureStartTime : R;
    lastHandPos : Point2.t;
    smoothedPos : Point2.t;
    isGestureActive : bool;
    autoRotate : bool;
    gestureVelocity : GestureVelocity.t;
    isFistShape : bool;
    lastHandSize : R;
    smoothedHandSize : R;
    handSizeBaseline : R;
    handSizeCalibrated : bool;
    treeGroup_rotation_x : R;
    treeGroup_rotation_y : R;
    camera_position_z : R;
    closingAnimations : nat }.

Definition set_expandedPhoto (v : option nat) (s : State) : State :=
  mkState v (selectedPhoto s) (particles s) (isExploded s) (lastGesture s)
    (gestureStartTime s) (lastHandPos s) (smoothedPos s) (isGestureActive s)
    (autoRotate s) (gestureVelocity s) (isFistShape s) (lastHandSize s)
    (smoothedHandSize s) (handSizeBaseline s) (handSizeCalibrated s)
    (treeGroup_rotation_x s) (treeGroup_rotation_y s) (camera_position_z s)
    (closingAnimations s).
Definition set_selectedPhoto (v : option nat) (s : State) : State :=
  mkState (expandedPhoto s) v (particles s) (isExploded s) (lastGesture s)
    (gestureStartTime s) (lastHandPos s) (smoothedPos s) (isGestureActive s)
    (autoRotate s) (gestureVelocity s) (isFistShape s) (lastHandSize s)
    (smoothedHandSize s) (handSizeBaseline s) (handSizeCalibrated s)
    (treeGroup_rotation_x s) (treeGroup_rotation_y s) (camera_position_z s)
    (closingAnimations s).
Definition set_particles (v : list Particle) (s : State) : State :=
  mkState (expandedPhoto s) (selectedPhoto s) v (isExploded s)
    (lastGesture s) (gestureStartTime s) (lastHandPos s) (smoothedPos s)
    (isGestureActive s) (autoRotate s) (gestureVelocity s) (isFistShape s)
    (lastHandSize s) (smoothedHandSize s) (handSizeBaseline s)
    (handSizeCalibrated s) (treeGroup_rotation_x s) (treeGroup_rotation_y s)
    (camera_position_z s) (closingAnimations s).
Definition set_isExploded (v : bool) (s : State) : State :=
  mkState (expandedPhoto s) (selectedPhoto s) (particles s) v
    (lastGesture s) (gestureStartTime s) (lastHandPos s) (smoothedPos s)
    (isGestureActive s) (autoRotate s) (gestureVelocity s) (isFistShape s)
    (lastHandSize s) (smoothedHandSize s) (handSizeBaseline s)
    (handSizeCalibrated s) (treeGroup_rotation_x s) (treeGroup_rotation_y s)
    (camera_position_z s) (closingAnimations s).
Definition set_lastGesture (v : Gesture) (s : State) : State :=
  mkState (expandedPhoto s) (selectedPhoto s) (particles s) (isExploded s) v
    (gestureStartTime s) (lastHandPos s) (smoothedPos s) (isGestureActive s)
    (autoRotate s) (gestureVelocity s) (isFistShape s) (lastHandSize s)
    (smoothedHandSize s) (handSizeBaseline s) (handSizeCalibrated s)
    (treeGroup_rotation_x s) (treeGroup_rotation_y s) (camera_position_z s)
    (closingAnimations s).
Definition set_gestureStartTime (v : R) (s : State) : State :=
  mkState (expandedPhoto s) (selectedPhoto s) (particles s) (isExploded s)
    (lastGesture s) v (lastHandPos s) (smoothedPos s) (isGestureActive s)
    (autoRotate s) (gestureVelocity s) (isFistShape s) (lastHandSize s)
    (smoothedHandSize s) (handSizeBaseline s) (handSizeCalibrated s)
    (treeGroup_rotation_x s) (treeGroup_rotation_y s) (camera_position_z s)
    (closingAnimations s).
Definition set_lastHandPos (v : Point2.t) (s : State) : State :=
  mkState (expandedPhoto s) (selectedPhoto s) (particles s) (isExploded s)
    (lastGesture s) (gestureStartTime s) v (smoothedPos s)
    (isGestureActive s) (autoRotate s) (gestureVelocity s) (isFistShape s)
    (lastHandSize s) (smoothedHandSize s) (handSizeBaseline s)
    (handSizeCalibrated s) (treeGroup_rotation_x s) (treeGroup_rotation_y s)
    (camera_position_z s) (closingAnimations s).
Definition set_smoothedPos (v : Point2.t) (s : State) : State :=
  mkState (expandedPhoto s) (selectedPhoto s) (particles s) (isExploded s)
    (lastGesture s) (gestureStartTime s) (lastHandPos s) v
    (isGestureActive s) (autoRotate s) (gestureVelocity s) (isFistShape s)
    (lastHandSize s) (smoothedHandSize s) (handSizeBaseline s)
    (handSizeCalibrated s) (treeGroup_rotation_x s) (treeGroup_rotation_y s)
    (camera_position_z s) (closingAnimations s).
Definition set_isGestureActive (v : bool) (s : State) : State :=
  mkState (expandedPhoto s) (selectedPhoto s) (particles s) (isExploded s)
    (lastGesture s) (gestureStartTime s) (lastHandPos s) (smoothedPos s) v
    (autoRotate s) (gestureVelocity s) (isFistShape s) (lastHandSize s)
    (smoothedHandSize s) (handSizeBaseline s) (handSizeCalibrated s)
    (treeGroup_rotation_x s) (treeGroup_rotation_y s) (camera_position_z s)
    (closingAnimations s).
Definition set_autoRotate (v : bool) (s : State) : State :=
  mkState (expandedPhoto s) (selectedPhoto s) (particles s) (isExploded s)
    (lastGesture s) (gestureStartTime s) (lastHandPos s) (smoothedPos s)
    (isGestureActive s) v (gestureVelocity s) (isFistShape s)
    (lastHandSize s) (smoothedHandSize s) (handSizeBaseline s)
    (handSizeCalibrated s) (treeGroup_rotation_x s) (treeGroup_rotation_y s)
    (camera_position_z s) (closingAnimations s).
Definition set_gestureVelocity (v : GestureVelocity.t) (s : State) : State :=
  mkState (expandedPhoto s) (selectedPhoto s) (particles s) (isExploded s)
    (lastGesture s) (gestureStartTime s) (lastHandPos s) (smoothedPos s)
    (isGestureActive s) (autoRotate s) v (isFistShape s) (lastHandSize s)
    (smoothedHandSize s) (handSizeBaseline s) (handSizeCalibrated s)
    (treeGroup_rotation_x s) (treeGroup_rotation_y s) (camera_position_z s)
    (closingAnimations s).
Definition set_isFistShape (v : bool) (s : State) : State :=
  mkState (expandedPhoto s) (selectedPhoto s) (particles s) (isExploded s)
    (lastGesture s) (gestureStartTime s) (lastHandPos s) (smoothedPos s)
    (isGestureActive s) (autoRotate s) (gestureVelocity s) v
    (lastHandSize s) (smoothedHandSize s) (handSizeBaseline s)
    (handSizeCalibrated s) (treeGroup_rotation_x s) (treeGroup_rotation_y s)
    (camera_position_z s) (closingAnimations s).
Definition set_lastHandSize (v : R) (s : State) : State :=
  mkState (expandedPhoto s) (selectedPhoto s) (particles s) (isExploded s)
    (lastGesture s) (gestureStartTime s) (lastHandPos s) (smoothedPos s)
    (isGestureActive s) (autoRotate s) (gestureVelocity s) (isFistShape s) v
    (smoothedHandSize s) (handSizeBaseline s) (handSizeCalibrated s)
    (treeGroup_rotation_x s) (treeGroup_rotation_y s) (camera_position_z s)
    (closingAnimations s).
Definition set_smoothedHandSize (v : R) (s : State) : State :=
  mkState (expandedPhoto s) (selectedPhoto s) (particles s) (isExploded s)
    (lastGesture s) (gestureStartTime s) (lastHandPos s) (smoothedPos s)
    (isGestureActive s) (autoRotate s) (gestureVelocity s) (isFistShape s)
    (lastHandSize s) v (handSizeBaseline s) (handSizeCalibrated s)
    (treeGroup_rotation_x s) (treeGroup_rotation_y s) (camera_position_z s)
    (closingAnimations s).
Definition set_handSizeBaseline (v : R) (s : State) : State :=
  mkState (expandedPhoto s) (selectedPhoto s) (particles s) (isExploded s)
    (lastGesture s) (gestureStartTime s) (lastHandPos s) (smoothedPos s)
    (isGestureActive s) (autoRotate s) (gestureVelocity s) (isFistShape s)
    (lastHandSize s) (smoothedHandSize s) v (handSizeCalibrated s)
    (treeGroup_rotation_x s) (treeGroup_rotation_y s) (camera_position_z s)
    (closingAnimations s).
Definition set_handSizeCalibrated (v : bool) (s : State) : State :=
  mkState (expandedPhoto s) (selectedPhoto s) (particles s) (isExploded s)
    (lastGesture s) (gestureStartTime s) (lastHandPos s) (smoothedPos s)
    (isGestureActive s) (autoRotate s) (gestureVelocity s) (isFistShape s)
    (lastHandSize s) (smoothedHandSize s) (handSizeBaseline s) v
    (treeGroup_rotation_x s) (treeGroup_rotation_y s) (camera_position_z s)
    (closingAnimations s).
Definition set_treeGroup_rotation_x (v : R) (s : State) : State :=
  mkState (expandedPhoto s) (selectedPhoto s) (particles s) (isExploded s)
    (lastGesture s) (gestureStartTime s) (lastHandPos s) (smoothedPos s)
    (isGestureActive s) (autoRotate s) (gestureVelocity s) (isFistShape s)
    (lastHandSize s) (smoothedHandSize s) (handSizeBaseline s)
    (handSizeCalibrated s) v (treeGroup_rotation_y s) (camera_position_z s)
    (closingAnimations s).
Definition set_treeGroup_rotation_y (v : R) (s : State) : State :=
  mkState (expandedPhoto s) (selectedPhoto s) (particles s) (isExploded s)
    (lastGesture s) (gestureStartTime s) (lastHandPos s) (smoothedPos s)
    (isGestureActive s) (autoRotate s) (gestureVelocity s) (isFistShape s)
    (lastHandSize s) (smoothedHandSize s) (handSizeBaseline s)
    (handSizeCalibrated s) (treeGroup_rotation_x s) v (camera_position_z s)
    (closingAnimations s).
Definition set_camera_position_z (v : R) (s : State) : State :=
  mkState (expandedPhoto s) (selectedPhoto s) (particles s) (isExploded s)
    (lastGesture s) (gestureStartTime s) (lastHandPos s) (smoothedPos s)
    (isGestureActive s) (autoRotate s) (gestureVelocity s) (isFistShape s)
    (lastHandSize s) (smoothedHandSize s) (handSizeBaseline s)
    (handSizeCalibrated s) (treeGroup_rotation_x s) (treeGroup_rotation_y s)
    v (closingAnimations s).
Definition set_closingAnimations (v : nat) (s : State) : State :=
  mkState (expandedPhoto s) (selectedPhoto s) (particles s) (isExploded s)
    (lastGesture s) (gestureStartTime s) (lastHandPos s) (smoothedPos s)
    (isGestureActive s) (autoRotate s) (gestureVelocity s) (isFistShape s)
    (lastHandSize s) (smoothedHandSize s) (handSizeBaseline s)
    (handSizeCalibrated s) (treeGroup_rotation_x s) (treeGroup_rotation_y s)
    (camera_position_z s) v.

(** What a callback gets from the browser: the photo (with a border) the
    ray cast at the cursor hits first, the clock, and the successive
    results of [Math.random()]. *)
Record Env := mkEnv {
    rayHit : option nat;
    now : R;
    random : nat -> R }.

(** *** Particle physics *)

(** The body of the loop of [updateParticlePhysics] for one index. *)
Definition updateParticle (time : R) (isFistShape isExploded : bool)
    (p : Particle) : Particle :=
  let currentTarget := if isFistShape then sphereTarget p else target p in
  let currentForce :=
    if isFistShape then CONFIG.physics.returnForce * 2.5
    else CONFIG.physics.returnForce in
  let vel := velocity p in
  let ph := phase p in
  let x := Vector3.x (position p) in
  let y := Vector3.y (position p) in
  let z := Vector3.z (position p) in
  let vel :=
    if negb isExploded then
      let dx := Vector3.x currentTarget - x in
      let dy := Vector3.y currentTarget - y in
      let dz := Vector3.z currentTarget - z in
      let vel := Vector3.mk (Vector3.x vel + dx * currentForce)
                            (Vector3.y vel + dy * currentForce)
                            (Vector3.z vel + dz * currentForce) in
      let turbMult := if isFistShape then 0.3 else 1.0 in
      Vector3.mk
        (Vector3.x vel
         + sin (time * speedX ph + offset ph) * amplitudeX ph * turbMult)
        (Vector3.y vel
         + cos (time * speedY ph + offset ph * 1.3) * amplitudeY ph * turbMult)
        (Vector3.z vel
         + sin (time * speedZ ph + offset ph * 0.7) * amplitudeZ ph * turbMult)
    else
      Vector3.mk (Vector3.x vel) (Vector3.y vel + CONFIG.physics.gravity)
                 (Vector3.z vel) in
  let vel := Vector3.mk (Vector3.x vel * CONFIG.physics.damping)
                        (Vector3.y vel * CONFIG.physics.damping)
                        (Vector3.z vel * CONFIG.physics.damping) in
  let speed := Vector3.length vel in
  let vel :=
    if gtb speed CONFIG.physics.maxSpeed
    then Vector3.multiplyScalar (CONFIG.physics.maxSpeed / speed) vel
    else vel in
  mkParticle (Vector3.mk (x + Vector3.x vel) (y + Vector3.y vel)
                         (z + Vector3.z vel))
             vel (target p) (sphereTarget p) (phase p).

(** [updateParticlePhysics(time)], once the particle system exists. *)
Definition updateParticlePhysics (time : R) (s : State) : State :=
  set_particles
    (map (updateParticle time (isFistShape s) (isExploded s)) (particles s)) s.

(** *** Explode and gather *)

(** The velocity loop of [explodeParticles]: particle [i] takes the draws
    [3i], [3i+1] and [3i+2]. *)
Fixpoint explodeVelocities (random : nat -> R) (i : nat)
    (ps : list Particle) : list Particle :=
  match ps with
  | [] => []
  | p :: ps' =>
      mkParticle (position p)
        (Vector3.mk ((random (3 * i)%nat - 0.5) * 0.15)
                    (random (3 * i + 1)%nat * 0.1 + 0.05)
                    ((random (3 * i + 2)%nat - 0.5) * 0.15))
        (target p) (sphereTarget p) (phase p)
      :: explodeVelocities random (S i) ps'
  end.

Definition explodeParticles (env : Env) (s : State) : State :=
  let s := set_isExploded true s in
  let s := set_autoRotate false s in
  set_particles (explodeVelocities (random env) 0 (particles s)) s.

Definition gatherParticles (s : State) : State :=
  set_isExploded false s.

(** *** Photos *)

(** [checkPhotoHover(screenX, screenY)]: the returned photo and the store. *)
Definition checkPhotoHover (env : Env) (s : State) : option nat * State :=
  match rayHit env, expandedPhoto s with
  | Some photo, None => (Some photo, set_selectedPhoto (Some photo) s)
  | _, _ => (None, set_selectedPhoto None s)
  end.

Definition expandPhoto (photo : nat) (s : State) : State :=
  match expandedPhoto s with
  | Some _ => s
  | None => set_autoRotate false (set_expandedPhoto (Some photo) s)
  end.

(** [closeExpandedPhoto()] starts a closing animation when a photo is
    expanded; no variable of the script changes before the animation
    ends. *)
Definition closeExpandedPhoto (s : State) : State :=
  match expandedPhoto s with
  | None => s
  | Some _ => set_closingAnimations (S (closingAnimations s)) s
  end.




(** *** Inertia *)

Definition applyGestureInertia (s : State) : State :=
  if negb (isGestureActive s) && is_None (expandedPhoto s)
     && negb (isExploded s) then
    let v := gestureVelocity s in
    let s :=
      if gtb (Rabs (GestureVelocity.rotX v)) 0.0001
         || gtb (Rabs (GestureVelocity.rotY v)) 0.0001 then
        let s := set_treeGroup_rotation_x
                   (treeGroup_rotation_x s + GestureVelocity.rotX v) s in
        let s := set_treeGroup_rotation_y
                   (treeGroup_rotation_y s + GestureVelocity.rotY v) s in
        let s := set_gestureVelocity
                   (GestureVelocity.mk (GestureVelocity.rotX v * 0.95)
                                       (GestureVelocity.rotY v * 0.95)
                                       (GestureVelocity.zoom v)) s in
        set_treeGroup_rotation_x
          (clamp (-0.5) 0.5 (treeGroup_rotation_x s)) s
      else s in
    let v := gestureVelocity s in
    if gtb (Rabs (GestureVelocity.zoom v)) 0.001 then
      let s := set_camera_position_z
                 (camera_position_z s + GestureVelocity.zoom v) s in
      let s := set_camera_position_z
                 (clamp CONFIG.camera.minZ CONFIG.camera.maxZ
                        (camera_position_z s)) s in
      set_gestureVelocity
        (GestureVelocity.mk (GestureVelocity.rotX v) (GestureVelocity.rotY v)
                            (GestureVelocity.zoom v * 0.92)) s
    else s
  else s.

(** *** Gesture mapping *)

(** [applyHandDistanceZoom()].  The quotient is the quotient of real
    numbers.  With a baseline of zero (a hand of size zero in the
    calibrating frame) the script computes [Infinity] or [NaN], which are
    not represented: what is stated about the camera distance is stated
    for a baseline other than zero. *)
Definition applyHandDistanceZoom (s : State) : State :=
  if negb (handSizeCalibrated s) then s
  else
    let sizeRatio := smoothedHandSize s / handSizeBaseline s in
    let zoomSensitivity := 3.0 in
    let targetZ :=
      CONFIG.camera.initialZ - (sizeRatio - 1.0) * zoomSensitivity in
    let currentZ := camera_position_z s in
    let newZ := currentZ + (targetZ - currentZ) * 0.1 in
    set_camera_position_z
      (clamp CONFIG.camera.minZ CONFIG.camera.maxZ newZ) s.

(** The rotation statements shared by the OPEN_PALM and FIST branches. *)
Definition rotateTree (deltaX deltaY : R) (s : State) : State :=
  let rotDeltaY := deltaX * 5 in
  let rotDeltaX := deltaY * 3 in
  let s := set_treeGroup_rotation_y (treeGroup_rotation_y s + rotDeltaY) s in
  let s := set_treeGroup_rotation_x (treeGroup_rotation_x s + rotDeltaX) s in
  let s := set_gestureVelocity
             (GestureVelocity.mk rotDeltaX rotDeltaY
                (GestureVelocity.zoom (gestureVelocity s))) s in
  set_treeGroup_rotation_x (clamp (-0.5) 0.5 (treeGroup_rotation_x s)) s.

(** The POINT branch: hover, and expansion after a dwell of 500 ms. *)
Definition pointAtPhoto (env : Env) (s : State) : State :=
  let (hoveredPhoto, s) := checkPhotoHover env s in
  match hoveredPhoto with
  | Some photo =>
      if is_None (expandedPhoto s) then
        if option_nat_eqb (selectedPhoto s) (Some photo) then
          if Req_dec_T (gestureStartTime s) 0 then
            set_gestureStartTime (now env) s
          else if gtb (now env - gestureStartTime s) 500 then
            set_gestureStartTime 0 (expandPhoto photo s)
          else s
        else set_gestureStartTime (now env) s
      else s
  | None => s
  end.

Definition processContinuousGesture (env : Env) (gesture : Gesture)
    (currentPos : Point2.t) (s : State) : State :=
  let deltaX := Point2.x currentPos - Point2.x (lastHandPos s) in
  let deltaY := Point2.y currentPos - Point2.y (lastHandPos s) in
  let s :=
    if negb (Gesture_eqb gesture POINT) then snd (checkPhotoHover env s)
    else s in
  if Gesture_eqb gesture OPEN_PALM then
    if negb (is_None (expandedPhoto s)) then closeExpandedPhoto s
    else
      let s := if isFistShape s then set_isFistShape false s else s in
      let s := set_autoRotate false s in
      let s := set_isGestureActive true s in
      rotateTree deltaX deltaY s
  else if Gesture_eqb gesture POINT then pointAtPhoto env s
  else if Gesture_eqb gesture PINCH then
    if negb (is_None (expandedPhoto s)) then s
    else
      let s := set_autoRotate false s in
      let s := set_isGestureActive true s in
      let zoomDelta := - deltaY * 10 in
      let s := set_camera_position_z (camera_position_z s + zoomDelta) s in
      let s := set_camera_position_z
                 (clamp CONFIG.camera.minZ CONFIG.camera.maxZ
                        (camera_position_z s)) s in
      set_gestureVelocity
        (GestureVelocity.mk (GestureVelocity.rotX (gestureVelocity s))
                            (GestureVelocity.rotY (gestureVelocity s))
                            zoomDelta) s
  else if Gesture_eqb gesture FIST then
    if negb (is_None (expandedPhoto s)) then
      if negb (Gesture_eqb (lastGesture s) FIST) then closeExpandedPhoto s
      else s
    else if isExploded s then
      if negb (Gesture_eqb (lastGesture s) FIST) then gatherParticles s
      else s
    else
      let s :=
        if negb (isFistShape s)
        then set_autoRotate false (set_isFistShape true s)
        else s in
      rotateTree deltaX deltaY s
  else if Gesture_eqb gesture V_SIGN
          && negb (Gesture_eqb (lastGesture s) V_SIGN) then
    if is_None (expandedPhoto s) then
      if isExploded s then gatherParticles s else explodeParticles env s
    else s
  else
    let s := set_gestureStartTime 0 s in
    let s := set_isGestureActive false s in
    if Gesture_eqb gesture NONE then
      let s := if isFistShape s then set_isFistShape false s else s in
      if is_None (expandedPhoto s) then set_autoRotate true s else s
    else s.

Definition handleGestures (env : Env) (landmarks : LandmarkFrame)
    (s : State) : Outcome State :=
  match getPalmCenter landmarks with
  | None => TypeError s
  | Some palmCenter =>
      let rawX := 1 - Point2.x palmCenter in
      let rawY := Point2.y palmCenter in
      let s := set_smoothedPos
                 (Point2.mk (Point2.x (smoothedPos s) * 0.7 + rawX * 0.3)
                            (Point2.y (smoothedPos s) * 0.7 + rawY * 0.3)) s in
      match getHandSize landmarks with
      | None => TypeError s
      | Some currentHandSize =>
          let s := set_smoothedHandSize
                     (smoothedHandSize s * 0.8 + currentHandSize * 0.2) s in
          let s :=
            if negb (handSizeCalibrated s) then
              let s := set_handSizeBaseline currentHandSize s in
              let s := set_smoothedHandSize currentHandSize s in
              set_handSizeCalibrated true s
            else s in
          match recognizeGesture landmarks with
          | None => TypeError s
          | Some gesture =>
              let s :=
                if Gesture_eqb gesture OPEN_PALM
                   && is_None (expandedPhoto s)
                then applyHandDistanceZoom s else s in
              let s := processContinuousGesture env gesture (smoothedPos s) s in
              let s := set_lastHandPos
                         (Point2.mk (Point2.x (smoothedPos s))
                                    (Point2.y (smoothedPos s))) s in
              let s := set_lastHandSize currentHandSize s in
              Ok (set_lastGesture gesture s)
          end
      end
  end.

(** [onResults(results)]; [multiHandLandmarks] is [None] when the property
    is missing from [results]. *)
Definition onResults (env : Env)
    (multiHandLandmarks : option (list LandmarkFrame)) (s : State)
    : Outcome State :=
  match multiHandLandmarks with
  | Some (landmarks :: _) => handleGestures env landmarks s
  | _ => Ok (set_autoRotate true (set_isGestureActive false s))
  end.

(** The store when the effect starts, over the particles made by
    [createTreeParticles]. *)
Definition initial (ps : list Particle) : State :=
  {| expandedPhoto := None; selectedPhoto := None; particles := ps;
     isExploded := false; lastGesture := NONE; gestureStartTime := 0;
     lastHandPos := Point2.mk 0.5 0.5; smoothedPos := Point2.mk 0.5 0.5;
     isGestureActive := false; autoRotate := true;
     gestureVelocity := GestureVelocity.mk 0 0 0; isFistShape := false;
     lastHandSize := 0; smoothedHandSize := 0; handSizeBaseline := 0;
     handSizeCalibrated := false;
     treeGroup_rotation_x := 0; treeGroup_rotation_y := 0;
     camera_position_z := CONFIG.camera.initialZ;
     closingAnimations := 0 |}.

End Tree.

(** ** The starry-night effect *)

Module Starry.

Module CONFIG.
Module physics.
Definition damping : R := 0.96.
Definition returnForce : R := 0.01.
End physics.
Module camera.
Definition initialZ : R := 15.
Definition minZ : R := 6.
Definition maxZ : R := 30.
End camera.
End CONFIG.

(** The module-level variables of the gesture pipeline.  Constellations are
    identified by an index; [starVelocities] holds [userData.velocity] of
    each entry of [constellationStars]. *)
Record State := mkState {
    isScattered : bool;
    starVelocities : list Vector3.t;
    smoothedHandSize : R;
    handSizeCalibrated : bool;
    handSizeBaseline : R;
    lastHandSize : R;
    gestureStartTime : R;
    lastGesture : Gesture;
    lastHandPos : Point2.t;
    smoothedPos : Point2.t;
    isGestureActive : bool;
    autoRotate : bool;
    gestureVelocity : GestureVelocity.t;
    highlightedConstellation : option nat;
    starGroup_rotation_x : R;
    starGroup_rotation_y : R;
    camera_position_z : R }.

Definition set_isScattered (v : bool) (s : State) : State :=
  mkState v (starVelocities s) (smoothedHandSize s) (handSizeCalibrated s)
    (handSizeBaseline s) (lastHandSize s) (gestureStartTime s)
    (lastGesture s) (lastHandPos s) (smoothedPos s) (isGestureActive s)
    (autoRotate s) (gestureVelocity s) (highlightedConstellation s)
    (starGroup_rotation_x s) (starGroup_rotation_y s) (camera_position_z s).
Definition set_starVelocities (v : list Vector3.t) (s : State) : State :=
  mkState (isScattered s) v (smoothedHandSize s) (handSizeCalibrated s)
    (handSizeBaseline s) (lastHandSize s) (gestureStartTime s)
    (lastGesture s) (lastHandPos s) (smoothedPos s) (isGestureActive s)
    (autoRotate s) (gestureVelocity s) (highlightedConstellation s)
    (starGroup_rotation_x s) (starGroup_rotation_y s) (camera_position_z s).
Definition set_smoothedHandSize (v : R) (s : State) : State :=
  mkState (isScattered s) (starVelocities s) v (handSizeCalibrated s)
    (handSizeBaseline s) (lastHandSize s) (gestureStartTime s)
    (lastGesture s) (lastHandPos s) (smoothedPos s) (isGestureActive s)
    (autoRotate s) (gestureVelocity s) (highlightedConstellation s)
    (starGroup_rotation_x s) (starGroup_rotation_y s) (camera_position_z s).
Definition set_handSizeCalibrated (v : bool) (s : State) : State :=
  mkState (isScattered s) (starVelocities s) (smoothedHandSize s) v
    (handSizeBaseline s) (lastHandSize s) (gestureStartTime s)
    (lastGesture s) (lastHandPos s) (smoothedPos s) (isGestureActive s)
    (autoRotate s) (gestureVelocity s) (highlightedConstellation s)
    (starGroup_rotation_x s) (starGroup_rotation_y s) (camera_position_z s).
Definition set_handSizeBaseline (v : R) (s : State) : State :=
  mkState (isScattered s) (starVelocities s) (smoothedHandSize s)
    (handSizeCalibrated s) v (lastHandSize s) (gestureStartTime s)
    (lastGesture s) (lastHandPos s) (smoothedPos s) (isGestureActive s)
    (autoRotate s) (gestureVelocity s) (highlightedConstellation s)
    (starGroup_rotation_x s) (starGroup_rotation_y s) (camera_position_z s).
Definition set_lastHandSize (v : R) (s : State) : State :=
  mkState (isScattered s) (starVelocities s) (smoothedHandSize s)
    (handSizeCalibrated s) (handSizeBaseline s) v (gestureStartTime s)
    (lastGesture s) (lastHandPos s) (smoothedPos s) (isGestureActive s)
    (autoRotate s) (gestureVelocity s) (highlightedConstellation s)
    (starGroup_rotation_x s) (starGroup_rotation_y s) (camera_position_z s).
Definition set_gestureStartTime (v : R) (s : State) : State :=
  mkState (isScattered s) (starVelocities s) (smoothedHandSize s)
    (handSizeCalibrated s) (handSizeBaseline s) (lastHandSize s) v
    (lastGesture s) (lastHandPos s) (smoothedPos s) (isGestureActive s)
    (autoRotate s) (gestureVelocity s) (highlightedConstellation s)
    (starGroup_rotation_x s) (starGroup_rotation_y s) (camera_position_z s).
Definition set_lastGesture (v : Gesture) (s : State) : State :=
  mkState (isScattered s) (starVelocities s) (smoothedHandSize s)
    (handSizeCalibrated s) (handSizeBaseline s) (lastHandSize s)
    (gestureStartTime s) v (lastHandPos s) (smoothedPos s)
    (isGestureActive s) (autoRotate s) (gestureVelocity s)
    (highlightedConstellation s) (starGroup_rotation_x s)
    (starGroup_rotation_y s) (camera_position_z s).
Definition set_lastHandPos (v : Point2.t) (s : State) : State :=
  mkState (isScattered s) (starVelocities s) (smoothedHandSize s)
    (handSizeCalibrated s) (handSizeBaseline s) (lastHandSize s)
    (gestureStartTime s) (lastGesture s) v (smoothedPos s)
    (isGestureActive s) (autoRotate s) (gestureVelocity s)
    (highlightedConstellation s) (starGroup_rotation_x s)
    (starGroup_rotation_y s) (camera_position_z s).
Definition set_smoothedPos (v : Point2.t) (s : State) : State :=
  mkState (isScattered s) (starVelocities s) (smoothedHandSize s)
    (handSizeCalibrated s) (handSizeBaseline s) (lastHandSize s)
    (gestureStartTime s) (lastGesture s) (lastHandPos s) v
    (isGestureActive s) (autoRotate s) (gestureVelocity s)
    (highlightedConstellation s) (starGroup_rotation_x s)
    (starGroup_rotation_y s) (camera_position_z s).
Definition set_isGestureActive (v : bool) (s : State) : State :=
  mkState (isScattered s) (starVelocities s) (smoothedHandSize s)
    (handSizeCalibrated s) (handSizeBaseline s) (lastHandSize s)
    (gestureStartTime s) (lastGesture s) (lastHandPos s) (smoothedPos s) v
    (autoRotate s) (gestureVelocity s) (highlightedConstellation s)
    (starGroup_rotation_x s) (starGroup_rotation_y s) (camera_position_z s).
Definition set_autoRotate (v : bool) (s : State) : State :=
  mkState (isScattered s) (starVelocities s) (smoothedHandSize s)
    (handSizeCalibrated s) (handSizeBaseline s) (lastHandSize s)
    (gestureStartTime s) (lastGesture s) (lastHandPos s) (smoothedPos s)
    (isGestureActive s) v (gestureVelocity s) (highlightedConstellation s)
    (starGroup_rotation_x s) (starGroup_rotation_y s) (camera_position_z s).
Definition set_gestureVelocity (v : GestureVelocity.t) (s : State) : State :=
  mkState (isScattered s) (starVelocities s) (smoothedHandSize s)
    (handSizeCalibrated s) (handSizeBaseline s) (lastHandSize s)
    (gestureStartTime s) (lastGesture s) (lastHandPos s) (smoothedPos s)
    (isGestureActive s) (autoRotate s) v (highlightedConstellation s)
    (starGroup_rotation_x s) (starGroup_rotation_y s) (camera_position_z s).
Definition set_highlightedConstellation (v : option nat) (s : State) : State :=
  mkState (isScattered s) (starVelocities s) (smoothedHandSize s)
    (handSizeCalibrated s) (handSizeBaseline s) (lastHandSize s)
    (gestureStartTime s) (lastGesture s) (lastHandPos s) (smoothedPos s)
    (isGestureActive s) (autoRotate s) (gestureVelocity s) v
    (starGroup_rotation_x s) (starGroup_rotation_y s) (camera_position_z s).
Definition set_starGroup_rotation_x (v : R) (s : State) : State :=
  mkState (isScattered s) (starVelocities s) (smoothedHandSize s)
    (handSizeCalibrated s) (handSizeBaseline s) (lastHandSize s)
    (gestureStartTime s) (lastGesture s) (lastHandPos s) (smoothedPos s)
    (isGestureActive s) (autoRotate s) (gestureVelocity s)
    (highlightedConstellation s) v (starGroup_rotation_y s)
    (camera_position_z s).
Definition set_starGroup_rotation_y (v : R) (s : State) : State :=
  mkState (isScattered s) (starVelocities s) (smoothedHandSize s)
    (handSizeCalibrated s) (handSizeBaseline s) (lastHandSize s)
    (gestureStartTime s) (lastGesture s) (lastHandPos s) (smoothedPos s)
    (isGestureActive s) (autoRotate s) (gestureVelocity s)
    (highlightedConstellation s) (starGroup_rotation_x s) v
    (camera_position_z s).
Definition set_camera_position_z (v : R) (s : State) : State :=
  mkState (isScattered s) (starVelocities s) (smoothedHandSize s)
    (handSizeCalibrated s) (handSizeBaseline s) (lastHandSize s)
    (gestureStartTime s) (lastGesture s) (lastHandPos s) (smoothedPos s)
    (isGestureActive s) (autoRotate s) (gestureVelocity s)
    (highlightedConstellation s) (starGroup_rotation_x s)
    (starGroup_rotation_y s) v.

(** What a callback gets from the browser: the constellation of the star
    the ray cast at the cursor hits first, and the successive results of
    [Math.random()]. *)
Record Env := mkEnv {
    rayHit : option nat;
    random : nat -> R }.

(** The loop of [scatterStars]: star [i] takes the draws [3i], [3i+1] and
    [3i+2]. *)
Fixpoint scatterVelocities (random : nat -> R) (i : nat)
    (vs : list Vector3.t) : list Vector3.t :=
  match vs with
  | [] => []
  | _ :: vs' =>
      Vector3.mk ((random (3 * i)%nat - 0.5) * 0.1)
                 ((random (3 * i + 1)%nat - 0.5) * 0.1)
                 ((random (3 * i + 2)%nat - 0.5) * 0.1)
      :: scatterVelocities random (S i) vs'
  end.

Definition scatterStars (env : Env) (s : State) : State :=
  let s := set_isScattered true s in
  let s := set_autoRotate false s in
  set_starVelocities (scatterVelocities (random env) 0 (starVelocities s)) s.

Definition gatherStars (s : State) : State :=
  let s := set_isScattered false s in
  set_starVelocities (map (fun _ => Vector3.mk 0 0 0) (starVelocities s)) s.

Definition checkConstellationHover (env : Env) (s : State) : State :=
  match rayHit env with
  | Some constellation =>
      if negb (option_nat_eqb (highlightedConstellation s)
                              (Some constellation))
      then set_highlightedConstellation (Some constellation) s
      else s
  | None => s
  end.


Definition applyGestureInertia (s : State) : State :=
  if negb (isGestureActive s) then
    let v := gestureVelocity s in
    let s :=
      if gtb (Rabs (GestureVelocity.rotX v)) 0.0001
         || gtb (Rabs (GestureVelocity.rotY v)) 0.0001 then
        let s := set_starGroup_rotation_x
                   (starGroup_rotation_x s + GestureVelocity.rotX v) s in
        let s := set_starGroup_rotation_y
                   (starGroup_rotation_y s + GestureVelocity.rotY v) s in
        let s := set_gestureVelocity
                   (GestureVelocity.mk (GestureVelocity.rotX v * 0.95)
                                       (GestureVelocity.rotY v * 0.95)
                                       (GestureVelocity.zoom v)) s in
        set_starGroup_rotation_x
          (clamp (-0.8) 0.8 (starGroup_rotation_x s)) s
      else s in
    let v := gestureVelocity s in
    if gtb (Rabs (GestureVelocity.zoom v)) 0.001 then
      let s := set_camera_position_z
                 (camera_position_z s + GestureVelocity.zoom v) s in
      let s := set_camera_position_z
                 (clamp CONFIG.camera.minZ CONFIG.camera.maxZ
                        (camera_position_z s)) s in
      set_gestureVelocity
        (GestureVelocity.mk (GestureVelocity.rotX v) (GestureVelocity.rotY v)
                            (GestureVelocity.zoom v * 0.92)) s
    else s
  else s.

(** [applyHandDistanceZoom()]; as in the tree effect, the quotient is that
    of real numbers and a baseline of zero is outside the model. *)
Definition applyHandDistanceZoom (s : State) : State :=
  if negb (handSizeCalibrated s) then s
  else
    let sizeRatio := smoothedHandSize s / handSizeBaseline s in
    let zoomSensitivity := 4.0 in
    let targetZ :=
      CONFIG.camera.initialZ - (sizeRatio - 1.0) * zoomSensitivity in
    let currentZ := camera_position_z s in
    let newZ := currentZ + (targetZ - currentZ) * 0.1 in
    set_camera_position_z
      (clamp CONFIG.camera.minZ CONFIG.camera.maxZ newZ) s.

(** The rotation statements shared by the OPEN_PALM and FIST branches. *)
Definition rotateSky (deltaX deltaY : R) (s : State) : State :=
  let rotDeltaY := deltaX * 5 in
  let rotDeltaX := deltaY * 3 in
  let s := set_starGroup_rotation_y (starGroup_rotation_y s + rotDeltaY) s in
  let s := set_starGroup_rotation_x (starGroup_rotation_x s + rotDeltaX) s in
  let s := set_gestureVelocity
             (GestureVelocity.mk rotDeltaX rotDeltaY
                (GestureVelocity.zoom (gestureVelocity s))) s in
  set_starGroup_rotation_x (clamp (-0.8) 0.8 (starGroup_rotation_x s)) s.

Definition processContinuousGesture (env : Env) (gesture : Gesture)
    (currentPos : Point2.t) (s : State) : State :=
  let deltaX := Point2.x currentPos - Point2.x (lastHandPos s) in
  let deltaY := Point2.y currentPos - Point2.y (lastHandPos s) in
  let s := checkConstellationHover env s in
  if Gesture_eqb gesture OPEN_PALM then
    let s := set_autoRotate false s in
    let s := set_isGestureActive true s in
    rotateSky deltaX deltaY s
  else if Gesture_eqb gesture POINT then s
  else if Gesture_eqb gesture PINCH then
    let s := set_autoRotate false s in
    let s := set_isGestureActive true s in
    let zoomDelta := - deltaY * 10 in
    let s := set_camera_position_z (camera_position_z s + zoomDelta) s in
    let s := set_camera_position_z
               (clamp CONFIG.camera.minZ CONFIG.camera.maxZ
                      (camera_position_z s)) s in
    set_gestureVelocity
      (GestureVelocity.mk (GestureVelocity.rotX (gestureVelocity s))
                          (GestureVelocity.rotY (gestureVelocity s))
                          zoomDelta) s
  else if Gesture_eqb gesture FIST then
    let s := if isScattered s then gatherStars s else s in
    rotateSky deltaX deltaY s
  else if Gesture_eqb gesture V_SIGN
          && negb (Gesture_eqb (lastGesture s) V_SIGN) then
    if isScattered s then gatherStars s else scatterStars env s
  else
    let s := set_gestureStartTime 0 s in
    let s := set_isGestureActive false s in
    if Gesture_eqb gesture NONE then set_autoRotate true s else s.

Definition handleGestures (env : Env) (landmarks : LandmarkFrame)
    (s : State) : Outcome State :=
  match getPalmCenter landmarks with
  | None => TypeError s
  | Some palmCenter =>
      let rawX := 1 - Point2.x palmCenter in
      let rawY := Point2.y palmCenter in
      let s := set_smoothedPos
                 (Point2.mk (Point2.x (smoothedPos s) * 0.7 + rawX * 0.3)
                            (Point2.y (smoothedPos s) * 0.7 + rawY * 0.3)) s in
      match getHandSize landmarks with
      | None => TypeError s
      | Some currentHandSize =>
          let s := set_smoothedHandSize
                     (smoothedHandSize s * 0.8 + currentHandSize * 0.2) s in
          let s :=
            if negb (handSizeCalibrated s) then
              let s := set_handSizeBaseline currentHandSize s in
              let s := set_smoothedHandSize currentHandSize s in
              set_handSizeCalibrated true s
            else s in
          match recognizeGesture landmarks with
          | None => TypeError s
          | Some gesture =>
              let s :=
                if Gesture_eqb gesture OPEN_PALM
                then applyHandDistanceZoom s else s in
              let s := processContinuousGesture env gesture (smoothedPos s) s in
              let s := set_lastHandPos
                         (Point2.mk (Point2.x (smoothedPos s))
                                    (Point2.y (smoothedPos s))) s in
              let s := set_lastHandSize currentHandSize s in
              Ok (set_lastGesture gesture s)
          end
      end
  end.

Definition onResults (env : Env)
    (multiHandLandmarks : option (list LandmarkFrame)) (s : State)
    : Outcome State :=
  match multiHandLandmarks with
  | Some (landmarks :: _) => handleGestures env landmarks s
  | _ => Ok (set_autoRotate true (set_isGestureActive false s))
  end.

(** The store when the effect starts, over the velocities of the stars. *)
Definition initial (vs : list Vector3.t) : State :=
  {| isScattered := false; starVelocities := vs;
     smoothedHandSize := 0; handSizeCalibrated := false;
     handSizeBaseline := 0; lastHandSize := 0; gestureStartTime := 0;
     lastGesture := NONE;
     lastHandPos := Point2.mk 0.5 0.5; smoothedPos := Point2.mk 0.5 0.5;
     isGestureActive := false; autoRotate := true;
     gestureVelocity := GestureVelocity.mk 0 0 0;
     highlightedConstellation := None;
     starGroup_rotation_x := 0; starGroup_rotation_y := 0;
     camera_position_z := CONFIG.camera.initialZ |}.

End Starry.

(** ** Runs of detector callbacks *)

(** Successive calls of a callback; the run stops at the first exception. *)
Fixpoint run {S I : Type} (step : I -> S -> Outcome S) (inputs : list I)
    (s : S) : Outcome S :=
  match inputs with
  | [] => Ok s
  | i :: rest =>
      match step i s with
      | Ok s' => run step rest s'
      | TypeError s' => TypeError s'
      end
  end.

(** Successive animation frames of a total per-frame function. *)
Fixpoint iterate {S : Type} (f : S -> S) (k : nat) (s : S) : S :=
  match k with
  | O => s
  | Datatypes.S k' => iterate f k' (f s)
  end.

(** A result of the detector that carries no hand. *)
Definition noHand (multiHandLandmarks : option (list LandmarkFrame)) : bool :=
  match multiHandLandmarks with
  | Some (_ :: _) => false
  | _ => true
  end.

(** The exploded step as the specification words it: gravity on the
    vertical velocity, then damping, then the speed cap, then the move.
    It returns the new position and the new velocity. *)
Definition explodedStep (position velocity : Vector3.t)
    : Vector3.t * Vector3.t :=
  let fallen :=
    Vector3.mk (Vector3.x velocity)
               (Vector3.y velocity + Tree.CONFIG.physics.gravity)
               (Vector3.z velocity) in
  let damped :=
    Vector3.multiplyScalar Tree.CONFIG.physics.damping fallen in
  let capped :=
    if gtb (Vector3.length damped) Tree.CONFIG.physics.maxSpeed
    then Vector3.multiplyScalar
           (Tree.CONFIG.physics.maxSpeed / Vector3.length damped) damped
    else damped in
  (Vector3.mk (Vector3.x position + Vector3.x capped)
              (Vector3.y position + Vector3.y capped)
              (Vector3.z position + Vector3.z capped),
   capped).

(** ** Sample frames and stores *)

(** The guard of [applyGestureInertia] in the tree effect. *)
Definition treeInertiaEnabled (s : Tree.State) : bool :=
  negb (Tree.isGestureActive s) && is_None (Tree.expandedPhoto s)
  && negb (Tree.isExploded s).

(** A tree store that coasts: no gesture, rotation and zoom velocities
    given, the tree exploded or not. *)
Definition coastingTree (rotX rotY zoom : R) (exploded : bool) : Tree.State :=
  Tree.set_isExploded exploded
    (Tree.set_gestureVelocity (GestureVelocity.mk rotX rotY zoom)
       (Tree.initial [])).

Definition coastingSky (rotX rotY zoom : R) : Starry.State :=
  Starry.set_gestureVelocity (GestureVelocity.mk rotX rotY zoom)
    (Starry.initial []).


(** A 21-point frame given by its points. *)
Definition frameOf (f : nat -> Landmark.t) : LandmarkFrame :=
  map f (seq 0 21).

(** The projection of a landmark on the image plane. *)
Definition xy (p : Landmark.t) : R * R := (Landmark.x p, Landmark.y p).

(** Thumb tip at (0.50, 0.50), index tip at (0.505, 0.505); the other
    fingers are extended (tips above their joints). *)
Definition pinchFrame : LandmarkFrame :=
  frameOf (fun i =>
    if Nat.eqb i 4 then Landmark.mk 0.5 0.5 0
    else if Nat.eqb i 8 then Landmark.mk 0.505 0.505 0
    else if Nat.eqb i 12 || Nat.eqb i 16 || Nat.eqb i 20
         then Landmark.mk 0.5 0.2 0
    else Landmark.mk 0.5 0.6 0).

(** The same frame with every point pushed to another depth. *)
Definition pinchFrameDeep : LandmarkFrame :=
  map (fun p => Landmark.mk (Landmark.x p) (Landmark.y p) 7) pinchFrame.

(** Index and middle fingers up, ring and little fingers curled, the
    thumb tip 0.5 away from the index tip. *)
Definition vSignFrame : LandmarkFrame :=
  frameOf (fun i =>
    if Nat.eqb i 4 then Landmark.mk 0.1 0.5 0
    else if Nat.eqb i 8 || Nat.eqb i 12 then Landmark.mk 0.5 0.2 0
    else if Nat.eqb i 16 || Nat.eqb i 20 then Landmark.mk 0.5 0.8 0
    else Landmark.mk 0.5 0.6 0).

(** The four fingers up, the thumb tip 0.5 away from the index tip. *)
Definition openPalmFrame : LandmarkFrame :=
  frameOf (fun i =>
    if Nat.eqb i 4 then Landmark.mk 0.1 0.5 0
    else if Nat.eqb i 8 || Nat.eqb i 12 || Nat.eqb i 16 || Nat.eqb i 20
         then Landmark.mk 0.5 0.2 0
    else Landmark.mk 0.5 0.6 0).

(** A frame whose hand size is [size]: the wrist and the thumb tip at
    [(size, 0)], every other point at the origin. *)
Definition sizedFrame (size : R) : LandmarkFrame :=
  frameOf (fun i =>
    if Nat.eqb i 0 || Nat.eqb i 4 then Landmark.mk size 0 0
    else Landmark.mk 0 0 0).

(** A browser in which the ray cast hits nothing, the clock reads 0 and
    every random draw is 0.5. *)
Definition quietTree : Tree.Env := Tree.mkEnv None 0 (fun _ => 0.5).
Definition quietSky : Starry.Env := Starry.mkEnv None (fun _ => 0.5).

(** The tree effect at its start with photo 0 expanded. *)
Definition photoOpen : Tree.State :=
  Tree.set_expandedPhoto (Some 0%nat) (Tree.initial []).

(** The detector callback on a frame, for [run]. *)
Definition treeFrame (f : Tree.Env * LandmarkFrame) (s : Tree.State)
    : Outcome Tree.State :=
  Tree.handleGestures (fst f) (snd f) s.

Definition skyFrame (f : Starry.Env * LandmarkFrame) (s : Starry.State)
    : Outcome Starry.State :=
  Starry.handleGestures (fst f) (snd f) s.

(** The [onResults] callback on a detector result, for [run]. *)
Definition treeResults (r : Tree.Env * option (list LandmarkFrame))
    (s : Tree.State) : Outcome Tree.State :=
  Tree.onResults (fst r) (snd r) s.

Definition skyResults (r : Starry.Env * option (list LandmarkFrame))
    (s : Starry.State) : Outcome Starry.State :=
  Starry.onResults (fst r) (snd r) s.



(** Stores calibrated on a hand of size 0.5. *)
Definition calibratedTree : Tree.State :=
  Tree.set_handSizeCalibrated true
    (Tree.set_handSizeBaseline 0.5
       (Tree.set_smoothedHandSize 0.5 (Tree.initial []))).

Definition calibratedSky : Starry.State :=
  Starry.set_handSizeCalibrated true
    (Starry.set_handSizeBaseline 0.5
       (Starry.set_smoothedHandSize 0.5 (Starry.initial []))).

(** The three inertia velocities of a store. *)
Definition treeRotX (s : Tree.State) : R :=
  GestureVelocity.rotX (Tree.gestureVelocity s).
Definition treeRotY (s : Tree.State) : R :=
  GestureVelocity.rotY (Tree.gestureVelocity s).
Definition treeZoom (s : Tree.State) : R :=
  GestureVelocity.zoom (Tree.gestureVelocity s).
Definition skyRotX (s : Starry.State) : R :=
  GestureVelocity.rotX (Starry.gestureVelocity s).
Definition skyRotY (s : Starry.State) : R :=
  GestureVelocity.rotY (Starry.gestureVelocity s).
Definition skyZoom (s : Starry.State) : R :=
  GestureVelocity.zoom (Starry.gestureVelocity s).

(** ** The other moving objects of the tree scene, [script.js] *)

(** An entry [phase] of the [userData] of a gift or of a photo. *)
Module MotionPhase.
Record t := mk {
    offset : R;
    speedX : R; speedY : R; speedZ : R;
    amplitudeX : R; amplitudeY : R; amplitudeZ : R;
    rotSpeed : R }.
End MotionPhase.

(** A gift box, with the entries of [giftTargets] and [giftSphereTargets]
    at its index. *)
Module Gift.
Record t := mk {
    position : Vector3.t;
    rotation : Vector3.t;
    velocity : Vector3.t;
    angularVelocity : Vector3.t;
    phase : MotionPhase.t;
    target : Vector3.t;
    sphereTarget : Vector3.t }.
End Gift.

(** A photo frame; [index] names the object, as [expandedPhoto] and
    [selectedPhoto] of the store do. *)
Module Photo.
Record t := mk {
    index : nat;
    position : Vector3.t;
    rotation : Vector3.t;
    velocity : Vector3.t;
    angularVelocity : Vector3.t;
    phase : MotionPhase.t;
    targetPosition : Vector3.t }.
End Photo.

(** The star on top of the tree. *)
Module TreeStar.
Record t := mk {
    position : Vector3.t;
    scale : Vector3.t;
    velocity : Vector3.t }.
End TreeStar.

(** The speed cap shared by the three integrators. *)
Definition capSpeed (cap : R) (vel : Vector3.t) : Vector3.t :=
  let speed := Vector3.length vel in
  if gtb speed cap then Vector3.multiplyScalar (cap / speed) vel else vel.

(** The callback of [giftBoxes.forEach] in [updateGiftPhysics]. *)
Definition updateGift (time : R) (isFistShape isExploded : bool)
    (gift : Gift.t) : Gift.t :=
  let target := if isFistShape then Gift.sphereTarget gift
                else Gift.target gift in
  let currentForce :=
    if isFistShape then Tree.CONFIG.physics.returnForce * 2.5
    else Tree.CONFIG.physics.returnForce in
  let vel := Gift.velocity gift in
  let phase := Gift.phase gift in
  let pos := Gift.position gift in
  let rot := Gift.rotation gift in
  let '(vel, rot) :=
    if negb isExploded then
      let dx := Vector3.x target - Vector3.x pos in
      let dy := Vector3.y target - Vector3.y pos in
      let dz := Vector3.z target - Vector3.z pos in
      let vel := Vector3.mk (Vector3.x vel + dx * currentForce * 0.7)
                            (Vector3.y vel + dy * currentForce * 0.7)
                            (Vector3.z vel + dz * currentForce * 0.7) in
      let turbMult := if isFistShape then 0.3 else 1.0 in
      let vel :=
        Vector3.mk
          (Vector3.x vel
           + sin (time * MotionPhase.speedX phase + MotionPhase.offset phase)
             * MotionPhase.amplitudeX phase * turbMult)
          (Vector3.y vel
           + cos (time * MotionPhase.speedY phase
                  + MotionPhase.offset phase * 1.5)
             * MotionPhase.amplitudeY phase * turbMult)
          (Vector3.z vel
           + sin (time * MotionPhase.speedZ phase
                  + MotionPhase.offset phase * 0.8)
             * MotionPhase.amplitudeZ phase * turbMult) in
      let rot :=
        Vector3.mk
          (Vector3.x rot
           + sin (time * MotionPhase.rotSpeed phase + MotionPhase.offset phase)
             * 0.003)
          (Vector3.y rot
           + cos (time * MotionPhase.rotSpeed phase * 0.8
                  + MotionPhase.offset phase) * 0.004)
          (Vector3.z rot
           + sin (time * MotionPhase.rotSpeed phase * 0.6
                  + MotionPhase.offset phase) * 0.002) in
      (vel, rot)
    else
      let vel := Vector3.mk (Vector3.x vel)
                            (Vector3.y vel + Tree.CONFIG.physics.gravity * 2)
                            (Vector3.z vel) in
      let rot :=
        Vector3.mk (Vector3.x rot + Vector3.x (Gift.angularVelocity gift))
                   (Vector3.y rot + Vector3.y (Gift.angularVelocity gift))
                   (Vector3.z rot + Vector3.z (Gift.angularVelocity gift)) in
      (vel, rot) in
  let vel := Vector3.mk (Vector3.x vel * Tree.CONFIG.physics.damping)
                        (Vector3.y vel * Tree.CONFIG.physics.damping)
                        (Vector3.z vel * Tree.CONFIG.physics.damping) in
  let vel := capSpeed 0.06 vel in
  Gift.mk (Vector3.mk (Vector3.x pos + Vector3.x vel)
                      (Vector3.y pos + Vector3.y vel)
                      (Vector3.z pos + Vector3.z vel))
          rot vel (Gift.angularVelocity gift) phase
          (Gift.target gift) (Gift.sphereTarget gift).

Definition updateGiftPhysics (time : R) (s : Tree.State)
    (giftBoxes : list Gift.t) : list Gift.t :=
  map (updateGift time (Tree.isFistShape s) (Tree.isExploded s)) giftBoxes.

(** The callback of [photoFrames.forEach] in [updatePhotoPhysics];
    [photo === expandedPhoto] compares the names of the two objects. *)
Definition updatePhoto (time : R) (expandedPhoto : option nat)
    (isExploded : bool) (photo : Photo.t) : Photo.t :=
  if option_nat_eqb expandedPhoto (Some (Photo.index photo)) then photo
  else
    let vel := Photo.velocity photo in
    let phase := Photo.phase photo in
    let target := Photo.targetPosition photo in
    let pos := Photo.position photo in
    let rot := Photo.rotation photo in
    let '(vel, rot) :=
      if negb isExploded then
        let dx := Vector3.x target - Vector3.x pos in
        let dy := Vector3.y target - Vector3.y pos in
        let dz := Vector3.z target - Vector3.z pos in
        let vel :=
          Vector3.mk
            (Vector3.x vel + dx * Tree.CONFIG.physics.returnForce * 0.8)
            (Vector3.y vel + dy * Tree.CONFIG.physics.returnForce * 0.8)
            (Vector3.z vel + dz * Tree.CONFIG.physics.returnForce * 0.8) in
        let vel :=
          Vector3.mk
            (Vector3.x vel
             + sin (time * MotionPhase.speedX phase
                    + MotionPhase.offset phase)
               * MotionPhase.amplitudeX phase)
            (Vector3.y vel
             + cos (time * MotionPhase.speedY phase
                    + MotionPhase.offset phase * 1.5)
               * MotionPhase.amplitudeY phase)
            (Vector3.z vel
             + sin (time * MotionPhase.speedZ phase
                    + MotionPhase.offset phase * 0.8)
               * MotionPhase.amplitudeZ phase) in
        let rotY :=
          Vector3.y rot
          + sin (time * MotionPhase.rotSpeed phase + MotionPhase.offset phase)
            * 0.002 in
        let rotX :=
          Vector3.x rot
          + cos (time * MotionPhase.rotSpeed phase * 0.7
                 + MotionPhase.offset phase) * 0.001 in
        (vel, Vector3.mk rotX rotY (Vector3.z rot))
      else
        let vel :=
          Vector3.mk (Vector3.x vel)
                     (Vector3.y vel + Tree.CONFIG.physics.gravity * 1.5)
                     (Vector3.z vel) in
        let rot :=
          Vector3.mk
            (Vector3.x rot + Vector3.x (Photo.angularVelocity photo))
            (Vector3.y rot + Vector3.y (Photo.angularVelocity photo))
            (Vector3.z rot + Vector3.z (Photo.angularVelocity photo)) in
        (vel, rot) in
    let vel := Vector3.mk (Vector3.x vel * Tree.CONFIG.physics.damping)
                          (Vector3.y vel * Tree.CONFIG.physics.damping)
                          (Vector3.z vel * Tree.CONFIG.physics.damping) in
    let vel := capSpeed 0.08 vel in
    Photo.mk (Photo.index photo)
             (Vector3.mk (Vector3.x pos + Vector3.x vel)
                         (Vector3.y pos + Vector3.y vel)
                         (Vector3.z pos + Vector3.z vel))
             rot vel (Photo.angularVelocity photo) phase target.

Definition updatePhotoPhysics (time : R) (s : Tree.State)
    (photoFrames : list Photo.t) : list Photo.t :=
  map (updatePhoto time (Tree.expandedPhoto s) (Tree.isExploded s))
      photoFrames.

(** The part of [animate] about the star on top of the tree. *)
Definition animateTreeStar (time : R) (isExploded : bool)
    (treeStar : TreeStar.t) : TreeStar.t :=
  let breathe := 1 + 0.15 * sin (time * 2) in
  let scale := Vector3.mk (0.8 * breathe) (0.8 * breathe) 1 in
  if isExploded then
    let vel := TreeStar.velocity treeStar in
    let vel := Vector3.mk (Vector3.x vel)
                          (Vector3.y vel + Tree.CONFIG.physics.gravity)
                          (Vector3.z vel) in
    let pos := TreeStar.position treeStar in
    TreeStar.mk (Vector3.mk (Vector3.x pos) (Vector3.y pos + Vector3.y vel)
                            (Vector3.z pos))
                scale vel
  else TreeStar.mk (TreeStar.position treeStar) scale
                   (TreeStar.velocity treeStar).

(** What [animate] of [script.js] updates: the store and the three kinds
    of objects. *)
Module TreeScene.

Record t := mk {
    store : Tree.State;
    giftBoxes : list Gift.t;
    photoFrames : list Photo.t;
    treeStar : TreeStar.t }.

(** [animate()] up to the render call, at [time = performance.now() *
    0.001]; the shader uniforms are left out. *)
Definition animate (time : R) (scene : t) : t :=
  let s := Tree.applyGestureInertia (store scene) in
  let s := Tree.updateParticlePhysics time s in
  let photoFrames := updatePhotoPhysics time s (photoFrames scene) in
  let giftBoxes := updateGiftPhysics time s (giftBoxes scene) in
  let treeStar :=
    animateTreeStar time (Tree.isExploded s) (treeStar scene) in
  let s :=
    if Tree.autoRotate s && negb (Tree.isExploded s)
    then Tree.set_treeGroup_rotation_y (Tree.treeGroup_rotation_y s + 0.003) s
    else s in
  mk s giftBoxes photoFrames treeStar.

(** The frames rendered at the given times, in order. *)
Definition frames (times : list R) (scene : t) : t :=
  fold_left (fun scene time => animate time scene) times scene.

End TreeScene.

(** [createSphereTargets()], for [CONFIG.tree.particleCount] particles;
    iteration [i] takes draw [i] of [Math.random]. *)
Definition createSphereTargets (random : nat -> R) (particleCount : nat)
    : list Vector3.t :=
  let sphereRadius := 1.8 in
  map (fun i =>
         let phi := acos (1 - 2 * (INR i + 0.5) / INR particleCount) in
         let theta := PI * (1 + sqrt 5) * INR i in
         let r := sphereRadius * (0.85 + random i * 0.3) in
         Vector3.mk (r * sin phi * cos theta) (r * cos phi)
                    (r * sin phi * sin theta))
      (seq 0 particleCount).

(** ** The stars of the starry-night effect *)

Module ConstellationStar.
Record t := mk {
    position : Vector3.t;
    scale : Vector3.t;
    opacity : R;
    constellation : nat;
    baseSize : R;
    speed : R;
    offset : R;
    amplitude : R;
    targetPosition : Vector3.t }.
End ConstellationStar.

(** The callback of [constellationStars.forEach] in
    [updateConstellationStars]. *)
Definition updateConstellationStar (time : R) (isScattered : bool)
    (highlightedConstellation : option nat) (star : ConstellationStar.t)
    : ConstellationStar.t :=
  let twinkle :=
    sin (time * ConstellationStar.speed star + ConstellationStar.offset star)
    * 0.3 + 0.7 in
  let scale := ConstellationStar.baseSize star * 0.5 * twinkle in
  let scale := Vector3.mk scale scale 1 in
  let position :=
    if negb isScattered then
      let offset :=
        sin (time * ConstellationStar.speed star * 0.5
             + ConstellationStar.offset star)
        * ConstellationStar.amplitude star in
      Vector3.mk
        (Vector3.x (ConstellationStar.targetPosition star) + offset)
        (Vector3.y (ConstellationStar.targetPosition star)
         + cos (time * ConstellationStar.speed star * 0.3
                + ConstellationStar.offset star)
           * ConstellationStar.amplitude star)
        (Vector3.z (ConstellationStar.position star))
    else ConstellationStar.position star in
  let highlighted :=
    option_nat_eqb highlightedConstellation
                   (Some (ConstellationStar.constellation star))
    && negb (is_None highlightedConstellation) in
  ConstellationStar.mk position
    (if highlighted then Vector3.multiplyScalar 1.3 scale else scale)
    (if highlighted then 1.0 else ConstellationStar.opacity star)
    (ConstellationStar.constellation star) (ConstellationStar.baseSize star)
    (ConstellationStar.speed star) (ConstellationStar.offset star)
    (ConstellationStar.amplitude star)
    (ConstellationStar.targetPosition star).

Definition updateConstellationStars (time : R) (s : Starry.State)
    (constellationStars : list ConstellationStar.t)
    : list ConstellationStar.t :=
  map (updateConstellationStar time (Starry.isScattered s)
         (Starry.highlightedConstellation s))
      constellationStars.

(** What [animate] of the starry script updates.  The constellation lines
    are redrawn from the star positions, and the shooting stars (below) do
    not meet the rest of the scene. *)
Module SkyScene.

Record t := mk {
    store : Starry.State;
    constellationStars : list ConstellationStar.t }.

Definition animate (time : R) (scene : t) : t :=
  let s := Starry.applyGestureInertia (store scene) in
  let stars := updateConstellationStars time s (constellationStars scene) in
  let s :=
    if Starry.autoRotate s
    then Starry.set_starGroup_rotation_y
           (Starry.starGroup_rotation_y s + 0.0005) s
    else s in
  mk s stars.

Definition frames (times : list R) (scene : t) : t :=
  fold_left (fun scene time => animate time scene) times scene.

End SkyScene.

(** [a <= b] on numbers. *)
Definition leb (a b : R) : bool := negb (ltb b a).

(** A shooting star: the [positions] array of its trail as a list of
    points, its [userData] and the opacity of its material. *)
Module ShootingStar.
Record t := mk {
    positions : list Vector3.t;
    startPos : Vector3.t;
    direction : Vector3.t;
    speed : R;
    progress : R;
    life : R;
    opacity : R }.
End ShootingStar.

(** The inner loop [for (j = 29; j > 0; j--)]: every point of the trail
    takes the value of the point before it; entry 0 is left for the
    caller. *)
Fixpoint shiftTrail (j : nat) (positions : list Vector3.t)
    : list Vector3.t :=
  match j with
  | O => positions
  | S j' =>
      match nth_error positions j' with
      | Some p =>
          shiftTrail j' (firstn j positions ++ p :: skipn (S j) positions)
      | None => shiftTrail j' positions
      end
  end.

(** [data.progress += ...; data.life -= 0.02], the first two statements of
    the loop body. *)
Definition ageShootingStar (star : ShootingStar.t) : ShootingStar.t :=
  ShootingStar.mk (ShootingStar.positions star) (ShootingStar.startPos star)
    (ShootingStar.direction star) (ShootingStar.speed star)
    (ShootingStar.progress star + ShootingStar.speed star * 0.05)
    (ShootingStar.life star - 0.02) (ShootingStar.opacity star).

(** The rest of the body for a star that stays. *)
Definition moveShootingStar (star : ShootingStar.t) : ShootingStar.t :=
  let positions := shiftTrail 29 (ShootingStar.positions star) in
  let head :=
    Vector3.mk
      (Vector3.x (ShootingStar.startPos star)
       + Vector3.x (ShootingStar.direction star)
         * ShootingStar.progress star * 20)
      (Vector3.y (ShootingStar.startPos star)
       + Vector3.y (ShootingStar.direction star)
         * ShootingStar.progress star * 20)
      (Vector3.z (ShootingStar.startPos star)
       + Vector3.z (ShootingStar.direction star)
         * ShootingStar.progress star * 20) in
  ShootingStar.mk (head :: tl positions) (ShootingStar.startPos star)
    (ShootingStar.direction star) (ShootingStar.speed star)
    (ShootingStar.progress star) (ShootingStar.life star)
    (ShootingStar.life star * 0.8).

(** [for (let i = shootingStars.length - 1; i >= 0; i--)], counted by the
    number [n = i + 1] of indices still to visit; [splice(i, 1)] removes
    entry [i].  Reading an index past the end would be the TypeError
    [None]. *)
Fixpoint shootingStarsLoop (n : nat) (shootingStars : list ShootingStar.t)
    : option (list ShootingStar.t) :=
  match n with
  | O => Some shootingStars
  | S i =>
      match nth_error shootingStars i with
      | None => None
      | Some star =>
          let star := ageShootingStar star in
          if leb (ShootingStar.life star) 0
          then shootingStarsLoop i
                 (firstn i shootingStars ++ skipn (S i) shootingStars)
          else shootingStarsLoop i
                 (firstn i shootingStars ++ moveShootingStar star
                    :: skipn (S i) shootingStars)
      end
  end.

Definition updateShootingStars (shootingStars : list ShootingStar.t)
    : option (list ShootingStar.t) :=
  shootingStarsLoop (length shootingStars) shootingStars.

(** What one pass does to one star, read as a whole. *)
Definition shootingStarStep (star : ShootingStar.t)
    : option ShootingStar.t :=
  let star := ageShootingStar star in
  if leb (ShootingStar.life star) 0 then None
  else Some (moveShootingStar star).

Fixpoint filterMap {A B} (f : A -> option B) (l : list A) : list B :=
  match l with
  | nil => nil
  | a :: l' =>
      match f a with
      | Some b => b :: filterMap f l'
      | None => filterMap f l'
      end
  end.

(** ** Further vocabulary for the properties below *)

(** The store a callback leaves, returned or thrown. *)
Definition storeOf {S : Type} (o : Outcome S) : S :=
  match o with Ok s => s | TypeError s => s end.

(** Moving, mirroring, flipping and scaling a frame in the image plane. *)
Definition translate (dx dy : R) (lm : LandmarkFrame) : LandmarkFrame :=
  map (fun p => Landmark.mk (Landmark.x p + dx) (Landmark.y p + dy)
                            (Landmark.z p)) lm.

Definition mirror (lm : LandmarkFrame) : LandmarkFrame :=
  map (fun p => Landmark.mk (1 - Landmark.x p) (Landmark.y p)
                            (Landmark.z p)) lm.

Definition flip (lm : LandmarkFrame) : LandmarkFrame :=
  map (fun p => Landmark.mk (Landmark.x p) (1 - Landmark.y p)
                            (Landmark.z p)) lm.

Definition scale (k : R) (lm : LandmarkFrame) : LandmarkFrame :=
  map (fun p => Landmark.mk (k * Landmark.x p) (k * Landmark.y p)
                            (Landmark.z p)) lm.

(** Normalized coordinates. *)
Definition inUnitSquare (x y : R) : Prop := 0 <= x <= 1 /\ 0 <= y <= 1.

Definition frameInUnitSquare (lm : LandmarkFrame) : Prop :=
  Forall (fun p => inUnitSquare (Landmark.x p) (Landmark.y p)) lm.















(** The move from one position to another. *)
Definition displacement (from to : Vector3.t) : Vector3.t :=
  Vector3.mk (Vector3.x to - Vector3.x from) (Vector3.y to - Vector3.y from)
             (Vector3.z to - Vector3.z from).

(** Successive particle updates of one particle while the tree is
    exploded, one per animation frame, each with its time and the sphere
    flag of that frame. *)
Definition explodedFrames (frames : list (R * bool)) (p : Tree.Particle)
    : Tree.Particle :=
  fold_left (fun q f => Tree.updateParticle (fst f) (snd f) true q) frames p.

(** A sample particle. *)
Definition restingParticle : Tree.Particle :=
  Tree.mkParticle (Vector3.mk 0 0 0) (Vector3.mk 0 0 0) (Vector3.mk 1 2 0)
    (Vector3.mk 0 1.8 0) (Tree.mkPhase 0 0.3 0.2 0.3 0.003 0.002 0.003).

(** Only the index finger up, the thumb tip 0.5 away from its tip. *)
Definition pointFrame : LandmarkFrame :=
  frameOf (fun i =>
    if Nat.eqb i 4 then Landmark.mk 0.1 0.5 0
    else if Nat.eqb i 8 then Landmark.mk 0.5 0.2 0
    else if Nat.eqb i 12 || Nat.eqb i 16 || Nat.eqb i 20
         then Landmark.mk 0.5 0.8 0
    else Landmark.mk 0.5 0.6 0).

(** A browser whose ray cast hits the given photo at the given time. *)
Definition hovering (photo : nat) (time : R) : Tree.Env :=
  Tree.mkEnv (Some photo) time (fun _ => 0.5).

(** ** Sample scenes *)

Definition sampleTreeStar : TreeStar.t :=
  TreeStar.mk (Vector3.mk 0 2.3 0) (Vector3.mk 0.8 0.8 1) (Vector3.mk 0 0.07 0).

Definition idleScene : TreeScene.t :=
  TreeScene.mk (Tree.initial []) [] [] sampleTreeStar.

Definition explodedScene : TreeScene.t :=
  TreeScene.mk (Tree.set_isExploded true (Tree.initial [])) [] []
               sampleTreeStar.

Definition sampleConstellationStar : ConstellationStar.t :=
  ConstellationStar.mk (Vector3.mk 7 7 7) (Vector3.mk 1 1 1) 0.9 2 1.5
                       1 0.5 0.004 (Vector3.mk 1 2 3).

Definition idleSky : SkyScene.t :=
  SkyScene.mk (Starry.initial [Vector3.mk 0 0 0]) [sampleConstellationStar].

Definition sampleShootingStar : ShootingStar.t :=
  ShootingStar.mk (repeat (Vector3.mk 1 12 0) 30) (Vector3.mk 1 12 0)
                  (Vector3.mk 0 (-1) 0) 0.6 0 1 0.8.

(** ** Basic facts about the number model *)

Lemma ltb_true (a b : R) : ltb a b = true <-> a < b.
Proof.
  unfold ltb. destruct (Rlt_dec a b); split; intros; try easy.
Qed.

Lemma ltb_false (a b : R) : ltb a b = false <-> b <= a.
Proof.
  unfold ltb. destruct (Rlt_dec a b); split; intros; try easy; lra.
Qed.

Lemma gtb_true (a b : R) : gtb a b = true <-> a > b.
Proof. unfold gtb. rewrite ltb_true. lra. Qed.

Lemma gtb_false (a b : R) : gtb a b = false <-> a <= b.
Proof. unfold gtb. rewrite ltb_false. lra. Qed.

Lemma sqrt_lt_bound (q b : R) : 0 <= q -> 0 < b -> q < b * b -> sqrt q < b.
Proof.
  intros Hq Hb Hlt.
  rewrite <- (sqrt_square b) by lra.
  apply sqrt_lt_1; nra.
Qed.

Lemma hypot_axis (a : R) : 0 <= a -> hypot a 0 = a.
Proof.
  intros Ha. unfold hypot.
  replace (a * a + 0 * 0) with (a * a) by ring.
  now apply sqrt_square.
Qed.

Lemma at_in_range (lm : LandmarkFrame) (i : nat) :
  (i < length lm)%nat -> exists p, at_ lm i = Some p.
Proof.
  intros Hi. unfold at_.
  destruct (nth_error lm i) eqn:E; [now eexists|].
  apply nth_error_None in E. lia.
Qed.

Lemma at_out_of_range (lm : LandmarkFrame) (i : nat) :
  (length lm <= i)%nat -> at_ lm i = None.
Proof. intros Hi. now apply nth_error_None. Qed.

(** ** The classifier *)

Lemma isExtended_in_range (lm : LandmarkFrame) (tipId pipId : nat) :
  (tipId < length lm)%nat -> (pipId < length lm)%nat ->
  exists b, isExtended lm tipId pipId = Some b.
Proof.
  intros Ht Hp. unfold isExtended.
  destruct (at_in_range lm tipId Ht) as [t ->].
  destruct (at_in_range lm pipId Hp) as [q ->].
  simpl. now eexists.
Qed.

Lemma recognizeGesture_total (lm : LandmarkFrame) :
  (21 <= length lm)%nat -> exists g, recognizeGesture lm = Some g.
Proof.
  intros Hlen. unfold recognizeGesture.
  destruct (isExtended_in_range lm 8 6) as [b1 ->]; try lia.
  destruct (isExtended_in_range lm 12 10) as [b2 ->]; try lia.
  destruct (isExtended_in_range lm 16 14) as [b3 ->]; try lia.
  destruct (isExtended_in_range lm 20 18) as [b4 ->]; try lia.
  destruct (at_in_range lm 8) as [i ->]; try lia.
  destruct (at_in_range lm 4) as [t ->]; try lia.
  simpl.
  repeat match goal with
         | |- context [if ?c then _ else _] => destruct c
         end; now eexists.
Qed.

Lemma recognizeGesture_needs_21 (lm : LandmarkFrame) :
  (length lm < 21)%nat -> recognizeGesture lm = None.
Proof.
  intros Hlen. unfold recognizeGesture.
  assert (H20 : isExtended lm 20 18 = None).
  { unfold isExtended. rewrite (at_out_of_range lm 20) by lia. reflexivity. }
  rewrite H20.
  destruct (isExtended lm 8 6); simpl; [|reflexivity].
  destruct (isExtended lm 12 10); simpl; [|reflexivity].
  destruct (isExtended lm 16 14); simpl; reflexivity.
Qed.

Lemma at_xy (lm1 lm2 : LandmarkFrame) (i : nat) :
  map xy lm1 = map xy lm2 ->
  option_map xy (at_ lm1 i) = option_map xy (at_ lm2 i).
Proof.
  intros H. unfold at_.
  rewrite <- !nth_error_map. now rewrite H.
Qed.

Lemma isExtended_xy (lm1 lm2 : LandmarkFrame) (tipId pipId : nat) :
  map xy lm1 = map xy lm2 ->
  isExtended lm1 tipId pipId = isExtended lm2 tipId pipId.
Proof.
  intros H. unfold isExtended.
  pose proof (at_xy lm1 lm2 tipId H) as Ht.
  pose proof (at_xy lm1 lm2 pipId H) as Hp.
  destruct (at_ lm1 tipId) as [t1|], (at_ lm2 tipId) as [t2|];
    cbn [option_map bind] in *; try discriminate; [|reflexivity].
  destruct (at_ lm1 pipId) as [p1|], (at_ lm2 pipId) as [p2|];
    cbn [option_map bind] in *; try discriminate; [|reflexivity].
  unfold xy in *. now inversion Ht; inversion Hp.
Qed.

Lemma recognizeGesture_xy (lm1 lm2 : LandmarkFrame) :
  map xy lm1 = map xy lm2 -> recognizeGesture lm1 = recognizeGesture lm2.
Proof.
  intros H. unfold recognizeGesture.
  rewrite (isExtended_xy lm1 lm2 8 6 H), (isExtended_xy lm1 lm2 12 10 H),
    (isExtended_xy lm1 lm2 16 14 H), (isExtended_xy lm1 lm2 20 18 H).
  destruct (isExtended lm2 8 6); [|reflexivity].
  destruct (isExtended lm2 12 10); [|reflexivity].
  destruct (isExtended lm2 16 14); [|reflexivity].
  destruct (isExtended lm2 20 18); [|reflexivity].
  cbn [bind].
  pose proof (at_xy lm1 lm2 8 H) as H8.
  pose proof (at_xy lm1 lm2 4 H) as H4.
  destruct (at_ lm1 8) as [i1|], (at_ lm2 8) as [i2|];
    cbn [option_map bind] in *; try discriminate; [|reflexivity].
  destruct (at_ lm1 4) as [t1|], (at_ lm2 4) as [t2|];
    cbn [option_map bind] in *; try discriminate; [|reflexivity].
  unfold xy in *. inversion H8; inversion H4. reflexivity.
Qed.

(** C1.  In every 21-point frame whose index tip (landmark 8) is closer
    than 0.06 to the thumb tip (landmark 4), the classifier answers PINCH,
    whatever the other fingers do. *)
Theorem pinch_has_priority (lm : LandmarkFrame)
    (thumbTip indexTip : Landmark.t) :
  length lm = 21%nat ->
  at_ lm 4 = Some thumbTip ->
  at_ lm 8 = Some indexTip ->
  hypot (Landmark.x indexTip - Landmark.x thumbTip)
        (Landmark.y indexTip - Landmark.y thumbTip) < 0.06 ->
  recognizeGesture lm = Some PINCH.
Proof.
  intros Hlen H4 H8 Hd. unfold recognizeGesture.
  destruct (isExtended_in_range lm 8 6) as [b1 ->]; try lia.
  destruct (isExtended_in_range lm 12 10) as [b2 ->]; try lia.
  destruct (isExtended_in_range lm 16 14) as [b3 ->]; try lia.
  destruct (isExtended_in_range lm 20 18) as [b4 ->]; try lia.
  rewrite H8, H4. cbn [bind].
  apply ltb_true in Hd. now rewrite Hd.
Qed.

Lemma pinch_has_priority_witness : recognizeGesture pinchFrame = Some PINCH.
Proof.
  apply (pinch_has_priority pinchFrame
           (Landmark.mk 0.5 0.5 0) (Landmark.mk 0.505 0.505 0));
    [reflexivity | reflexivity | reflexivity |].
  cbn [Landmark.x Landmark.y]. unfold hypot.
  apply sqrt_lt_bound; nra.
Defined.

(** C10.  Two 21-point frames that agree on the x and y of every landmark
    get the same label, whatever their depths. *)
Theorem classifier_ignores_depth (lm1 lm2 : LandmarkFrame) :
  length lm1 = 21%nat ->
  map xy lm1 = map xy lm2 ->
  exists g, recognizeGesture lm1 = Some g /\ recognizeGesture lm2 = Some g.
Proof.
  intros Hlen Hxy.
  destruct (recognizeGesture_total lm1) as [g Hg]; [lia|].
  exists g. split; [exact Hg|].
  now rewrite <- (recognizeGesture_xy lm1 lm2 Hxy).
Qed.

Lemma classifier_ignores_depth_witness :
  exists g, recognizeGesture pinchFrame = Some g
            /\ recognizeGesture pinchFrameDeep = Some g.
Proof.
  apply (classifier_ignores_depth pinchFrame pinchFrameDeep);
    reflexivity.
Defined.

(** ** The particle integrator *)

Lemma length_multiplyScalar (k : R) (v : Vector3.t) :
  0 <= k -> Vector3.length (Vector3.multiplyScalar k v) = k * Vector3.length v.
Proof.
  intros Hk. unfold Vector3.length, Vector3.multiplyScalar.
  cbn [Vector3.x Vector3.y Vector3.z].
  set (q := Vector3.x v * Vector3.x v + Vector3.y v * Vector3.y v
            + Vector3.z v * Vector3.z v).
  assert (Hq : 0 <= q) by (unfold q; nra).
  replace (Vector3.x v * k * (Vector3.x v * k)
           + Vector3.y v * k * (Vector3.y v * k)
           + Vector3.z v * k * (Vector3.z v * k)) with (k * k * q)
    by (unfold q; ring).
  rewrite sqrt_mult by nra.
  now rewrite sqrt_square.
Qed.

Lemma capped_speed (m : R) (v : Vector3.t) :
  0 <= m ->
  Vector3.length
    (if gtb (Vector3.length v) m
     then Vector3.multiplyScalar (m / Vector3.length v) v else v) <= m.
Proof.
  intros Hm. destruct (gtb (Vector3.length v) m) eqn:E.
  - apply gtb_true in E.
    assert (Hpos : 0 < Vector3.length v) by lra.
    rewrite length_multiplyScalar.
    + right. field. lra.
    + apply Rmult_le_pos; [lra|].
      apply Rlt_le, Rinv_0_lt_compat. lra.
  - now apply gtb_false in E.
Qed.

Lemma updateParticle_speed (time : R) (isFistShape isExploded : bool)
    (p : Tree.Particle) :
  Vector3.length
    (Tree.velocity (Tree.updateParticle time isFistShape isExploded p))
  <= Tree.CONFIG.physics.maxSpeed.
Proof.
  unfold Tree.updateParticle. cbv zeta. cbn [Tree.velocity].
  apply capped_speed. unfold Tree.CONFIG.physics.maxSpeed. lra.
Qed.

(** C4.  After a frame of the particle update, in formation, sphere or
    exploded mode and from any velocities, no particle is faster than
    [maxSpeed], which is 0.015. *)
Theorem speed_cap_invariant (time : R) (s : Tree.State) :
  Tree.CONFIG.physics.maxSpeed = 0.015
  /\ Forall (fun p => Vector3.length (Tree.velocity p)
                      <= Tree.CONFIG.physics.maxSpeed)
            (Tree.particles (Tree.updateParticlePhysics time s)).
Proof.
  split; [reflexivity|].
  unfold Tree.updateParticlePhysics. cbn [Tree.particles Tree.set_particles].
  apply Forall_map, Forall_forall. intros p _.
  apply updateParticle_speed.
Qed.

Lemma Forall2_map_self {A B} (P : A -> B -> Prop) (f : A -> B) (l : list A) :
  (forall a, P a (f a)) -> Forall2 P l (map f l).
Proof. intros H. induction l; cbn; constructor; auto. Qed.

(** The exploded branch of the loop body. *)
Lemma updateParticle_exploded (time : R) (isFistShape : bool)
    (p : Tree.Particle) :
  let p' := Tree.updateParticle time isFistShape true p in
  (Tree.position p', Tree.velocity p')
  = explodedStep (Tree.position p) (Tree.velocity p)
  /\ Tree.target p' = Tree.target p
  /\ Tree.sphereTarget p' = Tree.sphereTarget p
  /\ Tree.phase p' = Tree.phase p.
Proof.
  cbv zeta. split; [|now destruct isFistShape].
  unfold Tree.updateParticle, explodedStep, Vector3.multiplyScalar.
  cbn [negb Vector3.x Vector3.y Vector3.z Tree.position Tree.velocity].
  reflexivity.
Qed.

(** C5.  While the tree is exploded, the per-frame particle update does
    the exploded step to every particle: gravity (a negative constant)
    added to the vertical velocity, damping, the speed cap and the move;
    no spring force and no turbulence, so neither target, the phase, the
    time nor the sphere flag enters the result.  The update keeps the
    number of particles, their targets and phases, and the exploded
    flag. *)
Theorem exploded_particle_step (time : R) (s : Tree.State) :
  Tree.isExploded s = true ->
  let s' := Tree.updateParticlePhysics time s in
  Tree.CONFIG.physics.gravity < 0
  /\ Tree.isExploded s' = true
  /\ Forall2 (fun p p' =>
                (Tree.position p', Tree.velocity p')
                = explodedStep (Tree.position p) (Tree.velocity p)
                /\ Tree.target p' = Tree.target p
                /\ Tree.sphereTarget p' = Tree.sphereTarget p
                /\ Tree.phase p' = Tree.phase p)
             (Tree.particles s) (Tree.particles s').
Proof.
  intros He. cbv zeta.
  split; [unfold Tree.CONFIG.physics.gravity; lra|].
  unfold Tree.updateParticlePhysics.
  cbn [Tree.isExploded Tree.particles Tree.set_particles].
  split; [exact He|]. rewrite He.
  apply Forall2_map_self. intros p.
  apply (updateParticle_exploded time (Tree.isFistShape s) p).
Qed.

Lemma exploded_particle_step_witness :
  let s := Tree.set_isFistShape true
             (Tree.set_isExploded true (Tree.initial [restingParticle])) in
  let s' := Tree.updateParticlePhysics 7 s in
  Tree.CONFIG.physics.gravity < 0
  /\ Tree.isExploded s' = true
  /\ Forall2 (fun p p' =>
                (Tree.position p', Tree.velocity p')
                = explodedStep (Tree.position p) (Tree.velocity p)
                /\ Tree.target p' = Tree.target p
                /\ Tree.sphereTarget p' = Tree.sphereTarget p
                /\ Tree.phase p' = Tree.phase p)
             (Tree.particles s) (Tree.particles s').
Proof.
  exact (exploded_particle_step 7
           (Tree.set_isFistShape true
              (Tree.set_isExploded true (Tree.initial [restingParticle])))
           eq_refl).
Defined.

(** ** Inertia *)

Ltac split_tests :=
  repeat match goal with
         | |- context [gtb ?a ?b] => destruct (gtb a b) eqn:?
         end.

Ltac tests_to_orders :=
  repeat match goal with
         | H : gtb _ _ = true |- _ => apply gtb_true in H
         | H : gtb _ _ = false |- _ => apply gtb_false in H
         end.

Lemma Rabs_decay (v c : R) (j : nat) :
  0 < c -> Rabs (v * c) * c ^ j = Rabs v * c ^ S j.
Proof.
  intros Hc. rewrite Rabs_mult, (Rabs_pos_eq c) by lra. simpl. ring.
Qed.

Lemma tree_inertia_off (s : Tree.State) :
  treeInertiaEnabled s = false -> Tree.applyGestureInertia s = s.
Proof.
  unfold treeInertiaEnabled, Tree.applyGestureInertia. now intros ->.
Qed.

Lemma tree_inertia_enabled (s : Tree.State) :
  treeInertiaEnabled (Tree.applyGestureInertia s) = treeInertiaEnabled s.
Proof.
  destruct (treeInertiaEnabled s) eqn:E; [|now rewrite tree_inertia_off].
  unfold treeInertiaEnabled in *. unfold Tree.applyGestureInertia.
  rewrite E. cbv zeta.
  split_tests; cbn in *; split_tests; cbn; exact E.
Qed.

Lemma tree_inertia_rotation_moving (s : Tree.State) :
  let v := Tree.gestureVelocity s in
  let s' := Tree.applyGestureInertia s in
  treeInertiaEnabled s = true ->
  Rabs (GestureVelocity.rotX v) > 0.0001
  \/ Rabs (GestureVelocity.rotY v) > 0.0001 ->
  GestureVelocity.rotX (Tree.gestureVelocity s')
  = GestureVelocity.rotX v * 0.95
  /\ GestureVelocity.rotY (Tree.gestureVelocity s')
     = GestureVelocity.rotY v * 0.95
  /\ Tree.treeGroup_rotation_x s'
     = clamp (-0.5) 0.5 (Tree.treeGroup_rotation_x s + GestureVelocity.rotX v)
  /\ Tree.treeGroup_rotation_y s'
     = Tree.treeGroup_rotation_y s + GestureVelocity.rotY v.
Proof.
  cbv zeta. unfold treeInertiaEnabled, Tree.applyGestureInertia.
  intros -> Hmove. cbv zeta.
  destruct (gtb (Rabs (GestureVelocity.rotX (Tree.gestureVelocity s))) 0.0001)
    eqn:Ex;
  destruct (gtb (Rabs (GestureVelocity.rotY (Tree.gestureVelocity s))) 0.0001)
    eqn:Ey;
    cbn in *; split_tests; cbn; tests_to_orders;
    try (repeat split; reflexivity);
    destruct Hmove; lra.
Qed.

Lemma tree_inertia_rotation_rest (s : Tree.State) :
  let v := Tree.gestureVelocity s in
  let s' := Tree.applyGestureInertia s in
  Rabs (GestureVelocity.rotX v) <= 0.0001 ->
  Rabs (GestureVelocity.rotY v) <= 0.0001 ->
  GestureVelocity.rotX (Tree.gestureVelocity s') = GestureVelocity.rotX v
  /\ GestureVelocity.rotY (Tree.gestureVelocity s') = GestureVelocity.rotY v
  /\ Tree.treeGroup_rotation_x s' = Tree.treeGroup_rotation_x s
  /\ Tree.treeGroup_rotation_y s' = Tree.treeGroup_rotation_y s.
Proof.
  cbv zeta. unfold Tree.applyGestureInertia. intros Hx Hy.
  apply gtb_false in Hx, Hy. rewrite Hx, Hy. cbv zeta.
  destruct (negb (Tree.isGestureActive s) && is_None (Tree.expandedPhoto s)
            && negb (Tree.isExploded s)); [|now repeat split].
  cbn. split_tests; cbn; now repeat split.
Qed.

Lemma tree_inertia_zoom_moving (s : Tree.State) :
  let v := Tree.gestureVelocity s in
  let s' := Tree.applyGestureInertia s in
  treeInertiaEnabled s = true ->
  Rabs (GestureVelocity.zoom v) > 0.001 ->
  GestureVelocity.zoom (Tree.gestureVelocity s') = GestureVelocity.zoom v * 0.92
  /\ Tree.camera_position_z s'
     = clamp Tree.CONFIG.camera.minZ Tree.CONFIG.camera.maxZ
             (Tree.camera_position_z s + GestureVelocity.zoom v).
Proof.
  cbv zeta. unfold treeInertiaEnabled, Tree.applyGestureInertia.
  intros -> Hz. apply gtb_true in Hz. cbv zeta.
  destruct (gtb (Rabs (GestureVelocity.rotX (Tree.gestureVelocity s))) 0.0001
            || gtb (Rabs (GestureVelocity.rotY (Tree.gestureVelocity s)))
                 0.0001);
    cbn; rewrite Hz; cbn; now split.
Qed.

Lemma tree_inertia_zoom_rest (s : Tree.State) :
  let v := Tree.gestureVelocity s in
  let s' := Tree.applyGestureInertia s in
  Rabs (GestureVelocity.zoom v) <= 0.001 ->
  GestureVelocity.zoom (Tree.gestureVelocity s') = GestureVelocity.zoom v
  /\ Tree.camera_position_z s' = Tree.camera_position_z s.
Proof.
  cbv zeta. unfold Tree.applyGestureInertia. intros Hz.
  apply gtb_false in Hz. cbv zeta.
  destruct (negb (Tree.isGestureActive s) && is_None (Tree.expandedPhoto s)
            && negb (Tree.isExploded s)); [|now split].
  destruct (gtb (Rabs (GestureVelocity.rotX (Tree.gestureVelocity s))) 0.0001
            || gtb (Rabs (GestureVelocity.rotY (Tree.gestureVelocity s)))
                 0.0001);
    cbn; rewrite Hz; cbn; now split.
Qed.

Lemma sky_inertia_off (s : Starry.State) :
  Starry.isGestureActive s = true -> Starry.applyGestureInertia s = s.
Proof. unfold Starry.applyGestureInertia. now intros ->. Qed.

Lemma sky_inertia_enabled (s : Starry.State) :
  Starry.isGestureActive (Starry.applyGestureInertia s)
  = Starry.isGestureActive s.
Proof.
  destruct (Starry.isGestureActive s) eqn:E; [now rewrite sky_inertia_off|].
  unfold Starry.applyGestureInertia. rewrite E. cbv zeta.
  split_tests; cbn in *; split_tests; cbn; exact E.
Qed.

Lemma sky_inertia_rotation_moving (s : Starry.State) :
  let v := Starry.gestureVelocity s in
  let s' := Starry.applyGestureInertia s in
  Starry.isGestureActive s = false ->
  Rabs (GestureVelocity.rotX v) > 0.0001
  \/ Rabs (GestureVelocity.rotY v) > 0.0001 ->
  GestureVelocity.rotX (Starry.gestureVelocity s')
  = GestureVelocity.rotX v * 0.95
  /\ GestureVelocity.rotY (Starry.gestureVelocity s')
     = GestureVelocity.rotY v * 0.95
  /\ Starry.starGroup_rotation_x s'
     = clamp (-0.8) 0.8
             (Starry.starGroup_rotation_x s + GestureVelocity.rotX v)
  /\ Starry.starGroup_rotation_y s'
     = Starry.starGroup_rotation_y s + GestureVelocity.rotY v.
Proof.
  cbv zeta. unfold Starry.applyGestureInertia.
  intros -> Hmove. cbv zeta.
  destruct (gtb (Rabs (GestureVelocity.rotX (Starry.gestureVelocity s)))
                0.0001) eqn:Ex;
  destruct (gtb (Rabs (GestureVelocity.rotY (Starry.gestureVelocity s)))
                0.0001) eqn:Ey;
    cbn in *; split_tests; cbn; tests_to_orders;
    try (repeat split; reflexivity);
    destruct Hmove; lra.
Qed.

Lemma sky_inertia_rotation_rest (s : Starry.State) :
  let v := Starry.gestureVelocity s in
  let s' := Starry.applyGestureInertia s in
  Rabs (GestureVelocity.rotX v) <= 0.0001 ->
  Rabs (GestureVelocity.rotY v) <= 0.0001 ->
  GestureVelocity.rotX (Starry.gestureVelocity s') = GestureVelocity.rotX v
  /\ GestureVelocity.rotY (Starry.gestureVelocity s') = GestureVelocity.rotY v
  /\ Starry.starGroup_rotation_x s' = Starry.starGroup_rotation_x s
  /\ Starry.starGroup_rotation_y s' = Starry.starGroup_rotation_y s.
Proof.
  cbv zeta. unfold Starry.applyGestureInertia. intros Hx Hy.
  apply gtb_false in Hx, Hy. rewrite Hx, Hy. cbv zeta.
  destruct (negb (Starry.isGestureActive s)); [|now repeat split].
  cbn. split_tests; cbn; now repeat split.
Qed.

Lemma sky_inertia_zoom_moving (s : Starry.State) :
  let v := Starry.gestureVelocity s in
  let s' := Starry.applyGestureInertia s in
  Starry.isGestureActive s = false ->
  Rabs (GestureVelocity.zoom v) > 0.001 ->
  GestureVelocity.zoom (Starry.gestureVelocity s')
  = GestureVelocity.zoom v * 0.92
  /\ Starry.camera_position_z s'
     = clamp Starry.CONFIG.camera.minZ Starry.CONFIG.camera.maxZ
             (Starry.camera_position_z s + GestureVelocity.zoom v).
Proof.
  cbv zeta. unfold Starry.applyGestureInertia.
  intros -> Hz. apply gtb_true in Hz. cbv zeta.
  destruct (gtb (Rabs (GestureVelocity.rotX (Starry.gestureVelocity s)))
                0.0001
            || gtb (Rabs (GestureVelocity.rotY (Starry.gestureVelocity s)))
                 0.0001);
    cbn; rewrite Hz; cbn; now split.
Qed.

Lemma sky_inertia_zoom_rest (s : Starry.State) :
  let v := Starry.gestureVelocity s in
  let s' := Starry.applyGestureInertia s in
  Rabs (GestureVelocity.zoom v) <= 0.001 ->
  GestureVelocity.zoom (Starry.gestureVelocity s') = GestureVelocity.zoom v
  /\ Starry.camera_position_z s' = Starry.camera_position_z s.
Proof.
  cbv zeta. unfold Starry.applyGestureInertia. intros Hz.
  apply gtb_false in Hz. cbv zeta.
  destruct (negb (Starry.isGestureActive s)); [|now split].
  destruct (gtb (Rabs (GestureVelocity.rotX (Starry.gestureVelocity s)))
                0.0001
            || gtb (Rabs (GestureVelocity.rotY (Starry.gestureVelocity s)))
                 0.0001);
    cbn; rewrite Hz; cbn; now split.
Qed.

(** *** Runs of frames

    The four facts about [k] frames are proved once, for any per-frame
    function that has the single-frame behaviour shown above. *)

Section Coasting.

Variable St : Type.
Variable frame : St -> St.
Variable enabled : St -> Prop.
Variables rotX rotY zoom rotationX rotationY cameraZ : St -> R.

Hypothesis enabled_kept : forall s, enabled s -> enabled (frame s).
Hypothesis rotation_moving : forall s,
  enabled s -> Rabs (rotX s) > 0.0001 \/ Rabs (rotY s) > 0.0001 ->
  rotX (frame s) = rotX s * 0.95 /\ rotY (frame s) = rotY s * 0.95.
Hypothesis rotation_rest : forall s,
  Rabs (rotX s) <= 0.0001 -> Rabs (rotY s) <= 0.0001 ->
  rotX (frame s) = rotX s /\ rotY (frame s) = rotY s
  /\ rotationX (frame s) = rotationX s /\ rotationY (frame s) = rotationY s.
Hypothesis zoom_moving : forall s,
  enabled s -> Rabs (zoom s) > 0.001 -> zoom (frame s) = zoom s * 0.92.
Hypothesis zoom_rest : forall s,
  Rabs (zoom s) <= 0.001 ->
  zoom (frame s) = zoom s /\ cameraZ (frame s) = cameraZ s.

Lemma enabled_run (k : nat) (s : St) : enabled s -> enabled (iterate frame k s).
Proof. revert s. induction k; intros s H; simpl; auto. Qed.

Lemma rotation_decay_run (k : nat) (s : St) :
  enabled s ->
  (forall j, (j < k)%nat ->
     Rabs (rotX s) * 0.95 ^ j > 0.0001 \/ Rabs (rotY s) * 0.95 ^ j > 0.0001) ->
  rotX (iterate frame k s) = rotX s * 0.95 ^ k
  /\ rotY (iterate frame k s) = rotY s * 0.95 ^ k.
Proof.
  revert s. induction k as [|k IH]; intros s Hen Habove.
  - simpl. split; ring.
  - assert (Hnow : Rabs (rotX s) > 0.0001 \/ Rabs (rotY s) > 0.0001).
    { destruct (Habove 0%nat) as [H|H]; [lia| |]; simpl in H;
        [left|right]; lra. }
    destruct (rotation_moving s Hen Hnow) as [Hx Hy].
    simpl iterate. destruct (IH (frame s)) as [Hx' Hy'].
    + now apply enabled_kept.
    + intros j Hj. rewrite Hx, Hy, !Rabs_decay by lra.
      apply Habove. lia.
    + rewrite Hx', Hy', Hx, Hy. simpl. split; ring.
Qed.

Lemma zoom_decay_run (k : nat) (s : St) :
  enabled s ->
  (forall j, (j < k)%nat -> Rabs (zoom s) * 0.92 ^ j > 0.001) ->
  zoom (iterate frame k s) = zoom s * 0.92 ^ k.
Proof.
  revert s. induction k as [|k IH]; intros s Hen Habove.
  - simpl. ring.
  - assert (Hnow : Rabs (zoom s) > 0.001).
    { assert (H0 : (0 < S k)%nat) by lia.
      specialize (Habove 0%nat H0). simpl in Habove. lra. }
    pose proof (zoom_moving s Hen Hnow) as Hz.
    simpl iterate. rewrite IH.
    + rewrite Hz. simpl. ring.
    + now apply enabled_kept.
    + intros j Hj. rewrite Hz, Rabs_decay by lra. apply Habove. lia.
Qed.

Lemma rotation_rest_run (k : nat) (s : St) :
  Rabs (rotX s) <= 0.0001 -> Rabs (rotY s) <= 0.0001 ->
  rotX (iterate frame k s) = rotX s /\ rotY (iterate frame k s) = rotY s
  /\ rotationX (iterate frame k s) = rotationX s
  /\ rotationY (iterate frame k s) = rotationY s.
Proof.
  revert s. induction k as [|k IH]; intros s Hx Hy; [now simpl|].
  destruct (rotation_rest s Hx Hy) as (Ex & Ey & Erx & Ery).
  simpl iterate.
  destruct (IH (frame s)) as (Ex' & Ey' & Erx' & Ery');
    [now rewrite Ex | now rewrite Ey |].
  repeat split; congruence.
Qed.

Lemma zoom_rest_run (k : nat) (s : St) :
  Rabs (zoom s) <= 0.001 ->
  zoom (iterate frame k s) = zoom s
  /\ cameraZ (iterate frame k s) = cameraZ s.
Proof.
  revert s. induction k as [|k IH]; intros s Hz; [now simpl|].
  destruct (zoom_rest s Hz) as (Ez & Ec).
  simpl iterate.
  destruct (IH (frame s)) as (Ez' & Ec'); [now rewrite Ez|].
  split; congruence.
Qed.

End Coasting.

(** C3, as the code has it.  While the integrator runs (no gesture active
    and, in the tree effect, no photo expanded and the tree not exploded),
    [k] frames in each of which |rotX| or |rotY| is above 0.0001 multiply
    both rotation velocities by 0.95^k, and [k] frames in each of which
    |zoom| is above 0.001 multiply the zoom velocity by 0.92^k.  Once
    |rotX| and |rotY| are both at most 0.0001, no later frame changes them
    or the rotation; once |zoom| is at most 0.001, no later frame changes
    it or the camera distance. *)
Theorem inertia_decay (k : nat) :
  (forall s : Tree.State,
     let s' := iterate Tree.applyGestureInertia k s in
     Tree.isGestureActive s = false ->
     Tree.expandedPhoto s = None ->
     Tree.isExploded s = false ->
     ((forall j, (j < k)%nat ->
         Rabs (treeRotX s) * 0.95 ^ j > 0.0001
         \/ Rabs (treeRotY s) * 0.95 ^ j > 0.0001) ->
      treeRotX s' = treeRotX s * 0.95 ^ k
      /\ treeRotY s' = treeRotY s * 0.95 ^ k)
     /\ ((forall j, (j < k)%nat -> Rabs (treeZoom s) * 0.92 ^ j > 0.001) ->
         treeZoom s' = treeZoom s * 0.92 ^ k)
     /\ (Rabs (treeRotX s) <= 0.0001 -> Rabs (treeRotY s) <= 0.0001 ->
         treeRotX s' = treeRotX s /\ treeRotY s' = treeRotY s
         /\ Tree.treeGroup_rotation_x s' = Tree.treeGroup_rotation_x s
         /\ Tree.treeGroup_rotation_y s' = Tree.treeGroup_rotation_y s)
     /\ (Rabs (treeZoom s) <= 0.001 ->
         treeZoom s' = treeZoom s
         /\ Tree.camera_position_z s' = Tree.camera_position_z s))
  /\ (forall s : Starry.State,
        let s' := iterate Starry.applyGestureInertia k s in
        Starry.isGestureActive s = false ->
        ((forall j, (j < k)%nat ->
            Rabs (skyRotX s) * 0.95 ^ j > 0.0001
            \/ Rabs (skyRotY s) * 0.95 ^ j > 0.0001) ->
         skyRotX s' = skyRotX s * 0.95 ^ k
         /\ skyRotY s' = skyRotY s * 0.95 ^ k)
        /\ ((forall j, (j < k)%nat -> Rabs (skyZoom s) * 0.92 ^ j > 0.001) ->
            skyZoom s' = skyZoom s * 0.92 ^ k)
        /\ (Rabs (skyRotX s) <= 0.0001 -> Rabs (skyRotY s) <= 0.0001 ->
            skyRotX s' = skyRotX s /\ skyRotY s' = skyRotY s
            /\ Starry.starGroup_rotation_x s' = Starry.starGroup_rotation_x s
            /\ Starry.starGroup_rotation_y s' = Starry.starGroup_rotation_y s)
        /\ (Rabs (skyZoom s) <= 0.001 ->
            skyZoom s' = skyZoom s
            /\ Starry.camera_position_z s' = Starry.camera_position_z s)).
Proof.
  split.
  - intros s s' Ha Hp He.
    assert (Hen : treeInertiaEnabled s = true)
      by (unfold treeInertiaEnabled; now rewrite Ha, Hp, He).
    assert (Hkept : forall t, treeInertiaEnabled t = true ->
                    treeInertiaEnabled (Tree.applyGestureInertia t) = true)
      by (intros t Ht; now rewrite tree_inertia_enabled).
    split; [|split; [|split]].
    + intros Habove.
      apply (rotation_decay_run Tree.State Tree.applyGestureInertia
               (fun t => treeInertiaEnabled t = true) treeRotX treeRotY);
        auto.
      intros t Ht Hm.
      destruct (tree_inertia_rotation_moving t Ht Hm) as (Hx & Hy & _).
      now split.
    + intros Habove.
      apply (zoom_decay_run Tree.State Tree.applyGestureInertia
               (fun t => treeInertiaEnabled t = true) treeZoom); auto.
      intros t Ht Hm. now apply tree_inertia_zoom_moving.
    + intros Hx Hy.
      apply (rotation_rest_run Tree.State Tree.applyGestureInertia
               treeRotX treeRotY Tree.treeGroup_rotation_x
               Tree.treeGroup_rotation_y); auto.
      intros t. apply tree_inertia_rotation_rest.
    + intros Hz.
      apply (zoom_rest_run Tree.State Tree.applyGestureInertia
               treeZoom Tree.camera_position_z); auto.
      intros t. apply tree_inertia_zoom_rest.
  - intros s s' Ha.
    assert (Hkept : forall t, Starry.isGestureActive t = false ->
                    Starry.isGestureActive (Starry.applyGestureInertia t)
                    = false)
      by (intros t Ht; now rewrite sky_inertia_enabled).
    split; [|split; [|split]].
    + intros Habove.
      apply (rotation_decay_run Starry.State Starry.applyGestureInertia
               (fun t => Starry.isGestureActive t = false) skyRotX skyRotY);
        auto.
      intros t Ht Hm.
      destruct (sky_inertia_rotation_moving t Ht Hm) as (Hx & Hy & _).
      now split.
    + intros Habove.
      apply (zoom_decay_run Starry.State Starry.applyGestureInertia
               (fun t => Starry.isGestureActive t = false) skyZoom); auto.
      intros t Ht Hm. now apply sky_inertia_zoom_moving.
    + intros Hx Hy.
      apply (rotation_rest_run Starry.State Starry.applyGestureInertia
               skyRotX skyRotY Starry.starGroup_rotation_x
               Starry.starGroup_rotation_y); auto.
      intros t. apply sky_inertia_rotation_rest.
    + intros Hz.
      apply (zoom_rest_run Starry.State Starry.applyGestureInertia
               skyZoom Starry.camera_position_z); auto.
      intros t. apply sky_inertia_zoom_rest.
Qed.

Ltac unfold_samples :=
  unfold treeRotX, treeRotY, treeZoom, skyRotX, skyRotY, skyZoom,
    coastingTree, coastingSky; cbn.

Ltac above_cutoff :=
  let j := fresh "j" in
  let Hj := fresh "Hj" in
  intros j Hj; destruct j as [|[|j]]; [ | | lia];
  unfold_samples; rewrite ?Rabs_pos_eq by lra; try left; lra.

Ltac at_rest := unfold_samples; rewrite ?Rabs_pos_eq by lra; lra.

Lemma inertia_decay_witness :
  (treeRotX (iterate Tree.applyGestureInertia 2 (coastingTree 0.1 0 0.5 false))
   = 0.1 * 0.95 ^ 2
   /\ treeZoom (iterate Tree.applyGestureInertia 2
                  (coastingTree 0.1 0 0.5 false))
      = 0.5 * 0.92 ^ 2)
  /\ (treeRotX (iterate Tree.applyGestureInertia 2
                  (coastingTree 0.00005 0 0.0005 false))
      = 0.00005
      /\ Tree.camera_position_z
           (iterate Tree.applyGestureInertia 2
              (coastingTree 0.00005 0 0.0005 false))
         = Tree.CONFIG.camera.initialZ)
  /\ (skyRotX (iterate Starry.applyGestureInertia 2 (coastingSky 0.1 0 0.5))
      = 0.1 * 0.95 ^ 2
      /\ skyZoom (iterate Starry.applyGestureInertia 2 (coastingSky 0.1 0 0.5))
         = 0.5 * 0.92 ^ 2)
  /\ (skyRotX (iterate Starry.applyGestureInertia 2
                 (coastingSky 0.00005 0 0.0005))
      = 0.00005
      /\ Starry.camera_position_z
           (iterate Starry.applyGestureInertia 2
              (coastingSky 0.00005 0 0.0005))
         = Starry.CONFIG.camera.initialZ).
Proof.
  destruct (inertia_decay 2) as [HT HS].
  destruct (HT (coastingTree 0.1 0 0.5 false) eq_refl eq_refl eq_refl)
    as (Hrot & Hzoom & _ & _).
  destruct (HT (coastingTree 0.00005 0 0.0005 false) eq_refl eq_refl eq_refl)
    as (_ & _ & Hrot0 & Hzoom0).
  destruct (HS (coastingSky 0.1 0 0.5) eq_refl) as (Srot & Szoom & _ & _).
  destruct (HS (coastingSky 0.00005 0 0.0005) eq_refl)
    as (_ & _ & Srot0 & Szoom0).
  repeat split.
  - apply Hrot. above_cutoff.
  - apply Hzoom. above_cutoff.
  - apply Hrot0; at_rest.
  - apply Hzoom0. at_rest.
  - apply Srot. above_cutoff.
  - apply Szoom. above_cutoff.
  - apply Srot0; at_rest.
  - apply Szoom0. at_rest.
Defined.

(** Against C3 as stated.  The decay fails in the tree effect: with no
    gesture active and a rotation velocity of 0.1, far above the
    cutoff, a frame of the integrator leaves the velocity at 0.1 when the
    tree is exploded. *)
Lemma inertia_frozen_while_exploded :
  let s := coastingTree 0.1 0 0 true in
  Tree.isGestureActive s = false
  /\ Rabs (treeRotX s) >= 0.0001
  /\ treeRotX (iterate Tree.applyGestureInertia 1 s) <> treeRotX s * 0.95 ^ 1.
Proof.
  cbv zeta. split; [reflexivity|]. split.
  - unfold_samples. rewrite Rabs_pos_eq; lra.
  - simpl iterate. rewrite tree_inertia_off by reflexivity.
    unfold_samples. lra.
Qed.

(** The two rotation velocities are tested together: a velocity below the
    cutoff keeps decaying, and keeps turning the tree, while the other one
    is above it. *)
Lemma inertia_axes_are_coupled :
  let s := coastingTree 0.00005 0.1 0 false in
  let s' := Tree.applyGestureInertia s in
  treeRotX s' = 0.00005 * 0.95
  /\ Tree.treeGroup_rotation_x s' = 0.00005.
Proof.
  cbv zeta.
  destruct (tree_inertia_rotation_moving (coastingTree 0.00005 0.1 0 false))
    as (Hx & _ & Hr & _); [reflexivity| |].
  - right. unfold_samples. rewrite Rabs_pos_eq; lra.
  - split; [exact Hx|]. rewrite Hr. unfold_samples.
    unfold clamp. rewrite Rmin_right, Rmax_right; lra.
Qed.

(** The cutoff itself is at rest: the tests are strict. *)
Lemma inertia_at_cutoff :
  let s := coastingTree 0.0001 0 0.001 false in
  Tree.applyGestureInertia s = s.
Proof.
  cbv zeta. unfold Tree.applyGestureInertia. unfold_samples.
  assert (Hx : gtb (Rabs 0.0001) 0.0001 = false)
    by (apply gtb_false; rewrite Rabs_pos_eq; lra).
  assert (Hy : gtb (Rabs 0) 0.0001 = false)
    by (apply gtb_false; rewrite Rabs_R0; lra).
  assert (Hz : gtb (Rabs 0.001) 0.001 = false)
    by (apply gtb_false; rewrite Rabs_pos_eq; lra).
  rewrite Hx, Hy. cbn. now rewrite Hz.
Qed.

(** ** Frames of the detector *)

Ltac break_match :=
  match goal with
  | |- context [match ?x with _ => _ end] => destruct x eqn:?
  end.

Ltac break_all := repeat (break_match; cbn in * ).

Lemma sqrt_ge_bound (q b : R) : 0 <= b -> b * b <= q -> b <= sqrt q.
Proof.
  intros Hb Hq. rewrite <- (sqrt_square b) by lra.
  apply sqrt_le_1; nra.
Qed.

Lemma getPalmCenter_in_range (lm : LandmarkFrame) :
  (10 <= length lm)%nat -> exists c, getPalmCenter lm = Some c.
Proof.
  intros Hlen. unfold getPalmCenter.
  destruct (at_in_range lm 0) as [w ->]; try lia.
  destruct (at_in_range lm 9) as [m ->]; try lia.
  cbn [bind]. now eexists.
Qed.


Lemma getHandSize_in_range (lm : LandmarkFrame) :
  (21 <= length lm)%nat -> exists size, getHandSize lm = Some size.
Proof.
  intros Hlen. unfold getHandSize.
  destruct (at_in_range lm 0) as [p0 ->]; try lia.
  destruct (at_in_range lm 12) as [p12 ->]; try lia.
  destruct (at_in_range lm 4) as [p4 ->]; try lia.
  destruct (at_in_range lm 20) as [p20 ->]; try lia.
  destruct (at_in_range lm 9) as [p9 ->]; try lia.
  cbn [bind]. now eexists.
Qed.


Lemma recognized_frame_length (lm : LandmarkFrame) (g : Gesture) :
  recognizeGesture lm = Some g -> (21 <= length lm)%nat.
Proof.
  intros Hg.
  destruct (Nat.lt_ge_cases (length lm) 21) as [Hlt|Hge]; [|exact Hge].
  rewrite recognizeGesture_needs_21 in Hg by exact Hlt. discriminate.
Qed.

(** What the mapper leaves alone, in the tree effect. *)
Lemma tree_mapper_keeps (env : Tree.Env) (gesture : Gesture)
    (currentPos : Point2.t) (s : Tree.State) :
  let s' := Tree.processContinuousGesture env gesture currentPos s in
  Tree.smoothedHandSize s' = Tree.smoothedHandSize s
  /\ Tree.handSizeBaseline s' = Tree.handSizeBaseline s
  /\ Tree.handSizeCalibrated s' = Tree.handSizeCalibrated s
  /\ Tree.lastGesture s' = Tree.lastGesture s
  /\ Tree.smoothedPos s' = Tree.smoothedPos s.
Proof.
  cbv zeta.
  unfold Tree.processContinuousGesture, Tree.pointAtPhoto, Tree.rotateTree,
    Tree.checkPhotoHover, Tree.closeExpandedPhoto, Tree.gatherParticles,
    Tree.explodeParticles, Tree.expandPhoto.
  destruct gesture; cbn;
    destruct (Tree.rayHit env); destruct (Tree.expandedPhoto s) eqn:?; cbn;
    break_all; repeat split; reflexivity.
Qed.

Lemma tree_zoom_keeps (s : Tree.State) :
  let s' := Tree.applyHandDistanceZoom s in
  Tree.smoothedHandSize s' = Tree.smoothedHandSize s
  /\ Tree.handSizeBaseline s' = Tree.handSizeBaseline s
  /\ Tree.handSizeCalibrated s' = Tree.handSizeCalibrated s
  /\ Tree.lastGesture s' = Tree.lastGesture s
  /\ Tree.expandedPhoto s' = Tree.expandedPhoto s
  /\ Tree.isExploded s' = Tree.isExploded s.
Proof.
  cbv zeta. unfold Tree.applyHandDistanceZoom.
  destruct (negb (Tree.handSizeCalibrated s)); cbn; repeat split; reflexivity.
Qed.

#[local] Arguments Tree.processContinuousGesture : simpl never.
#[local] Arguments Tree.applyHandDistanceZoom : simpl never.

Lemma tree_mapper_smoothedHandSize (env : Tree.Env) (g : Gesture)
    (p : Point2.t) (s : Tree.State) :
  Tree.smoothedHandSize (Tree.processContinuousGesture env g p s)
  = Tree.smoothedHandSize s.
Proof. apply (tree_mapper_keeps env g p s). Qed.

Lemma tree_mapper_handSizeBaseline (env : Tree.Env) (g : Gesture)
    (p : Point2.t) (s : Tree.State) :
  Tree.handSizeBaseline (Tree.processContinuousGesture env g p s)
  = Tree.handSizeBaseline s.
Proof. apply (tree_mapper_keeps env g p s). Qed.

Lemma tree_mapper_handSizeCalibrated (env : Tree.Env) (g : Gesture)
    (p : Point2.t) (s : Tree.State) :
  Tree.handSizeCalibrated (Tree.processContinuousGesture env g p s)
  = Tree.handSizeCalibrated s.
Proof. apply (tree_mapper_keeps env g p s). Qed.

Lemma tree_mapper_lastGesture (env : Tree.Env) (g : Gesture)
    (p : Point2.t) (s : Tree.State) :
  Tree.lastGesture (Tree.processContinuousGesture env g p s)
  = Tree.lastGesture s.
Proof. apply (tree_mapper_keeps env g p s). Qed.

Lemma tree_mapper_smoothedPos (env : Tree.Env) (g : Gesture)
    (p : Point2.t) (s : Tree.State) :
  Tree.smoothedPos (Tree.processContinuousGesture env g p s)
  = Tree.smoothedPos s.
Proof. apply (tree_mapper_keeps env g p s). Qed.

Lemma tree_zoom_smoothedHandSize (s : Tree.State) :
  Tree.smoothedHandSize (Tree.applyHandDistanceZoom s)
  = Tree.smoothedHandSize s.
Proof. apply (tree_zoom_keeps s). Qed.

Lemma tree_zoom_handSizeBaseline (s : Tree.State) :
  Tree.handSizeBaseline (Tree.applyHandDistanceZoom s)
  = Tree.handSizeBaseline s.
Proof. apply (tree_zoom_keeps s). Qed.

Lemma tree_zoom_handSizeCalibrated (s : Tree.State) :
  Tree.handSizeCalibrated (Tree.applyHandDistanceZoom s)
  = Tree.handSizeCalibrated s.
Proof. apply (tree_zoom_keeps s). Qed.

Lemma tree_zoom_lastGesture (s : Tree.State) :
  Tree.lastGesture (Tree.applyHandDistanceZoom s) = Tree.lastGesture s.
Proof. apply (tree_zoom_keeps s). Qed.

Lemma tree_zoom_expandedPhoto (s : Tree.State) :
  Tree.expandedPhoto (Tree.applyHandDistanceZoom s) = Tree.expandedPhoto s.
Proof. apply (tree_zoom_keeps s). Qed.

Lemma tree_zoom_isExploded (s : Tree.State) :
  Tree.isExploded (Tree.applyHandDistanceZoom s) = Tree.isExploded s.
Proof. apply (tree_zoom_keeps s). Qed.

Create Rewrite HintDb tree_keeps.
#[local] Hint Rewrite
  tree_mapper_smoothedHandSize tree_mapper_handSizeBaseline
  tree_mapper_handSizeCalibrated tree_mapper_lastGesture
  tree_mapper_smoothedPos tree_zoom_smoothedHandSize
  tree_zoom_handSizeBaseline tree_zoom_handSizeCalibrated
  tree_zoom_lastGesture tree_zoom_expandedPhoto tree_zoom_isExploded
  : tree_keeps.

(** The hand-size variables and [lastGesture] after a frame that goes
    through, in the tree effect. *)
Lemma tree_frame (env : Tree.Env) (lm : LandmarkFrame) (s : Tree.State)
    (size : R) (g : Gesture) :
  getHandSize lm = Some size ->
  recognizeGesture lm = Some g ->
  exists s',
    Tree.handleGestures env lm s = Ok s'
    /\ Tree.lastGesture s' = g
    /\ Tree.handSizeCalibrated s' = true
    /\ Tree.handSizeBaseline s'
       = (if Tree.handSizeCalibrated s then Tree.handSizeBaseline s else size)
    /\ Tree.smoothedHandSize s'
       = (if Tree.handSizeCalibrated s
          then Tree.smoothedHandSize s * 0.8 + size * 0.2 else size).
Proof.
  intros Hsize Hg.
  destruct (getPalmCenter_in_range lm) as [c Hc].
  { pose proof (recognized_frame_length lm g Hg). lia. }
  unfold Tree.handleGestures. rewrite Hc, Hsize, Hg.
  eexists. split; [reflexivity|].
  destruct (Tree.handSizeCalibrated s) eqn:Ecal; cbn; rewrite Ecal; cbn;
    (split; [reflexivity|]);
    match goal with
    | |- context [if ?c then Tree.applyHandDistanceZoom _ else _] =>
        destruct c
    end; autorewrite with tree_keeps; cbn; rewrite ?Ecal;
    repeat split; reflexivity.
Qed.

(** What the mapper leaves alone, in the starry effect. *)
Lemma sky_mapper_keeps (env : Starry.Env) (gesture : Gesture)
    (currentPos : Point2.t) (s : Starry.State) :
  let s' := Starry.processContinuousGesture env gesture currentPos s in
  Starry.smoothedHandSize s' = Starry.smoothedHandSize s
  /\ Starry.handSizeBaseline s' = Starry.handSizeBaseline s
  /\ Starry.handSizeCalibrated s' = Starry.handSizeCalibrated s
  /\ Starry.lastGesture s' = Starry.lastGesture s
  /\ Starry.smoothedPos s' = Starry.smoothedPos s.
Proof.
  cbv zeta.
  unfold Starry.processContinuousGesture, Starry.rotateSky,
    Starry.checkConstellationHover, Starry.gatherStars, Starry.scatterStars.
  destruct gesture; cbn; destruct (Starry.rayHit env); cbn;
    break_all; repeat split; reflexivity.
Qed.

Lemma sky_zoom_keeps (s : Starry.State) :
  let s' := Starry.applyHandDistanceZoom s in
  Starry.smoothedHandSize s' = Starry.smoothedHandSize s
  /\ Starry.handSizeBaseline s' = Starry.handSizeBaseline s
  /\ Starry.handSizeCalibrated s' = Starry.handSizeCalibrated s
  /\ Starry.lastGesture s' = Starry.lastGesture s
  /\ Starry.isScattered s' = Starry.isScattered s.
Proof.
  cbv zeta. unfold Starry.applyHandDistanceZoom.
  destruct (negb (Starry.handSizeCalibrated s)); cbn; repeat split;
    reflexivity.
Qed.

#[local] Arguments Starry.processContinuousGesture : simpl never.
#[local] Arguments Starry.applyHandDistanceZoom : simpl never.

Lemma sky_mapper_smoothedHandSize (env : Starry.Env) (g : Gesture)
    (p : Point2.t) (s : Starry.State) :
  Starry.smoothedHandSize (Starry.processContinuousGesture env g p s)
  = Starry.smoothedHandSize s.
Proof. apply (sky_mapper_keeps env g p s). Qed.

Lemma sky_mapper_handSizeBaseline (env : Starry.Env) (g : Gesture)
    (p : Point2.t) (s : Starry.State) :
  Starry.handSizeBaseline (Starry.processContinuousGesture env g p s)
  = Starry.handSizeBaseline s.
Proof. apply (sky_mapper_keeps env g p s). Qed.

Lemma sky_mapper_handSizeCalibrated (env : Starry.Env) (g : Gesture)
    (p : Point2.t) (s : Starry.State) :
  Starry.handSizeCalibrated (Starry.processContinuousGesture env g p s)
  = Starry.handSizeCalibrated s.
Proof. apply (sky_mapper_keeps env g p s). Qed.

Lemma sky_mapper_lastGesture (env : Starry.Env) (g : Gesture)
    (p : Point2.t) (s : Starry.State) :
  Starry.lastGesture (Starry.processContinuousGesture env g p s)
  = Starry.lastGesture s.
Proof. apply (sky_mapper_keeps env g p s). Qed.

Lemma sky_mapper_smoothedPos (env : Starry.Env) (g : Gesture)
    (p : Point2.t) (s : Starry.State) :
  Starry.smoothedPos (Starry.processContinuousGesture env g p s)
  = Starry.smoothedPos s.
Proof. apply (sky_mapper_keeps env g p s). Qed.

Lemma sky_zoom_smoothedHandSize (s : Starry.State) :
  Starry.smoothedHandSize (Starry.applyHandDistanceZoom s)
  = Starry.smoothedHandSize s.
Proof. apply (sky_zoom_keeps s). Qed.

Lemma sky_zoom_handSizeBaseline (s : Starry.State) :
  Starry.handSizeBaseline (Starry.applyHandDistanceZoom s)
  = Starry.handSizeBaseline s.
Proof. apply (sky_zoom_keeps s). Qed.

Lemma sky_zoom_handSizeCalibrated (s : Starry.State) :
  Starry.handSizeCalibrated (Starry.applyHandDistanceZoom s)
  = Starry.handSizeCalibrated s.
Proof. apply (sky_zoom_keeps s). Qed.

Lemma sky_zoom_lastGesture (s : Starry.State) :
  Starry.lastGesture (Starry.applyHandDistanceZoom s) = Starry.lastGesture s.
Proof. apply (sky_zoom_keeps s). Qed.

Lemma sky_zoom_isScattered (s : Starry.State) :
  Starry.isScattered (Starry.applyHandDistanceZoom s) = Starry.isScattered s.
Proof. apply (sky_zoom_keeps s). Qed.

Create Rewrite HintDb sky_keeps.
#[local] Hint Rewrite
  sky_mapper_smoothedHandSize sky_mapper_handSizeBaseline
  sky_mapper_handSizeCalibrated sky_mapper_lastGesture
  sky_mapper_smoothedPos sky_zoom_smoothedHandSize
  sky_zoom_handSizeBaseline sky_zoom_handSizeCalibrated
  sky_zoom_lastGesture sky_zoom_isScattered
  : sky_keeps.

(** The hand-size variables and [lastGesture] after a frame that goes
    through, in the starry effect. *)
Lemma sky_frame (env : Starry.Env) (lm : LandmarkFrame) (s : Starry.State)
    (size : R) (g : Gesture) :
  getHandSize lm = Some size ->
  recognizeGesture lm = Some g ->
  exists s',
    Starry.handleGestures env lm s = Ok s'
    /\ Starry.lastGesture s' = g
    /\ Starry.handSizeCalibrated s' = true
    /\ Starry.handSizeBaseline s'
       = (if Starry.handSizeCalibrated s
          then Starry.handSizeBaseline s else size)
    /\ Starry.smoothedHandSize s'
       = (if Starry.handSizeCalibrated s
          then Starry.smoothedHandSize s * 0.8 + size * 0.2 else size).
Proof.
  intros Hsize Hg.
  destruct (getPalmCenter_in_range lm) as [c Hc].
  { pose proof (recognized_frame_length lm g Hg). lia. }
  unfold Starry.handleGestures. rewrite Hc, Hsize, Hg.
  eexists. split; [reflexivity|].
  destruct (Starry.handSizeCalibrated s) eqn:Ecal; cbn; rewrite Ecal; cbn;
    (split; [reflexivity|]);
    match goal with
    | |- context [if ?c then Starry.applyHandDistanceZoom _ else _] =>
        destruct c
    end; autorewrite with sky_keeps; cbn; rewrite ?Ecal;
    repeat split; reflexivity.
Qed.

(** *** Entering and holding the V sign *)

Lemma tree_mapper_v_sign (env : Tree.Env) (p : Point2.t) (s : Tree.State) :
  let s' := Tree.processContinuousGesture env V_SIGN p s in
  Tree.expandedPhoto s' = Tree.expandedPhoto s
  /\ Tree.isExploded s'
     = (if Gesture_eqb (Tree.lastGesture s) V_SIGN then Tree.isExploded s
        else if is_None (Tree.expandedPhoto s) then negb (Tree.isExploded s)
        else Tree.isExploded s).
Proof.
  cbv zeta.
  unfold Tree.processContinuousGesture, Tree.checkPhotoHover,
    Tree.gatherParticles, Tree.explodeParticles.
  cbn.
  destruct (Tree.rayHit env); destruct (Tree.expandedPhoto s) eqn:Ep; cbn;
    rewrite ?Ep; cbn;
    destruct (Gesture_eqb (Tree.lastGesture s) V_SIGN); cbn; rewrite ?Ep; cbn;
    destruct (Tree.isExploded s) eqn:Ex; cbn; rewrite ?Ep, ?Ex;
    split; reflexivity.
Qed.

Lemma sky_mapper_v_sign (env : Starry.Env) (p : Point2.t)
    (s : Starry.State) :
  let s' := Starry.processContinuousGesture env V_SIGN p s in
  Starry.isScattered s'
  = (if Gesture_eqb (Starry.lastGesture s) V_SIGN then Starry.isScattered s
     else negb (Starry.isScattered s)).
Proof.
  cbv zeta.
  unfold Starry.processContinuousGesture, Starry.checkConstellationHover,
    Starry.gatherStars, Starry.scatterStars.
  cbn.
  destruct (Starry.rayHit env) as [n|]; cbn;
    [destruct (negb (option_nat_eqb (Starry.highlightedConstellation s)
                                    (Some n))); cbn|];
    destruct (Gesture_eqb (Starry.lastGesture s) V_SIGN); cbn;
    destruct (Starry.isScattered s) eqn:Ex; cbn; rewrite ?Ex; reflexivity.
Qed.

Lemma tree_frame_v_sign (env : Tree.Env) (lm : LandmarkFrame)
    (s : Tree.State) :
  recognizeGesture lm = Some V_SIGN ->
  exists s',
    Tree.handleGestures env lm s = Ok s'
    /\ Tree.lastGesture s' = V_SIGN
    /\ Tree.expandedPhoto s' = Tree.expandedPhoto s
    /\ Tree.isExploded s'
       = (if Gesture_eqb (Tree.lastGesture s) V_SIGN then Tree.isExploded s
          else if is_None (Tree.expandedPhoto s)
               then negb (Tree.isExploded s)
          else Tree.isExploded s).
Proof.
  intros Hg. pose proof (recognized_frame_length lm V_SIGN Hg) as Hlen.
  destruct (getPalmCenter_in_range lm) as [c Hc]; [lia|].
  destruct (getHandSize_in_range lm Hlen) as [size Hsize].
  unfold Tree.handleGestures. rewrite Hc, Hsize, Hg.
  eexists. split; [reflexivity|]. cbn.
  split; [reflexivity|].
  match goal with
  | |- context [Tree.processContinuousGesture ?e V_SIGN ?p ?t] =>
      pose proof (tree_mapper_v_sign e p t) as K; cbv zeta in K;
      destruct K as [K1 K2]; rewrite K1, K2
  end.
  destruct (Tree.handSizeCalibrated s); cbn; split; reflexivity.
Qed.

Lemma sky_frame_v_sign (env : Starry.Env) (lm : LandmarkFrame)
    (s : Starry.State) :
  recognizeGesture lm = Some V_SIGN ->
  exists s',
    Starry.handleGestures env lm s = Ok s'
    /\ Starry.lastGesture s' = V_SIGN
    /\ Starry.isScattered s'
       = (if Gesture_eqb (Starry.lastGesture s) V_SIGN
          then Starry.isScattered s else negb (Starry.isScattered s)).
Proof.
  intros Hg. pose proof (recognized_frame_length lm V_SIGN Hg) as Hlen.
  destruct (getPalmCenter_in_range lm) as [c Hc]; [lia|].
  destruct (getHandSize_in_range lm Hlen) as [size Hsize].
  unfold Starry.handleGestures. rewrite Hc, Hsize, Hg.
  eexists. split; [reflexivity|]. cbn.
  split; [reflexivity|].
  match goal with
  | |- context [Starry.processContinuousGesture ?e V_SIGN ?p ?t] =>
      pose proof (sky_mapper_v_sign e p t) as K; cbv zeta in K; rewrite K
  end.
  destruct (Starry.handSizeCalibrated s); cbn; reflexivity.
Qed.

Lemma Gesture_eqb_eq (a b : Gesture) : Gesture_eqb a b = true <-> a = b.
Proof.
  destruct a, b; simpl; split; intros H; try reflexivity; discriminate.
Qed.

Lemma Gesture_eqb_neq (a b : Gesture) : Gesture_eqb a b = false <-> a <> b.
Proof.
  destruct a, b; simpl; split; intros H; try reflexivity; try discriminate;
    try (intros E; discriminate); now contradiction H.
Qed.

(** While the V sign is held, frames leave the mode flag alone. *)
Lemma tree_v_sign_held (frames : list (Tree.Env * LandmarkFrame)) :
  forall s : Tree.State,
    Forall (fun f => recognizeGesture (snd f) = Some V_SIGN) frames ->
    Tree.lastGesture s = V_SIGN ->
    exists s',
      run treeFrame frames s = Ok s'
      /\ Tree.lastGesture s' = V_SIGN
      /\ Tree.isExploded s' = Tree.isExploded s.
Proof.
  induction frames as [|[env lm] rest IH]; intros s Hall Hlast.
  - exists s. now repeat split.
  - inversion Hall as [|f fs Hf Hrest]; subst. cbn [snd] in Hf.
    destruct (tree_frame_v_sign env lm s Hf) as (s1 & Hrun & Hl1 & _ & Hx1).
    rewrite Hlast in Hx1. cbn in Hx1.
    destruct (IH s1 Hrest Hl1) as (s' & Hrun' & Hl' & Hx').
    exists s'. cbn [run]. unfold treeFrame at 1. cbn [fst snd].
    rewrite Hrun. repeat split; congruence.
Qed.

Lemma sky_v_sign_held (frames : list (Starry.Env * LandmarkFrame)) :
  forall s : Starry.State,
    Forall (fun f => recognizeGesture (snd f) = Some V_SIGN) frames ->
    Starry.lastGesture s = V_SIGN ->
    exists s',
      run skyFrame frames s = Ok s'
      /\ Starry.lastGesture s' = V_SIGN
      /\ Starry.isScattered s' = Starry.isScattered s.
Proof.
  induction frames as [|[env lm] rest IH]; intros s Hall Hlast.
  - exists s. now repeat split.
  - inversion Hall as [|f fs Hf Hrest]; subst. cbn [snd] in Hf.
    destruct (sky_frame_v_sign env lm s Hf) as (s1 & Hrun & Hl1 & Hx1).
    rewrite Hlast in Hx1. cbn in Hx1.
    destruct (IH s1 Hrest Hl1) as (s' & Hrun' & Hl' & Hx').
    exists s'. cbn [run]. unfold skyFrame at 1. cbn [fst snd].
    rewrite Hrun. repeat split; congruence.
Qed.

Lemma Forall_firstn_kept {A} (P : A -> Prop) (k : nat) (l : list A) :
  Forall P l -> Forall P (firstn k l).
Proof.
  revert l. induction k as [|k IH]; intros [|a l] H; simpl; auto.
  inversion H; subst. constructor; auto.
Qed.

(** C2, as the code has it.  In a run of frames all classified V_SIGN that
    starts with [lastGesture] different from V_SIGN, and, in the tree
    effect, with no photo expanded, the mode flag after the first frame is
    the negation of the flag before the run, and it still is after every
    further frame of the run: one toggle, on entry. *)
Theorem v_sign_toggles_once :
  (forall (frames : list (Tree.Env * LandmarkFrame)) (s : Tree.State)
          (k : nat),
      Forall (fun f => recognizeGesture (snd f) = Some V_SIGN) frames ->
      Tree.lastGesture s <> V_SIGN ->
      Tree.expandedPhoto s = None ->
      (1 <= k <= length frames)%nat ->
      exists s',
        run treeFrame (firstn k frames) s = Ok s'
        /\ Tree.isExploded s' = negb (Tree.isExploded s))
  /\ (forall (frames : list (Starry.Env * LandmarkFrame)) (s : Starry.State)
             (k : nat),
         Forall (fun f => recognizeGesture (snd f) = Some V_SIGN) frames ->
         Starry.lastGesture s <> V_SIGN ->
         (1 <= k <= length frames)%nat ->
         exists s',
           run skyFrame (firstn k frames) s = Ok s'
           /\ Starry.isScattered s' = negb (Starry.isScattered s)).
Proof.
  split.
  - intros frames s k Hall Hlast Hphoto Hk.
    destruct k as [|k]; [lia|]. destruct frames as [|[env lm] rest];
      [simpl in Hk; lia|].
    inversion Hall as [|f fs Hf Hrest]; subst. cbn [snd] in Hf.
    destruct (tree_frame_v_sign env lm s Hf) as (s1 & Hrun & Hl1 & _ & Hx1).
    apply Gesture_eqb_neq in Hlast. rewrite Hlast, Hphoto in Hx1. cbn in Hx1.
    destruct (tree_v_sign_held (firstn k rest) s1) as (s' & Hrun' & _ & Hx');
      [now apply Forall_firstn_kept | exact Hl1 |].
    exists s'. rewrite firstn_cons. cbn [run]. unfold treeFrame at 1.
    cbn [fst snd]. rewrite Hrun. split; congruence.
  - intros frames s k Hall Hlast Hk.
    destruct k as [|k]; [lia|]. destruct frames as [|[env lm] rest];
      [simpl in Hk; lia|].
    inversion Hall as [|f fs Hf Hrest]; subst. cbn [snd] in Hf.
    destruct (sky_frame_v_sign env lm s Hf) as (s1 & Hrun & Hl1 & Hx1).
    apply Gesture_eqb_neq in Hlast. rewrite Hlast in Hx1.
    destruct (sky_v_sign_held (firstn k rest) s1) as (s' & Hrun' & _ & Hx');
      [now apply Forall_firstn_kept | exact Hl1 |].
    exists s'. rewrite firstn_cons. cbn [run]. unfold skyFrame at 1.
    cbn [fst snd]. rewrite Hrun. split; congruence.
Qed.

Ltac decide_ltb :=
  repeat match goal with
         | |- context [ltb ?a ?b] =>
             first [ rewrite (proj2 (ltb_true a b)) by lra
                   | rewrite (proj2 (ltb_false a b)) by lra ]
         end.

Lemma vSignFrame_is_v_sign : recognizeGesture vSignFrame = Some V_SIGN.
Proof.
  unfold recognizeGesture, isExtended. cbn.
  decide_ltb. cbn.
  assert (Hfar : ltb (hypot (0.5 - 0.1) (0.2 - 0.5)) 0.06 = false).
  { apply ltb_false. unfold hypot. apply sqrt_ge_bound; lra. }
  now rewrite Hfar.
Qed.

Lemma v_sign_toggles_once_witness :
  (exists s',
      run treeFrame
        (firstn 3 [(quietTree, vSignFrame); (quietTree, vSignFrame);
                   (quietTree, vSignFrame)])
        (Tree.initial []) = Ok s'
      /\ Tree.isExploded s' = true)
  /\ (exists s',
         run skyFrame
           (firstn 3 [(quietSky, vSignFrame); (quietSky, vSignFrame);
                      (quietSky, vSignFrame)])
           (Starry.initial []) = Ok s'
         /\ Starry.isScattered s' = true).
Proof.
  split.
  - apply (proj1 v_sign_toggles_once
             [(quietTree, vSignFrame); (quietTree, vSignFrame);
              (quietTree, vSignFrame)] (Tree.initial []) 3%nat).
    + repeat constructor; exact vSignFrame_is_v_sign.
    + discriminate.
    + reflexivity.
    + simpl. lia.
  - apply (proj2 v_sign_toggles_once
             [(quietSky, vSignFrame); (quietSky, vSignFrame);
              (quietSky, vSignFrame)] (Starry.initial []) 3%nat).
    + repeat constructor; exact vSignFrame_is_v_sign.
    + discriminate.
    + simpl. lia.
Defined.

(** Against C2 as stated.  The toggle fails in the tree effect: with a
    photo expanded, a run of V_SIGN frames that starts after a NONE
    gesture leaves the exploded flag as it was, after the first frame and
    after the third. *)
Lemma v_sign_ignored_over_photo :
  recognizeGesture vSignFrame = Some V_SIGN
  /\ Tree.lastGesture photoOpen <> V_SIGN
  /\ (exists s',
         run treeFrame [(quietTree, vSignFrame)] photoOpen = Ok s'
         /\ Tree.isExploded s' = Tree.isExploded photoOpen)
  /\ (exists s',
         run treeFrame
           [(quietTree, vSignFrame); (quietTree, vSignFrame);
            (quietTree, vSignFrame)] photoOpen = Ok s'
         /\ Tree.isExploded s' = Tree.isExploded photoOpen).
Proof.
  split; [exact vSignFrame_is_v_sign|]. split; [discriminate|].
  destruct (tree_frame_v_sign quietTree vSignFrame photoOpen
              vSignFrame_is_v_sign) as (s1 & Hrun & Hl1 & _ & Hx1).
  cbn in Hx1. split.
  - exists s1. cbn [run]. unfold treeFrame. cbn [fst snd].
    rewrite Hrun. now split.
  - destruct (tree_v_sign_held
                [(quietTree, vSignFrame); (quietTree, vSignFrame)] s1)
      as (s' & Hrun' & _ & Hx').
    + repeat constructor; exact vSignFrame_is_v_sign.
    + exact Hl1.
    + exists s'. cbn [run]. unfold treeFrame at 1. cbn [fst snd].
      rewrite Hrun. split; [exact Hrun'|]. now rewrite Hx', Hx1.
Qed.

(** ** Calibration of the hand size *)

(** C6.  On a detected 21-point frame of hand size [size]: if the store is
    not calibrated, the baseline and the smoothed size both become [size]
    and the store is calibrated; if it is, the smoothed size becomes
    [smoothed * 0.8 + size * 0.2] and the baseline stays.  Either way the
    store is calibrated afterwards, so every later frame filters. *)
Theorem calibration_then_filter (lm : LandmarkFrame) (size : R) :
  length lm = 21%nat ->
  getHandSize lm = Some size ->
  (forall (env : Tree.Env) (s : Tree.State),
      exists s',
        Tree.handleGestures env lm s = Ok s'
        /\ Tree.handSizeCalibrated s' = true
        /\ (Tree.handSizeCalibrated s = false ->
            Tree.handSizeBaseline s' = size
            /\ Tree.smoothedHandSize s' = size)
        /\ (Tree.handSizeCalibrated s = true ->
            Tree.smoothedHandSize s'
            = Tree.smoothedHandSize s * 0.8 + size * 0.2
            /\ Tree.handSizeBaseline s' = Tree.handSizeBaseline s))
  /\ (forall (env : Starry.Env) (s : Starry.State),
         exists s',
           Starry.handleGestures env lm s = Ok s'
           /\ Starry.handSizeCalibrated s' = true
           /\ (Starry.handSizeCalibrated s = false ->
               Starry.handSizeBaseline s' = size
               /\ Starry.smoothedHandSize s' = size)
           /\ (Starry.handSizeCalibrated s = true ->
               Starry.smoothedHandSize s'
               = Starry.smoothedHandSize s * 0.8 + size * 0.2
               /\ Starry.handSizeBaseline s' = Starry.handSizeBaseline s)).
Proof.
  intros Hlen Hsize.
  destruct (recognizeGesture_total lm) as [g Hg]; [lia|].
  split.
  - intros env s.
    destruct (tree_frame env lm s size g Hsize Hg)
      as (s' & Hrun & _ & Hcal & Hbase & Hsm).
    exists s'. split; [exact Hrun|]. split; [exact Hcal|].
    split; intros E; rewrite E in *; now split.
  - intros env s.
    destruct (sky_frame env lm s size g Hsize Hg)
      as (s' & Hrun & _ & Hcal & Hbase & Hsm).
    exists s'. split; [exact Hrun|]. split; [exact Hcal|].
    split; intros E; rewrite E in *; now split.
Qed.

Lemma getHandSize_sizedFrame (size : R) :
  0 <= size -> getHandSize (sizedFrame size) = Some size.
Proof.
  intros Hs. unfold getHandSize. cbn.
  assert (H : hypot (size - 0) (0 - 0) = size).
  { replace (size - 0) with size by lra. replace (0 - 0) with 0 by lra.
    now apply hypot_axis. }
  rewrite H. f_equal. lra.
Qed.

Lemma calibration_then_filter_witness :
  (exists s',
      Tree.handleGestures quietTree (sizedFrame 0.3) (Tree.initial []) = Ok s'
      /\ Tree.handSizeCalibrated s' = true
      /\ Tree.handSizeBaseline s' = 0.3
      /\ Tree.smoothedHandSize s' = 0.3)
  /\ (exists s',
         Tree.handleGestures quietTree (sizedFrame 0.3) calibratedTree = Ok s'
         /\ Tree.smoothedHandSize s' = 0.5 * 0.8 + 0.3 * 0.2
         /\ Tree.handSizeBaseline s' = 0.5)
  /\ (exists s',
         Starry.handleGestures quietSky (sizedFrame 0.3) (Starry.initial [])
         = Ok s'
         /\ Starry.handSizeCalibrated s' = true
         /\ Starry.handSizeBaseline s' = 0.3
         /\ Starry.smoothedHandSize s' = 0.3)
  /\ (exists s',
         Starry.handleGestures quietSky (sizedFrame 0.3) calibratedSky = Ok s'
         /\ Starry.smoothedHandSize s' = 0.5 * 0.8 + 0.3 * 0.2
         /\ Starry.handSizeBaseline s' = 0.5).
Proof.
  destruct (calibration_then_filter (sizedFrame 0.3) 0.3 eq_refl) as [HT HS].
  { apply getHandSize_sizedFrame. lra. }
  split; [|split; [|split]].
  - destruct (HT quietTree (Tree.initial []))
      as (s' & Hrun & Hcal & Hfirst & _).
    destruct (Hfirst eq_refl) as [Hb Hs]. exists s'. now repeat split.
  - destruct (HT quietTree calibratedTree) as (s' & Hrun & _ & _ & Hlater).
    destruct (Hlater eq_refl) as [Hs Hb]. exists s'. now repeat split.
  - destruct (HS quietSky (Starry.initial []))
      as (s' & Hrun & Hcal & Hfirst & _).
    destruct (Hfirst eq_refl) as [Hb Hs]. exists s'. now repeat split.
  - destruct (HS quietSky calibratedSky) as (s' & Hrun & _ & _ & Hlater).
    destruct (Hlater eq_refl) as [Hs Hb]. exists s'. now repeat split.
Defined.

(** *** Hand loss *)

Lemma tree_no_hand (env : Tree.Env) (results : option (list LandmarkFrame))
    (s : Tree.State) :
  noHand results = true ->
  Tree.onResults env results s
  = Ok (Tree.set_autoRotate true (Tree.set_isGestureActive false s)).
Proof.
  destruct results as [[|lm rest]|]; simpl; intros H; now try discriminate.
Qed.

Lemma sky_no_hand (env : Starry.Env) (results : option (list LandmarkFrame))
    (s : Starry.State) :
  noHand results = true ->
  Starry.onResults env results s
  = Ok (Starry.set_autoRotate true (Starry.set_isGestureActive false s)).
Proof.
  destruct results as [[|lm rest]|]; simpl; intros H; now try discriminate.
Qed.

Lemma tree_gap (gap : list (Tree.Env * option (list LandmarkFrame))) :
  forall s : Tree.State,
    Forall (fun r => noHand (snd r) = true) gap ->
    exists s',
      run treeResults gap s = Ok s'
      /\ Tree.handSizeCalibrated s' = Tree.handSizeCalibrated s
      /\ Tree.handSizeBaseline s' = Tree.handSizeBaseline s
      /\ Tree.smoothedHandSize s' = Tree.smoothedHandSize s.
Proof.
  induction gap as [|[env r] rest IH]; intros s Hall.
  - exists s. now repeat split.
  - inversion Hall as [|x xs Hr Hrest]; subst. cbn [snd] in Hr.
    cbn [run]. unfold treeResults at 1. cbn [fst snd].
    rewrite (tree_no_hand env r s Hr).
    destruct (IH (Tree.set_autoRotate true (Tree.set_isGestureActive false s))
                Hrest) as (s' & Hrun & Hc & Hb & Hs).
    exists s'. now repeat split.
Qed.

Lemma sky_gap (gap : list (Starry.Env * option (list LandmarkFrame))) :
  forall s : Starry.State,
    Forall (fun r => noHand (snd r) = true) gap ->
    exists s',
      run skyResults gap s = Ok s'
      /\ Starry.handSizeCalibrated s' = Starry.handSizeCalibrated s
      /\ Starry.handSizeBaseline s' = Starry.handSizeBaseline s
      /\ Starry.smoothedHandSize s' = Starry.smoothedHandSize s.
Proof.
  induction gap as [|[env r] rest IH]; intros s Hall.
  - exists s. now repeat split.
  - inversion Hall as [|x xs Hr Hrest]; subst. cbn [snd] in Hr.
    cbn [run]. unfold skyResults at 1. cbn [fst snd].
    rewrite (sky_no_hand env r s Hr).
    destruct (IH (Starry.set_autoRotate true
                    (Starry.set_isGestureActive false s))
                Hrest) as (s' & Hrun & Hc & Hb & Hs).
    exists s'. now repeat split.
Qed.

(** C7, as the code has it.  Nothing resets the calibration: a gap of
    results without a hand, of any length, leaves a calibrated store
    calibrated, and the 21-point frame of hand size [size] detected after
    the gap keeps the baseline the store had before the gap and filters
    the smoothed size. *)
Theorem calibration_survives_hand_loss (lm : LandmarkFrame) (size : R) :
  length lm = 21%nat ->
  getHandSize lm = Some size ->
  (forall (gap : list (Tree.Env * option (list LandmarkFrame)))
          (env : Tree.Env) (s : Tree.State),
      Forall (fun r => noHand (snd r) = true) gap ->
      Tree.handSizeCalibrated s = true ->
      exists s1 s2,
        run treeResults gap s = Ok s1
        /\ Tree.handSizeCalibrated s1 = true
        /\ Tree.onResults env (Some [lm]) s1 = Ok s2
        /\ Tree.handSizeCalibrated s2 = true
        /\ Tree.handSizeBaseline s2 = Tree.handSizeBaseline s
        /\ Tree.smoothedHandSize s2
           = Tree.smoothedHandSize s * 0.8 + size * 0.2)
  /\ (forall (gap : list (Starry.Env * option (list LandmarkFrame)))
             (env : Starry.Env) (s : Starry.State),
         Forall (fun r => noHand (snd r) = true) gap ->
         Starry.handSizeCalibrated s = true ->
         exists s1 s2,
           run skyResults gap s = Ok s1
           /\ Starry.handSizeCalibrated s1 = true
           /\ Starry.onResults env (Some [lm]) s1 = Ok s2
           /\ Starry.handSizeCalibrated s2 = true
           /\ Starry.handSizeBaseline s2 = Starry.handSizeBaseline s
           /\ Starry.smoothedHandSize s2
              = Starry.smoothedHandSize s * 0.8 + size * 0.2).
Proof.
  intros Hlen Hsize.
  destruct (recognizeGesture_total lm) as [g Hg]; [lia|].
  split.
  - intros gap env s Hgap Hcal.
    destruct (tree_gap gap s Hgap) as (s1 & Hrun1 & Hc1 & Hb1 & Hs1).
    destruct (tree_frame env lm s1 size g Hsize Hg)
      as (s2 & Hrun2 & _ & Hc2 & Hb2 & Hs2).
    rewrite Hc1, Hcal in *.
    exists s1, s2. cbn [Tree.onResults]. repeat split; congruence.
  - intros gap env s Hgap Hcal.
    destruct (sky_gap gap s Hgap) as (s1 & Hrun1 & Hc1 & Hb1 & Hs1).
    destruct (sky_frame env lm s1 size g Hsize Hg)
      as (s2 & Hrun2 & _ & Hc2 & Hb2 & Hs2).
    rewrite Hc1, Hcal in *.
    exists s1, s2. cbn [Starry.onResults]. repeat split; congruence.
Qed.

Lemma calibration_survives_hand_loss_witness :
  (exists s1 s2,
      run treeResults [(quietTree, None)] calibratedTree = Ok s1
      /\ Tree.handSizeCalibrated s1 = true
      /\ Tree.onResults quietTree (Some [sizedFrame 0.3]) s1 = Ok s2
      /\ Tree.handSizeCalibrated s2 = true
      /\ Tree.handSizeBaseline s2 = 0.5
      /\ Tree.smoothedHandSize s2 = 0.5 * 0.8 + 0.3 * 0.2)
  /\ (exists s1 s2,
         run skyResults [(quietSky, None)] calibratedSky = Ok s1
         /\ Starry.handSizeCalibrated s1 = true
         /\ Starry.onResults quietSky (Some [sizedFrame 0.3]) s1 = Ok s2
         /\ Starry.handSizeCalibrated s2 = true
         /\ Starry.handSizeBaseline s2 = 0.5
         /\ Starry.smoothedHandSize s2 = 0.5 * 0.8 + 0.3 * 0.2).
Proof.
  destruct (calibration_survives_hand_loss (sizedFrame 0.3) 0.3 eq_refl)
    as [HT HS].
  { apply getHandSize_sizedFrame. lra. }
  split.
  - apply (HT [(quietTree, None)] quietTree calibratedTree).
    + repeat constructor.
    + reflexivity.
  - apply (HS [(quietSky, None)] quietSky calibratedSky).
    + repeat constructor.
    + reflexivity.
Defined.

(** Against C7 as stated.  No recalibration happens.  A hand of size 0.6
    is detected at the start of the session and lost for one result, then
    a hand of size 0.3 is detected: the store is still calibrated during
    the gap and the baseline is still 0.6 afterwards. *)
Lemma no_recalibration_after_hand_loss :
  getHandSize (sizedFrame 0.3) = Some 0.3
  /\ exists s1 s2 s3,
       Tree.onResults quietTree (Some [sizedFrame 0.6]) (Tree.initial [])
       = Ok s1
       /\ Tree.onResults quietTree None s1 = Ok s2
       /\ Tree.handSizeCalibrated s2 = true
       /\ Tree.onResults quietTree (Some [sizedFrame 0.3]) s2 = Ok s3
       /\ Tree.handSizeBaseline s3 = 0.6
       /\ Tree.handSizeBaseline s3 <> 0.3.
Proof.
  assert (H3 : getHandSize (sizedFrame 0.3) = Some 0.3)
    by (apply getHandSize_sizedFrame; lra).
  assert (H6 : getHandSize (sizedFrame 0.6) = Some 0.6)
    by (apply getHandSize_sizedFrame; lra).
  split; [exact H3|].
  destruct (recognizeGesture_total (sizedFrame 0.6)) as [g6 Hg6];
    [simpl; lia|].
  destruct (recognizeGesture_total (sizedFrame 0.3)) as [g3 Hg3];
    [simpl; lia|].
  destruct (tree_frame quietTree (sizedFrame 0.6) (Tree.initial []) 0.6 g6
              H6 Hg6) as (s1 & Hrun1 & _ & Hc1 & Hb1 & _).
  cbn in Hb1.
  set (s2 := Tree.set_autoRotate true (Tree.set_isGestureActive false s1)).
  destruct (tree_frame quietTree (sizedFrame 0.3) s2 0.3 g3 H3 Hg3)
    as (s3 & Hrun3 & _ & _ & Hb3 & _).
  assert (Hc2 : Tree.handSizeCalibrated s2 = true) by exact Hc1.
  rewrite Hc2 in Hb3. cbn in Hb3. rewrite Hb1 in Hb3.
  exists s1, s2, s3. cbn [Tree.onResults].
  repeat split; try assumption. rewrite Hb3. lra.
Qed.

(** ** Frames with missing points *)





(** ** The open palm with a still hand *)

Lemma clamp_inside (lo hi v : R) : lo <= v <= hi -> clamp lo hi v = v.
Proof.
  intros [Hlo Hhi]. unfold clamp.
  rewrite Rmin_right by lra. now rewrite Rmax_right by lra.
Qed.

(** C9.  With the open palm held and the pointer where it was in the
    previous frame, a frame of the mapper leaves both rotations of the tree
    as they were, from any rotation inside the clamp bounds. *)
Theorem open_palm_still_hand (env : Tree.Env) (currentPos : Point2.t)
    (s : Tree.State) :
  Point2.x currentPos = Point2.x (Tree.lastHandPos s) ->
  Point2.y currentPos = Point2.y (Tree.lastHandPos s) ->
  -0.5 <= Tree.treeGroup_rotation_x s <= 0.5 ->
  let s' := Tree.processContinuousGesture env OPEN_PALM currentPos s in
  Tree.treeGroup_rotation_x s' = Tree.treeGroup_rotation_x s
  /\ Tree.treeGroup_rotation_y s' = Tree.treeGroup_rotation_y s.
Proof.
  intros Hx Hy Hin. cbv zeta.
  unfold Tree.processContinuousGesture, Tree.checkPhotoHover,
    Tree.closeExpandedPhoto, Tree.rotateTree.
  rewrite Hx, Hy. cbn.
  destruct (Tree.rayHit env); destruct (Tree.expandedPhoto s) eqn:Ep; cbn;
    rewrite ?Ep; cbn; try (split; reflexivity);
    destruct (Tree.isFistShape s); cbn;
    (split; [rewrite clamp_inside; lra | lra]).
Qed.

Lemma open_palm_still_hand_witness :
  Tree.treeGroup_rotation_x
    (Tree.processContinuousGesture quietTree OPEN_PALM (Point2.mk 0.5 0.5)
       (Tree.initial []))
  = Tree.treeGroup_rotation_x (Tree.initial [])
  /\ Tree.treeGroup_rotation_y
       (Tree.processContinuousGesture quietTree OPEN_PALM (Point2.mk 0.5 0.5)
          (Tree.initial []))
     = Tree.treeGroup_rotation_y (Tree.initial []).
Proof.
  apply (open_palm_still_hand quietTree (Point2.mk 0.5 0.5) (Tree.initial []));
    [reflexivity | reflexivity |].
  cbn. lra.
Defined.

(** * Further properties of the code *)

(** ** The classifier and the geometry under moves of the hand *)

Lemma at_map (f : Landmark.t -> Landmark.t) (lm : LandmarkFrame) (i : nat) :
  at_ (map f lm) i = option_map f (at_ lm i).
Proof. unfold at_. apply nth_error_map. Qed.

Lemma ltb_shift (a b d : R) : ltb (a + d) (b + d) = ltb a b.
Proof.
  destruct (ltb a b) eqn:E.
  - apply ltb_true in E. apply ltb_true. lra.
  - apply ltb_false in E. apply ltb_false. lra.
Qed.

Lemma hypot_shift (a b c d dx dy : R) :
  hypot (a + dx - (b + dx)) (c + dy - (d + dy)) = hypot (a - b) (c - d).
Proof. f_equal; ring. Qed.

Lemma hypot_mirror (a b c d : R) :
  hypot (1 - a - (1 - b)) (c - d) = hypot (a - b) (c - d).
Proof. unfold hypot. f_equal. ring. Qed.

Lemma hypot_flip (a b c d : R) :
  hypot (a - b) (1 - c - (1 - d)) = hypot (a - b) (c - d).
Proof. unfold hypot. f_equal. ring. Qed.

Lemma hypot_nonneg (a b : R) : 0 <= hypot a b.
Proof. unfold hypot. apply sqrt_pos. Qed.

Lemma hypot_scale (k a b c d : R) :
  0 <= k -> hypot (k * a - k * b) (k * c - k * d) = k * hypot (a - b) (c - d).
Proof.
  intros Hk. unfold hypot.
  replace ((k * a - k * b) * (k * a - k * b)
           + (k * c - k * d) * (k * c - k * d))
    with (k * k * ((a - b) * (a - b) + (c - d) * (c - d))) by ring.
  assert (Hq : 0 <= (a - b) * (a - b) + (c - d) * (c - d))
    by (pose proof (Rle_0_sqr (a - b)); pose proof (Rle_0_sqr (c - d));
        unfold Rsqr in *; lra).
  rewrite sqrt_mult; [|nra|exact Hq]. now rewrite sqrt_square.
Qed.

Ltac lookups lm :=
  repeat match goal with
         | |- context [at_ lm ?i] =>
             let p := fresh "p" in destruct (at_ lm i) as [p|]
         end.

(** X1.  Where the hand is in the image does not matter: a frame moved by
    any offset, or mirrored left to right, gets the label of the original
    frame (and fails exactly when the original does). *)
Theorem classifier_ignores_position (lm : LandmarkFrame) (dx dy : R) :
  recognizeGesture (translate dx dy lm) = recognizeGesture lm
  /\ recognizeGesture (mirror lm) = recognizeGesture lm.
Proof.
  split.
  - unfold recognizeGesture, isExtended, translate.
    rewrite !at_map.
    destruct (at_ lm 8), (at_ lm 6); cbn [option_map bind]; try reflexivity.
    destruct (at_ lm 12), (at_ lm 10); cbn [option_map bind];
      try reflexivity.
    destruct (at_ lm 16), (at_ lm 14); cbn [option_map bind];
      try reflexivity.
    destruct (at_ lm 20), (at_ lm 18); cbn [option_map bind];
      try reflexivity.
    destruct (at_ lm 4); cbn [option_map bind]; try reflexivity.
    cbn [Landmark.x Landmark.y]. now rewrite !ltb_shift, hypot_shift.
  - unfold recognizeGesture, isExtended, mirror.
    rewrite !at_map.
    destruct (at_ lm 8), (at_ lm 6); cbn [option_map bind]; try reflexivity.
    destruct (at_ lm 12), (at_ lm 10); cbn [option_map bind];
      try reflexivity.
    destruct (at_ lm 16), (at_ lm 14); cbn [option_map bind];
      try reflexivity.
    destruct (at_ lm 20), (at_ lm 18); cbn [option_map bind];
      try reflexivity.
    destruct (at_ lm 4); cbn [option_map bind]; try reflexivity.
    cbn [Landmark.x Landmark.y]. now rewrite hypot_mirror.
Qed.

Lemma ltb_flipped (a b : R) : ltb a b = true -> ltb (1 - a) (1 - b) = false.
Proof. intros H. apply ltb_true in H. apply ltb_false. lra. Qed.

(** X2.  The classifier depends on which way is up: a frame labelled
    OPEN_PALM is labelled FIST once the image is flipped top to bottom (a
    hand that points down with its fingers stretched reads as a fist). *)
Theorem flipped_open_palm_is_fist (lm : LandmarkFrame) :
  recognizeGesture lm = Some OPEN_PALM ->
  recognizeGesture (flip lm) = Some FIST.
Proof.
  unfold recognizeGesture, isExtended, flip. rewrite !at_map.
  destruct (at_ lm 8), (at_ lm 6); cbn [option_map bind]; try discriminate.
  destruct (at_ lm 12), (at_ lm 10); cbn [option_map bind]; try discriminate.
  destruct (at_ lm 16), (at_ lm 14); cbn [option_map bind]; try discriminate.
  destruct (at_ lm 20), (at_ lm 18); cbn [option_map bind]; try discriminate.
  destruct (at_ lm 4); cbn [option_map bind]; try discriminate.
  cbn [Landmark.x Landmark.y]. rewrite hypot_flip.
  match goal with
  | |- context [ltb (hypot ?a ?b) 0.06] => destruct (ltb (hypot a b) 0.06)
  end; [discriminate|].
  repeat match goal with
         | |- context [ltb (Landmark.y ?p) (Landmark.y ?q)] =>
             let E := fresh "E" in
             destruct (ltb (Landmark.y p) (Landmark.y q)) eqn:E;
             [apply ltb_flipped in E; rewrite E|]
         end; cbn; intros H; try discriminate; reflexivity.
Qed.

Lemma openPalmFrame_is_open_palm :
  recognizeGesture openPalmFrame = Some OPEN_PALM.
Proof.
  unfold recognizeGesture, isExtended. cbn.
  decide_ltb. cbn.
  assert (Hfar : ltb (hypot (0.5 - 0.1) (0.2 - 0.5)) 0.06 = false).
  { apply ltb_false. unfold hypot. apply sqrt_ge_bound; lra. }
  now rewrite Hfar.
Qed.

Lemma flipped_open_palm_is_fist_witness :
  recognizeGesture (flip openPalmFrame) = Some FIST.
Proof.
  apply (flipped_open_palm_is_fist openPalmFrame).
  exact openPalmFrame_is_open_palm.
Defined.

(** X3.  The hand size is a length: it is never negative, it does not
    change when the hand moves across the image, and it grows by the
    factor [k] when every coordinate does. *)
Theorem hand_size_is_a_length (lm : LandmarkFrame) (k dx dy : R) :
  0 <= k ->
  (forall size, getHandSize lm = Some size -> 0 <= size)
  /\ getHandSize (translate dx dy lm) = getHandSize lm
  /\ getHandSize (scale k lm) = option_map (Rmult k) (getHandSize lm).
Proof.
  intros Hk. unfold getHandSize, translate, scale. rewrite !at_map.
  destruct (at_ lm 0); cbn [option_map bind];
    [|repeat split; try reflexivity; discriminate].
  destruct (at_ lm 12); cbn [option_map bind];
    [|repeat split; try reflexivity; discriminate].
  destruct (at_ lm 4); cbn [option_map bind];
    [|repeat split; try reflexivity; discriminate].
  destruct (at_ lm 20); cbn [option_map bind];
    [|repeat split; try reflexivity; discriminate].
  destruct (at_ lm 9); cbn [option_map bind];
    [|repeat split; try reflexivity; discriminate].
  cbn [Landmark.x Landmark.y]. split; [|split].
  - intros size H. inversion H; subst.
    repeat match goal with
           | |- context [hypot ?a ?b] =>
               pose proof (hypot_nonneg a b); generalize dependent (hypot a b);
               intros
           end.
    lra.
  - now rewrite !hypot_shift.
  - rewrite !hypot_scale by exact Hk. f_equal. field.
Qed.

Lemma hand_size_is_a_length_witness :
  (forall size, getHandSize (sizedFrame 0.3) = Some size -> 0 <= size)
  /\ getHandSize (translate 0.1 0.2 (sizedFrame 0.3))
     = getHandSize (sizedFrame 0.3)
  /\ getHandSize (scale 2 (sizedFrame 0.3))
     = option_map (Rmult 2) (getHandSize (sizedFrame 0.3)).
Proof. apply (hand_size_is_a_length (sizedFrame 0.3) 2 0.1 0.2). lra. Defined.

(** ** The pointer *)

Lemma tree_zoom_smoothedPos (s : Tree.State) :
  Tree.smoothedPos (Tree.applyHandDistanceZoom s) = Tree.smoothedPos s.
Proof.
  unfold Tree.applyHandDistanceZoom.
  now destruct (negb (Tree.handSizeCalibrated s)).
Qed.

Lemma sky_zoom_smoothedPos (s : Starry.State) :
  Starry.smoothedPos (Starry.applyHandDistanceZoom s) = Starry.smoothedPos s.
Proof.
  unfold Starry.applyHandDistanceZoom.
  now destruct (negb (Starry.handSizeCalibrated s)).
Qed.

(** The filter of the pointer: 0.7 of the old value, 0.3 of the mirrored
    palm centre. *)
Lemma tree_pointer_after (env : Tree.Env) (lm : LandmarkFrame)
    (s : Tree.State) :
  Tree.smoothedPos (storeOf (Tree.handleGestures env lm s))
  = match getPalmCenter lm with
    | None => Tree.smoothedPos s
    | Some c =>
        Point2.mk (Point2.x (Tree.smoothedPos s) * 0.7 + (1 - Point2.x c) * 0.3)
                  (Point2.y (Tree.smoothedPos s) * 0.7 + Point2.y c * 0.3)
    end.
Proof.
  unfold Tree.handleGestures.
  destruct (getPalmCenter lm) as [c|]; [|reflexivity].
  destruct (getHandSize lm) as [size|]; [|reflexivity].
  destruct (recognizeGesture lm) as [g|].
  - cbn. rewrite tree_mapper_smoothedPos.
    destruct (Gesture_eqb g OPEN_PALM && _);
      rewrite ?tree_zoom_smoothedPos;
      destruct (Tree.handSizeCalibrated s); reflexivity.
  - cbn. destruct (Tree.handSizeCalibrated s); reflexivity.
Qed.

Lemma sky_pointer_after (env : Starry.Env) (lm : LandmarkFrame)
    (s : Starry.State) :
  Starry.smoothedPos (storeOf (Starry.handleGestures env lm s))
  = match getPalmCenter lm with
    | None => Starry.smoothedPos s
    | Some c =>
        Point2.mk
          (Point2.x (Starry.smoothedPos s) * 0.7 + (1 - Point2.x c) * 0.3)
          (Point2.y (Starry.smoothedPos s) * 0.7 + Point2.y c * 0.3)
    end.
Proof.
  unfold Starry.handleGestures.
  destruct (getPalmCenter lm) as [c|]; [|reflexivity].
  destruct (getHandSize lm) as [size|]; [|reflexivity].
  destruct (recognizeGesture lm) as [g|].
  - cbn. rewrite sky_mapper_smoothedPos.
    destruct (Gesture_eqb g OPEN_PALM);
      rewrite ?sky_zoom_smoothedPos;
      destruct (Starry.handSizeCalibrated s); reflexivity.
  - cbn. destruct (Starry.handSizeCalibrated s); reflexivity.
Qed.

Lemma palm_center_in_unit_square (lm : LandmarkFrame) (c : Point2.t) :
  frameInUnitSquare lm -> getPalmCenter lm = Some c ->
  inUnitSquare (Point2.x c) (Point2.y c).
Proof.
  intros Hall. unfold getPalmCenter, at_.
  destruct (nth_error lm 0) as [w|] eqn:E0; [|discriminate].
  destruct (nth_error lm 9) as [m|] eqn:E9; [|discriminate].
  cbn [bind]. intros H. inversion H; subst. cbn [Point2.x Point2.y].
  unfold frameInUnitSquare in Hall. rewrite Forall_forall in Hall.
  pose proof (Hall w (nth_error_In _ _ E0)) as Hw.
  pose proof (Hall m (nth_error_In _ _ E9)) as Hm.
  unfold inUnitSquare in *. lra.
Qed.

(** X4.  The pointer stays on the screen: when the landmarks of the hand
    are normalized and the pointer is in the unit square, it still is after
    the callback, whether the callback returns or throws. *)
Theorem pointer_stays_in_unit_square
    (results : option (list LandmarkFrame)) :
  (forall lm rest, results = Some (lm :: rest) -> frameInUnitSquare lm) ->
  (forall (env : Tree.Env) (s : Tree.State),
      inUnitSquare (Point2.x (Tree.smoothedPos s))
                   (Point2.y (Tree.smoothedPos s)) ->
      let s' := storeOf (Tree.onResults env results s) in
      inUnitSquare (Point2.x (Tree.smoothedPos s'))
                   (Point2.y (Tree.smoothedPos s')))
  /\ (forall (env : Starry.Env) (s : Starry.State),
         inUnitSquare (Point2.x (Starry.smoothedPos s))
                      (Point2.y (Starry.smoothedPos s)) ->
         let s' := storeOf (Starry.onResults env results s) in
         inUnitSquare (Point2.x (Starry.smoothedPos s'))
                      (Point2.y (Starry.smoothedPos s'))).
Proof.
  intros Hframe. split; intros env s Hin; cbv zeta.
  - destruct results as [[|lm rest]|]; cbn [Tree.onResults storeOf];
      try exact Hin.
    rewrite tree_pointer_after.
    destruct (getPalmCenter lm) as [c|] eqn:Ec; [|exact Hin].
    pose proof (palm_center_in_unit_square lm c (Hframe lm rest eq_refl) Ec).
    unfold inUnitSquare in *. cbn [Point2.x Point2.y]. lra.
  - destruct results as [[|lm rest]|]; cbn [Starry.onResults storeOf];
      try exact Hin.
    rewrite sky_pointer_after.
    destruct (getPalmCenter lm) as [c|] eqn:Ec; [|exact Hin].
    pose proof (palm_center_in_unit_square lm c (Hframe lm rest eq_refl) Ec).
    unfold inUnitSquare in *. cbn [Point2.x Point2.y]. lra.
Qed.

Lemma pinchFrame_in_unit_square : frameInUnitSquare pinchFrame.
Proof.
  unfold frameInUnitSquare, pinchFrame, frameOf. cbn [map seq].
  repeat (constructor; [unfold inUnitSquare; cbn; lra|]). constructor.
Qed.

Lemma pointer_stays_in_unit_square_witness :
  inUnitSquare
    (Point2.x (Tree.smoothedPos
       (storeOf (Tree.onResults quietTree (Some [pinchFrame])
                   (Tree.initial [])))))
    (Point2.y (Tree.smoothedPos
       (storeOf (Tree.onResults quietTree (Some [pinchFrame])
                   (Tree.initial [])))))
  /\ inUnitSquare
       (Point2.x (Starry.smoothedPos
          (storeOf (Starry.onResults quietSky (Some [pinchFrame])
                      (Starry.initial [])))))
       (Point2.y (Starry.smoothedPos
          (storeOf (Starry.onResults quietSky (Some [pinchFrame])
                      (Starry.initial []))))).
Proof.
  destruct (pointer_stays_in_unit_square (Some [pinchFrame])) as [HT HS].
  { intros lm rest H. inversion H; subst. exact pinchFrame_in_unit_square. }
  split.
  - apply (HT quietTree (Tree.initial [])). unfold inUnitSquare. cbn. lra.
  - apply (HS quietSky (Starry.initial [])). unfold inUnitSquare. cbn. lra.
Defined.

Lemma tree_frame_returns (env : Tree.Env) (lm : LandmarkFrame)
    (s : Tree.State) :
  (21 <= length lm)%nat ->
  exists s', Tree.handleGestures env lm s = Ok s'.
Proof.
  intros Hlen.
  destruct (getHandSize_in_range lm Hlen) as [size Hsize].
  destruct (recognizeGesture_total lm Hlen) as [g Hg].
  destruct (tree_frame env lm s size g Hsize Hg) as (s' & Hrun & _).
  now exists s'.
Qed.

Lemma sky_frame_returns (env : Starry.Env) (lm : LandmarkFrame)
    (s : Starry.State) :
  (21 <= length lm)%nat ->
  exists s', Starry.handleGestures env lm s = Ok s'.
Proof.
  intros Hlen.
  destruct (getHandSize_in_range lm Hlen) as [size Hsize].
  destruct (recognizeGesture_total lm Hlen) as [g Hg].
  destruct (sky_frame env lm s size g Hsize Hg) as (s' & Hrun & _).
  now exists s'.
Qed.

(** X5.  A hand that holds still pulls the pointer to the mirrored palm
    centre geometrically: after [n] callbacks on the same 21-point frame
    the pointer is at 0.7^n of its first distance from [(1 - c.x, c.y)],
    in each coordinate, whatever the gestures do. *)
Theorem pointer_converges (lm : LandmarkFrame) (c : Point2.t) :
  length lm = 21%nat ->
  getPalmCenter lm = Some c ->
  (forall (envs : list Tree.Env) (s : Tree.State),
      exists s',
        run treeFrame (map (fun env => (env, lm)) envs) s = Ok s'
        /\ Point2.x (Tree.smoothedPos s') - (1 - Point2.x c)
           = 0.7 ^ length envs
             * (Point2.x (Tree.smoothedPos s) - (1 - Point2.x c))
        /\ Point2.y (Tree.smoothedPos s') - Point2.y c
           = 0.7 ^ length envs * (Point2.y (Tree.smoothedPos s) - Point2.y c))
  /\ (forall (envs : list Starry.Env) (s : Starry.State),
         exists s',
           run skyFrame (map (fun env => (env, lm)) envs) s = Ok s'
           /\ Point2.x (Starry.smoothedPos s') - (1 - Point2.x c)
              = 0.7 ^ length envs
                * (Point2.x (Starry.smoothedPos s) - (1 - Point2.x c))
           /\ Point2.y (Starry.smoothedPos s') - Point2.y c
              = 0.7 ^ length envs
                * (Point2.y (Starry.smoothedPos s) - Point2.y c)).
Proof.
  intros Hlen Hc. split.
  - induction envs as [|env envs IH]; intros s.
    + exists s. cbn. repeat split; ring.
    + destruct (tree_frame_returns env lm s) as [s1 Hrun]; [lia|].
      pose proof (tree_pointer_after env lm s) as Hp.
      rewrite Hrun, Hc in Hp. cbn [storeOf] in Hp.
      destruct (IH s1) as (s' & Hrun' & Hx & Hy).
      exists s'. cbn [map run length]. unfold treeFrame at 1.
      cbn [fst snd]. rewrite Hrun. split; [exact Hrun'|].
      rewrite Hx, Hy, Hp. cbn [Point2.x Point2.y pow].
      generalize (0.7 ^ length envs). intros q. split; nra.
  - induction envs as [|env envs IH]; intros s.
    + exists s. cbn. repeat split; ring.
    + destruct (sky_frame_returns env lm s) as [s1 Hrun]; [lia|].
      pose proof (sky_pointer_after env lm s) as Hp.
      rewrite Hrun, Hc in Hp. cbn [storeOf] in Hp.
      destruct (IH s1) as (s' & Hrun' & Hx & Hy).
      exists s'. cbn [map run length]. unfold skyFrame at 1.
      cbn [fst snd]. rewrite Hrun. split; [exact Hrun'|].
      rewrite Hx, Hy, Hp. cbn [Point2.x Point2.y pow].
      generalize (0.7 ^ length envs). intros q. split; nra.
Qed.

Lemma pointer_converges_witness :
  (exists s',
      run treeFrame (map (fun env => (env, pinchFrame)) [quietTree; quietTree])
        (Tree.initial []) = Ok s'
      /\ Point2.x (Tree.smoothedPos s') - (1 - 0.5) = 0.7 ^ 2 * (0.5 - (1 - 0.5))
      /\ Point2.y (Tree.smoothedPos s') - 0.6 = 0.7 ^ 2 * (0.5 - 0.6))
  /\ (exists s',
         run skyFrame (map (fun env => (env, pinchFrame)) [quietSky; quietSky])
           (Starry.initial []) = Ok s'
         /\ Point2.x (Starry.smoothedPos s') - (1 - 0.5)
            = 0.7 ^ 2 * (0.5 - (1 - 0.5))
         /\ Point2.y (Starry.smoothedPos s') - 0.6 = 0.7 ^ 2 * (0.5 - 0.6)).
Proof.
  destruct (pointer_converges pinchFrame (Point2.mk 0.5 0.6) eq_refl)
    as [HT HS].
  { unfold getPalmCenter. cbn. f_equal. f_equal; lra. }
  split.
  - exact (HT [quietTree; quietTree] (Tree.initial [])).
  - exact (HS [quietSky; quietSky] (Starry.initial [])).
Defined.

(** ** Bounds the pipeline keeps *)






















(** *** Dragging excludes auto-rotation *)






Lemma tree_inertia_flags (s : Tree.State) :
  Tree.isGestureActive (Tree.applyGestureInertia s) = Tree.isGestureActive s
  /\ Tree.autoRotate (Tree.applyGestureInertia s) = Tree.autoRotate s.
Proof.
  unfold Tree.applyGestureInertia. cbv zeta.
  destruct (negb (Tree.isGestureActive s) && is_None (Tree.expandedPhoto s)
            && negb (Tree.isExploded s)); [|now split].
  destruct (gtb (Rabs (GestureVelocity.rotX (Tree.gestureVelocity s))) 0.0001
            || gtb (Rabs (GestureVelocity.rotY (Tree.gestureVelocity s)))
                 0.0001);
    cbn; break_all; now split.
Qed.

Lemma sky_inertia_flags (s : Starry.State) :
  Starry.isGestureActive (Starry.applyGestureInertia s)
  = Starry.isGestureActive s
  /\ Starry.autoRotate (Starry.applyGestureInertia s) = Starry.autoRotate s.
Proof.
  unfold Starry.applyGestureInertia. cbv zeta.
  destruct (negb (Starry.isGestureActive s)); [|now split].
  destruct (gtb (Rabs (GestureVelocity.rotX (Starry.gestureVelocity s)))
                0.0001
            || gtb (Rabs (GestureVelocity.rotY (Starry.gestureVelocity s)))
                 0.0001);
    cbn; break_all; now split.
Qed.


(** ** Coasting ends *)

Lemma decays_below (m c q : R) :
  0 <= m -> 0 < c -> 0 < q < 1 -> exists n : nat, m * q ^ n <= c.
Proof.
  intros Hm Hc Hq.
  assert (Hy : 0 < c / (m + 1)) by (apply Rdiv_lt_0_compat; lra).
  destruct (pow_lt_1_zero q) with (y := c / (m + 1)) as [N HN];
    [rewrite Rabs_pos_eq; lra | exact Hy |].
  exists N. specialize (HN N (Nat.le_refl N)).
  assert (Hpow : 0 < q ^ N) by (apply pow_lt; lra).
  rewrite Rabs_pos_eq in HN by lra.
  assert (Hle : m * q ^ N <= m * (c / (m + 1)))
    by (apply Rmult_le_compat_l; lra).
  assert (Hfrac : m * (c / (m + 1)) <= c).
  { unfold Rdiv. rewrite <- Rmult_assoc.
    apply Rle_trans with ((m + 1) * c * / (m + 1)).
    - apply Rmult_le_compat_r; [left; apply Rinv_0_lt_compat; lra | nra].
    - right. field. lra. }
  lra.
Qed.

Lemma pow_le_one (q : R) (n : nat) : 0 <= q <= 1 -> q ^ n <= 1.
Proof. intros H. rewrite <- (pow1 n). now apply pow_incr. Qed.

Section Settling.

Variable St : Type.
Variable frame : St -> St.
Variable enabled : St -> Prop.
Variables rotX rotY zoom : St -> R.

Hypothesis enabled_kept : forall s, enabled s -> enabled (frame s).
Hypothesis rotation_moving : forall s,
  enabled s -> Rabs (rotX s) > 0.0001 \/ Rabs (rotY s) > 0.0001 ->
  rotX (frame s) = rotX s * 0.95 /\ rotY (frame s) = rotY s * 0.95.
Hypothesis rotation_rest : forall s,
  Rabs (rotX s) <= 0.0001 -> Rabs (rotY s) <= 0.0001 ->
  rotX (frame s) = rotX s /\ rotY (frame s) = rotY s.
Hypothesis zoom_moving : forall s,
  enabled s -> Rabs (zoom s) > 0.001 -> zoom (frame s) = zoom s * 0.92.
Hypothesis zoom_rest : forall s,
  Rabs (zoom s) <= 0.001 -> zoom (frame s) = zoom s.

Lemma rotation_rest_kept (j : nat) (s : St) :
  Rabs (rotX s) <= 0.0001 -> Rabs (rotY s) <= 0.0001 ->
  Rabs (rotX (iterate frame j s)) <= 0.0001
  /\ Rabs (rotY (iterate frame j s)) <= 0.0001.
Proof.
  revert s. induction j as [|j IH]; intros s Hx Hy; [now split|].
  simpl. destruct (rotation_rest s Hx Hy) as [Ex Ey].
  apply IH; [now rewrite Ex | now rewrite Ey].
Qed.

Lemma zoom_rest_kept (j : nat) (s : St) :
  Rabs (zoom s) <= 0.001 -> Rabs (zoom (iterate frame j s)) <= 0.001.
Proof.
  revert s. induction j as [|j IH]; intros s Hz; [exact Hz|].
  simpl. apply IH. now rewrite (zoom_rest s Hz).
Qed.

Lemma rotation_settles_within (n : nat) :
  forall s, enabled s ->
    Rabs (rotX s) * 0.95 ^ n <= 0.0001 ->
    Rabs (rotY s) * 0.95 ^ n <= 0.0001 ->
    Rabs (rotX (iterate frame n s)) <= 0.0001
    /\ Rabs (rotY (iterate frame n s)) <= 0.0001.
Proof.
  induction n as [|n IH]; intros s Hen Hx Hy.
  - simpl in *. split; lra.
  - destruct (Rle_dec (Rabs (rotX s)) 0.0001) as [Hrx|Hrx];
      [destruct (Rle_dec (Rabs (rotY s)) 0.0001) as [Hry|Hry]|].
    + now apply rotation_rest_kept.
    + destruct (rotation_moving s Hen) as [Ex Ey]; [right; lra|].
      simpl iterate. apply IH; [now apply enabled_kept | |];
        rewrite ?Ex, ?Ey, Rabs_decay by lra; assumption.
    + destruct (rotation_moving s Hen) as [Ex Ey]; [left; lra|].
      simpl iterate. apply IH; [now apply enabled_kept | |];
        rewrite ?Ex, ?Ey, Rabs_decay by lra; assumption.
Qed.

Lemma zoom_settles_within (n : nat) :
  forall s, enabled s ->
    Rabs (zoom s) * 0.92 ^ n <= 0.001 ->
    Rabs (zoom (iterate frame n s)) <= 0.001.
Proof.
  induction n as [|n IH]; intros s Hen Hz.
  - simpl in *. lra.
  - destruct (Rle_dec (Rabs (zoom s)) 0.001) as [Hr|Hr].
    + now apply zoom_rest_kept.
    + assert (Hm : Rabs (zoom s) > 0.001) by lra.
      pose proof (zoom_moving s Hen Hm) as Ez.
      simpl iterate. apply IH; [now apply enabled_kept|].
      rewrite Ez, Rabs_decay by lra. assumption.
Qed.

Lemma iterate_plus (a b : nat) (s : St) :
  iterate frame (a + b) s = iterate frame b (iterate frame a s).
Proof. revert s. induction a as [|a IH]; intros s; simpl; auto. Qed.

Lemma coasting_settles (s : St) :
  enabled s ->
  exists k : nat, forall j : nat, (k <= j)%nat ->
    Rabs (rotX (iterate frame j s)) <= 0.0001
    /\ Rabs (rotY (iterate frame j s)) <= 0.0001
    /\ Rabs (zoom (iterate frame j s)) <= 0.001.
Proof.
  intros Hen.
  destruct (decays_below (Rabs (rotX s)) 0.0001 0.95) as [nx Hnx];
    [apply Rabs_pos | lra | lra |].
  destruct (decays_below (Rabs (rotY s)) 0.0001 0.95) as [ny Hny];
    [apply Rabs_pos | lra | lra |].
  destruct (decays_below (Rabs (zoom s)) 0.001 0.92) as [nz Hnz];
    [apply Rabs_pos | lra | lra |].
  set (n := (nx + ny)%nat).
  assert (Hx : Rabs (rotX s) * 0.95 ^ n <= 0.0001).
  { unfold n. rewrite pow_add.
    assert (0 < 0.95 ^ ny <= 1)
      by (split; [apply pow_lt; lra | apply pow_le_one; lra]).
    pose proof (Rabs_pos (rotX s)).
    assert (0 < 0.95 ^ nx) by (apply pow_lt; lra). nra. }
  assert (Hy : Rabs (rotY s) * 0.95 ^ n <= 0.0001).
  { unfold n. rewrite pow_add.
    assert (0 < 0.95 ^ nx <= 1)
      by (split; [apply pow_lt; lra | apply pow_le_one; lra]).
    pose proof (Rabs_pos (rotY s)).
    assert (0 < 0.95 ^ ny) by (apply pow_lt; lra). nra. }
  exists (n + nz)%nat. intros j Hj.
  assert (Hrot : Rabs (rotX (iterate frame j s)) <= 0.0001
                 /\ Rabs (rotY (iterate frame j s)) <= 0.0001).
  { replace j with (n + (j - n))%nat by lia. rewrite iterate_plus.
    destruct (rotation_settles_within n s Hen Hx Hy) as [Rx Ry].
    now apply rotation_rest_kept. }
  destruct Hrot as [Rx Ry]. split; [exact Rx|]. split; [exact Ry|].
  replace j with (nz + (j - nz))%nat by lia. rewrite iterate_plus.
  apply zoom_rest_kept. now apply zoom_settles_within.
Qed.

End Settling.

Lemma tree_inertia_at_rest (s : Tree.State) :
  Rabs (treeRotX s) <= 0.0001 -> Rabs (treeRotY s) <= 0.0001 ->
  Rabs (treeZoom s) <= 0.001 ->
  Tree.applyGestureInertia s = s.
Proof.
  unfold treeRotX, treeRotY, treeZoom. intros Hx Hy Hz.
  apply gtb_false in Hx, Hy, Hz.
  unfold Tree.applyGestureInertia. rewrite Hx, Hy. cbn. rewrite Hz.
  now destruct (negb (Tree.isGestureActive s) && _ && _).
Qed.

Lemma sky_inertia_at_rest (s : Starry.State) :
  Rabs (skyRotX s) <= 0.0001 -> Rabs (skyRotY s) <= 0.0001 ->
  Rabs (skyZoom s) <= 0.001 ->
  Starry.applyGestureInertia s = s.
Proof.
  unfold skyRotX, skyRotY, skyZoom. intros Hx Hy Hz.
  apply gtb_false in Hx, Hy, Hz.
  unfold Starry.applyGestureInertia. rewrite Hx, Hy. cbn. rewrite Hz.
  now destruct (negb (Starry.isGestureActive s)).
Qed.

(** X8.  Coasting ends: when the integrator runs (no gesture active and,
    for the tree, no photo expanded and the tree not exploded), there is a
    number of frames after which the three velocities are at or below
    their cutoffs and a frame of the integrator changes nothing at all,
    for ever. *)
Theorem inertia_settles :
  (forall s : Tree.State,
      Tree.isGestureActive s = false ->
      Tree.expandedPhoto s = None ->
      Tree.isExploded s = false ->
      exists k : nat, forall j : nat, (k <= j)%nat ->
        let sj := iterate Tree.applyGestureInertia j s in
        Rabs (treeRotX sj) <= 0.0001 /\ Rabs (treeRotY sj) <= 0.0001
        /\ Rabs (treeZoom sj) <= 0.001
        /\ Tree.applyGestureInertia sj = sj)
  /\ (forall s : Starry.State,
         Starry.isGestureActive s = false ->
         exists k : nat, forall j : nat, (k <= j)%nat ->
           let sj := iterate Starry.applyGestureInertia j s in
           Rabs (skyRotX sj) <= 0.0001 /\ Rabs (skyRotY sj) <= 0.0001
           /\ Rabs (skyZoom sj) <= 0.001
           /\ Starry.applyGestureInertia sj = sj).
Proof.
  split.
  - intros s Ha Hp He.
    assert (Hen : treeInertiaEnabled s = true)
      by (unfold treeInertiaEnabled; now rewrite Ha, Hp, He).
    destruct (coasting_settles Tree.State Tree.applyGestureInertia
                (fun t => treeInertiaEnabled t = true)
                treeRotX treeRotY treeZoom) with (s := s) as [k Hk].
    + intros t Ht. now rewrite tree_inertia_enabled.
    + intros t Ht Hm.
      destruct (tree_inertia_rotation_moving t Ht Hm) as (Hx & Hy & _).
      now split.
    + intros t Hx Hy.
      destruct (tree_inertia_rotation_rest t Hx Hy) as (Ex & Ey & _).
      now split.
    + intros t Ht Hm. now apply tree_inertia_zoom_moving.
    + intros t Hz. now apply tree_inertia_zoom_rest.
    + exact Hen.
    + exists k. intros j Hj. cbv zeta.
      destruct (Hk j Hj) as (Rx & Ry & Rz).
      repeat split; try assumption. now apply tree_inertia_at_rest.
  - intros s Ha.
    destruct (coasting_settles Starry.State Starry.applyGestureInertia
                (fun t => Starry.isGestureActive t = false)
                skyRotX skyRotY skyZoom) with (s := s) as [k Hk].
    + intros t Ht. now rewrite sky_inertia_enabled.
    + intros t Ht Hm.
      destruct (sky_inertia_rotation_moving t Ht Hm) as (Hx & Hy & _).
      now split.
    + intros t Hx Hy.
      destruct (sky_inertia_rotation_rest t Hx Hy) as (Ex & Ey & _).
      now split.
    + intros t Ht Hm. now apply sky_inertia_zoom_moving.
    + intros t Hz. now apply sky_inertia_zoom_rest.
    + exact Ha.
    + exists k. intros j Hj. cbv zeta.
      destruct (Hk j Hj) as (Rx & Ry & Rz).
      repeat split; try assumption. now apply sky_inertia_at_rest.
Qed.

Lemma inertia_settles_witness :
  (exists k : nat, forall j : nat, (k <= j)%nat ->
      let sj := iterate Tree.applyGestureInertia j
                  (coastingTree 0.1 0 0.5 false) in
      Rabs (treeRotX sj) <= 0.0001 /\ Rabs (treeRotY sj) <= 0.0001
      /\ Rabs (treeZoom sj) <= 0.001
      /\ Tree.applyGestureInertia sj = sj)
  /\ (exists k : nat, forall j : nat, (k <= j)%nat ->
         let sj := iterate Starry.applyGestureInertia j
                     (coastingSky 0.1 0 0.5) in
         Rabs (skyRotX sj) <= 0.0001 /\ Rabs (skyRotY sj) <= 0.0001
         /\ Rabs (skyZoom sj) <= 0.001
         /\ Starry.applyGestureInertia sj = sj).
Proof.
  split.
  - exact (proj1 inertia_settles (coastingTree 0.1 0 0.5 false)
             eq_refl eq_refl eq_refl).
  - exact (proj2 inertia_settles (coastingSky 0.1 0 0.5) eq_refl).
Defined.

(** *** How far the view coasts *)

Section CoastingDistance.

Variable St : Type.
Variable frame : St -> St.
Variables velocity angle : St -> R.

Hypothesis frame_moves_or_rests : forall s,
  (velocity (frame s) = velocity s * 0.95
   /\ angle (frame s) = angle s + velocity s)
  \/ (velocity (frame s) = velocity s /\ angle (frame s) = angle s).

Lemma coasting_distance (k : nat) :
  forall s,
    Rabs (angle (iterate frame k s) - angle s)
    <= 20 * (Rabs (velocity s) - Rabs (velocity (iterate frame k s))).
Proof.
  induction k as [|k IH]; intros s.
  - simpl. replace (angle s - angle s) with 0 by ring.
    rewrite Rabs_R0. lra.
  - simpl iterate. specialize (IH (frame s)).
    destruct (frame_moves_or_rests s) as [[Ev Ea]|[Ev Ea]];
      rewrite Ev, Ea in IH.
    + rewrite Rabs_mult, (Rabs_pos_eq 0.95) in IH by lra.
      replace (angle (iterate frame k (frame s)) - angle s)
        with (angle (iterate frame k (frame s)) - (angle s + velocity s)
              + velocity s) by ring.
      pose proof (Rabs_triang
                    (angle (iterate frame k (frame s))
                     - (angle s + velocity s)) (velocity s)).
      lra.
    + exact IH.
Qed.

End CoastingDistance.

Lemma tree_inertia_turn (s : Tree.State) :
  (treeRotY (Tree.applyGestureInertia s) = treeRotY s * 0.95
   /\ Tree.treeGroup_rotation_y (Tree.applyGestureInertia s)
      = Tree.treeGroup_rotation_y s + treeRotY s)
  \/ (treeRotY (Tree.applyGestureInertia s) = treeRotY s
      /\ Tree.treeGroup_rotation_y (Tree.applyGestureInertia s)
         = Tree.treeGroup_rotation_y s).
Proof.
  unfold treeRotY, Tree.applyGestureInertia. cbv zeta.
  destruct (negb (Tree.isGestureActive s) && is_None (Tree.expandedPhoto s)
            && negb (Tree.isExploded s)); [|now right].
  destruct (gtb (Rabs (GestureVelocity.rotX (Tree.gestureVelocity s))) 0.0001
            || gtb (Rabs (GestureVelocity.rotY (Tree.gestureVelocity s)))
                 0.0001);
    cbn; break_all; [left|left|right|right]; now split.
Qed.

Lemma sky_inertia_turn (s : Starry.State) :
  (skyRotY (Starry.applyGestureInertia s) = skyRotY s * 0.95
   /\ Starry.starGroup_rotation_y (Starry.applyGestureInertia s)
      = Starry.starGroup_rotation_y s + skyRotY s)
  \/ (skyRotY (Starry.applyGestureInertia s) = skyRotY s
      /\ Starry.starGroup_rotation_y (Starry.applyGestureInertia s)
         = Starry.starGroup_rotation_y s).
Proof.
  unfold skyRotY, Starry.applyGestureInertia. cbv zeta.
  destruct (negb (Starry.isGestureActive s)); [|now right].
  destruct (gtb (Rabs (GestureVelocity.rotX (Starry.gestureVelocity s)))
                0.0001
            || gtb (Rabs (GestureVelocity.rotY (Starry.gestureVelocity s)))
                 0.0001);
    cbn; break_all; [left|left|right|right]; now split.
Qed.

(** X9.  Inertia turns the view by a bounded angle: over any number of
    frames of the integrator, from any store, the rotation about y moves
    by at most 20 times the magnitude of the velocity it starts with. *)
Theorem coasting_angle_is_bounded (k : nat) :
  (forall s : Tree.State,
      Rabs (Tree.treeGroup_rotation_y (iterate Tree.applyGestureInertia k s)
            - Tree.treeGroup_rotation_y s)
      <= 20 * Rabs (treeRotY s))
  /\ (forall s : Starry.State,
         Rabs (Starry.starGroup_rotation_y
                 (iterate Starry.applyGestureInertia k s)
               - Starry.starGroup_rotation_y s)
         <= 20 * Rabs (skyRotY s)).
Proof.
  split; intros s.
  - pose proof (coasting_distance Tree.State Tree.applyGestureInertia
                  treeRotY Tree.treeGroup_rotation_y tree_inertia_turn k s).
    pose proof (Rabs_pos (treeRotY (iterate Tree.applyGestureInertia k s))).
    lra.
  - pose proof (coasting_distance Starry.State Starry.applyGestureInertia
                  skyRotY Starry.starGroup_rotation_y sky_inertia_turn k s).
    pose proof (Rabs_pos (skyRotY (iterate Starry.applyGestureInertia k s))).
    lra.
Qed.

(** ** More on the V sign *)

Lemma tree_gap_mode (gap : list (Tree.Env * option (list LandmarkFrame))) :
  forall s : Tree.State,
    Forall (fun r => noHand (snd r) = true) gap ->
    exists s',
      run treeResults gap s = Ok s'
      /\ Tree.lastGesture s' = Tree.lastGesture s
      /\ Tree.isExploded s' = Tree.isExploded s
      /\ Tree.expandedPhoto s' = Tree.expandedPhoto s.
Proof.
  induction gap as [|[env r] rest IH]; intros s Hall.
  - exists s. now repeat split.
  - inversion Hall as [|x xs Hr Hrest]; subst. cbn [snd] in Hr.
    cbn [run]. unfold treeResults at 1. cbn [fst snd].
    rewrite (tree_no_hand env r s Hr).
    destruct (IH (Tree.set_autoRotate true (Tree.set_isGestureActive false s))
                Hrest) as (s' & Hrun & Hl & Hx & Hp).
    exists s'. now repeat split.
Qed.

Lemma sky_gap_mode (gap : list (Starry.Env * option (list LandmarkFrame))) :
  forall s : Starry.State,
    Forall (fun r => noHand (snd r) = true) gap ->
    exists s',
      run skyResults gap s = Ok s'
      /\ Starry.lastGesture s' = Starry.lastGesture s
      /\ Starry.isScattered s' = Starry.isScattered s.
Proof.
  induction gap as [|[env r] rest IH]; intros s Hall.
  - exists s. now repeat split.
  - inversion Hall as [|x xs Hr Hrest]; subst. cbn [snd] in Hr.
    cbn [run]. unfold skyResults at 1. cbn [fst snd].
    rewrite (sky_no_hand env r s Hr).
    destruct (IH (Starry.set_autoRotate true
                    (Starry.set_isGestureActive false s))
                Hrest) as (s' & Hrun & Hl & Hx).
    exists s'. now repeat split.
Qed.

(** X10.  Losing the hand does not re-arm the V sign: after a V_SIGN frame
    (which leaves [lastGesture] at V_SIGN), any number of results without a
    hand, and another V_SIGN frame, the mode flag is what it was before
    the gap. *)
Theorem hand_loss_keeps_v_sign_disarmed (lm : LandmarkFrame) :
  recognizeGesture lm = Some V_SIGN ->
  (forall (gap : list (Tree.Env * option (list LandmarkFrame)))
          (env : Tree.Env) (s : Tree.State),
      Forall (fun r => noHand (snd r) = true) gap ->
      Tree.lastGesture s = V_SIGN ->
      exists s1 s2,
        run treeResults gap s = Ok s1
        /\ Tree.onResults env (Some [lm]) s1 = Ok s2
        /\ Tree.isExploded s2 = Tree.isExploded s)
  /\ (forall (gap : list (Starry.Env * option (list LandmarkFrame)))
             (env : Starry.Env) (s : Starry.State),
         Forall (fun r => noHand (snd r) = true) gap ->
         Starry.lastGesture s = V_SIGN ->
         exists s1 s2,
           run skyResults gap s = Ok s1
           /\ Starry.onResults env (Some [lm]) s1 = Ok s2
           /\ Starry.isScattered s2 = Starry.isScattered s).
Proof.
  intros Hv. split.
  - intros gap env s Hgap Hlast.
    destruct (tree_gap_mode gap s Hgap) as (s1 & Hrun & Hl & Hx & _).
    destruct (tree_frame_v_sign env lm s1 Hv) as (s2 & Hrun2 & _ & _ & Hx2).
    rewrite Hl, Hlast in Hx2. cbn in Hx2.
    exists s1, s2. cbn [Tree.onResults]. repeat split; congruence.
  - intros gap env s Hgap Hlast.
    destruct (sky_gap_mode gap s Hgap) as (s1 & Hrun & Hl & Hx).
    destruct (sky_frame_v_sign env lm s1 Hv) as (s2 & Hrun2 & _ & Hx2).
    rewrite Hl, Hlast in Hx2. cbn in Hx2.
    exists s1, s2. cbn [Starry.onResults]. repeat split; congruence.
Qed.

Lemma hand_loss_keeps_v_sign_disarmed_witness :
  (exists s1 s2,
      run treeResults [(quietTree, None); (quietTree, Some [])]
        (Tree.set_lastGesture V_SIGN (Tree.initial [])) = Ok s1
      /\ Tree.onResults quietTree (Some [vSignFrame]) s1 = Ok s2
      /\ Tree.isExploded s2 = false)
  /\ (exists s1 s2,
         run skyResults [(quietSky, None); (quietSky, Some [])]
           (Starry.set_lastGesture V_SIGN (Starry.initial [])) = Ok s1
         /\ Starry.onResults quietSky (Some [vSignFrame]) s1 = Ok s2
         /\ Starry.isScattered s2 = false).
Proof.
  destruct (hand_loss_keeps_v_sign_disarmed vSignFrame vSignFrame_is_v_sign)
    as [HT HS].
  split.
  - apply (HT [(quietTree, None); (quietTree, Some [])] quietTree
              (Tree.set_lastGesture V_SIGN (Tree.initial []))).
    + repeat constructor.
    + reflexivity.
  - apply (HS [(quietSky, None); (quietSky, Some [])] quietSky
              (Starry.set_lastGesture V_SIGN (Starry.initial []))).
    + repeat constructor.
    + reflexivity.
Defined.

Lemma tree_mapper_mode (env : Tree.Env) (g : Gesture) (p : Point2.t)
    (s : Tree.State) :
  g <> FIST -> g <> V_SIGN -> g <> POINT ->
  Tree.isExploded (Tree.processContinuousGesture env g p s)
  = Tree.isExploded s
  /\ Tree.expandedPhoto (Tree.processContinuousGesture env g p s)
     = Tree.expandedPhoto s.
Proof.
  intros Hf Hv Hp.
  unfold Tree.processContinuousGesture, Tree.rotateTree,
    Tree.checkPhotoHover, Tree.closeExpandedPhoto.
  destruct g; try contradiction; cbn;
    destruct (Tree.rayHit env); destruct (Tree.expandedPhoto s) eqn:Ep; cbn;
    rewrite ?Ep; cbn; break_all; now split.
Qed.

Lemma sky_mapper_mode (env : Starry.Env) (g : Gesture) (p : Point2.t)
    (s : Starry.State) :
  g <> FIST -> g <> V_SIGN ->
  Starry.isScattered (Starry.processContinuousGesture env g p s)
  = Starry.isScattered s.
Proof.
  intros Hf Hv.
  unfold Starry.processContinuousGesture, Starry.rotateSky,
    Starry.checkConstellationHover.
  destruct g; try contradiction; cbn;
    destruct (Starry.rayHit env); cbn; break_all; reflexivity.
Qed.

Lemma tree_frame_mode (env : Tree.Env) (lm : LandmarkFrame) (g : Gesture)
    (s : Tree.State) :
  recognizeGesture lm = Some g ->
  g <> FIST -> g <> V_SIGN -> g <> POINT ->
  exists s',
    Tree.handleGestures env lm s = Ok s'
    /\ Tree.lastGesture s' = g
    /\ Tree.isExploded s' = Tree.isExploded s
    /\ Tree.expandedPhoto s' = Tree.expandedPhoto s.
Proof.
  intros Hg Hf Hv Hp.
  pose proof (recognized_frame_length lm g Hg) as Hlen.
  destruct (getPalmCenter_in_range lm) as [c Hc]; [lia|].
  destruct (getHandSize_in_range lm Hlen) as [size Hsize].
  unfold Tree.handleGestures. rewrite Hc, Hsize, Hg.
  eexists. split; [reflexivity|]. cbn.
  split; [reflexivity|].
  match goal with
  | |- context [Tree.processContinuousGesture ?e ?g' ?p ?t] =>
      destruct (tree_mapper_mode e g' p t Hf Hv Hp) as [K1 K2];
      rewrite K1, K2
  end.
  destruct (Gesture_eqb g OPEN_PALM && _);
    autorewrite with tree_keeps;
    destruct (Tree.handSizeCalibrated s); cbn; now split.
Qed.

Lemma sky_frame_mode (env : Starry.Env) (lm : LandmarkFrame) (g : Gesture)
    (s : Starry.State) :
  recognizeGesture lm = Some g ->
  g <> FIST -> g <> V_SIGN ->
  exists s',
    Starry.handleGestures env lm s = Ok s'
    /\ Starry.lastGesture s' = g
    /\ Starry.isScattered s' = Starry.isScattered s.
Proof.
  intros Hg Hf Hv.
  pose proof (recognized_frame_length lm g Hg) as Hlen.
  destruct (getPalmCenter_in_range lm) as [c Hc]; [lia|].
  destruct (getHandSize_in_range lm Hlen) as [size Hsize].
  unfold Starry.handleGestures. rewrite Hc, Hsize, Hg.
  eexists. split; [reflexivity|]. cbn.
  split; [reflexivity|].
  rewrite (sky_mapper_mode _ _ _ _ Hf Hv).
  destruct (Gesture_eqb g OPEN_PALM);
    autorewrite with sky_keeps;
    destruct (Starry.handSizeCalibrated s); cbn; reflexivity.
Qed.

(** X11.  Making the V sign twice undoes it: a V_SIGN frame, a frame of
    another gesture that is neither FIST nor (for the tree) POINT, and a
    V_SIGN frame again leave the mode flag where it started; for the tree
    this needs no photo expanded at the start. *)
Theorem v_sign_twice_restores_the_mode (lmV lmG : LandmarkFrame)
    (g : Gesture) :
  recognizeGesture lmV = Some V_SIGN ->
  recognizeGesture lmG = Some g ->
  g <> FIST -> g <> V_SIGN ->
  (forall (e1 e2 e3 : Tree.Env) (s : Tree.State),
      g <> POINT ->
      Tree.lastGesture s <> V_SIGN ->
      Tree.expandedPhoto s = None ->
      exists s1 s3,
        Tree.handleGestures e1 lmV s = Ok s1
        /\ Tree.isExploded s1 = negb (Tree.isExploded s)
        /\ run treeFrame [(e2, lmG); (e3, lmV)] s1 = Ok s3
        /\ Tree.isExploded s3 = Tree.isExploded s)
  /\ (forall (e1 e2 e3 : Starry.Env) (s : Starry.State),
         Starry.lastGesture s <> V_SIGN ->
         exists s1 s3,
           Starry.handleGestures e1 lmV s = Ok s1
           /\ Starry.isScattered s1 = negb (Starry.isScattered s)
           /\ run skyFrame [(e2, lmG); (e3, lmV)] s1 = Ok s3
           /\ Starry.isScattered s3 = Starry.isScattered s).
Proof.
  intros HV HG Hf Hv. split.
  - intros e1 e2 e3 s Hp Hlast Hphoto.
    apply Gesture_eqb_neq in Hlast.
    destruct (tree_frame_v_sign e1 lmV s HV) as (s1 & R1 & L1 & P1 & X1).
    rewrite Hlast, Hphoto in X1. cbn in X1.
    destruct (tree_frame_mode e2 lmG g s1 HG Hf Hv Hp)
      as (s2 & R2 & L2 & X2 & P2).
    destruct (tree_frame_v_sign e3 lmV s2 HV) as (s3 & R3 & _ & _ & X3).
    assert (Eg : Gesture_eqb g V_SIGN = false) by now apply Gesture_eqb_neq.
    rewrite L2, Eg, P2, P1, Hphoto, X2, X1 in X3. cbn in X3.
    exists s1, s3. split; [exact R1|]. split; [exact X1|].
    cbn [run]. unfold treeFrame. cbn [fst snd]. rewrite R2, R3.
    split; [reflexivity|]. rewrite X3. apply negb_involutive.
  - intros e1 e2 e3 s Hlast.
    apply Gesture_eqb_neq in Hlast.
    destruct (sky_frame_v_sign e1 lmV s HV) as (s1 & R1 & L1 & X1).
    rewrite Hlast in X1.
    destruct (sky_frame_mode e2 lmG g s1 HG Hf Hv) as (s2 & R2 & L2 & X2).
    destruct (sky_frame_v_sign e3 lmV s2 HV) as (s3 & R3 & _ & X3).
    assert (Eg : Gesture_eqb g V_SIGN = false) by now apply Gesture_eqb_neq.
    rewrite L2, Eg, X2, X1 in X3.
    exists s1, s3. split; [exact R1|]. split; [exact X1|].
    cbn [run]. unfold skyFrame. cbn [fst snd]. rewrite R2, R3.
    split; [reflexivity|]. rewrite X3. apply negb_involutive.
Qed.

Lemma v_sign_twice_restores_the_mode_witness :
  (exists s1 s3,
      Tree.handleGestures quietTree vSignFrame (Tree.initial []) = Ok s1
      /\ Tree.isExploded s1 = true
      /\ run treeFrame [(quietTree, openPalmFrame); (quietTree, vSignFrame)]
           s1 = Ok s3
      /\ Tree.isExploded s3 = false)
  /\ (exists s1 s3,
         Starry.handleGestures quietSky vSignFrame (Starry.initial []) = Ok s1
         /\ Starry.isScattered s1 = true
         /\ run skyFrame [(quietSky, openPalmFrame); (quietSky, vSignFrame)]
              s1 = Ok s3
         /\ Starry.isScattered s3 = false).
Proof.
  destruct (v_sign_twice_restores_the_mode vSignFrame openPalmFrame OPEN_PALM
              vSignFrame_is_v_sign openPalmFrame_is_open_palm)
    as [HT HS]; [discriminate | discriminate |].
  split.
  - apply (HT quietTree quietTree quietTree (Tree.initial []));
      [discriminate | discriminate | reflexivity].
  - apply (HS quietSky quietSky quietSky (Starry.initial [])). discriminate.
Defined.

(** ** The fist *)

Lemma tree_mapper_fist_shape (env : Tree.Env) (g : Gesture) (p : Point2.t)
    (s : Tree.State) :
  let s' := Tree.processContinuousGesture env g p s in
  (g = NONE -> Tree.isFistShape s' = false)
  /\ (g = OPEN_PALM -> Tree.expandedPhoto s = None ->
      Tree.isFistShape s' = false)
  /\ (g = FIST -> Tree.expandedPhoto s = None -> Tree.isExploded s = false ->
      Tree.isFistShape s' = true)
  /\ (g = PINCH \/ g = POINT \/ g = V_SIGN ->
      Tree.isFistShape s' = Tree.isFistShape s).
Proof.
  cbv zeta.
  unfold Tree.processContinuousGesture, Tree.pointAtPhoto, Tree.rotateTree,
    Tree.checkPhotoHover, Tree.closeExpandedPhoto, Tree.gatherParticles,
    Tree.explodeParticles, Tree.expandPhoto.
  destruct g; cbn;
    destruct (Tree.rayHit env); destruct (Tree.expandedPhoto s) eqn:Ep; cbn;
    rewrite ?Ep; cbn;
    destruct (Tree.isFistShape s) eqn:Ef; cbn; rewrite ?Ep; cbn;
    repeat split; intros; try discriminate; try reflexivity;
    repeat match goal with
           | H : _ \/ _ |- _ => destruct H
           | H : Tree.isExploded s = false |- _ => rewrite H in *; cbn in *
           end;
    try discriminate; try assumption; try reflexivity;
    break_all; cbn; rewrite ?Ef; try discriminate; reflexivity.
Qed.

(** A frame that goes through is the mapper applied to a store [t] that
    differs from the store before the frame only in the pointer, the hand
    size variables and the camera distance, followed by the three
    assignments that close [handleGestures]. *)
Lemma tree_frame_shape (env : Tree.Env) (lm : LandmarkFrame) (g : Gesture)
    (s : Tree.State) :
  recognizeGesture lm = Some g ->
  exists (t : Tree.State) (size : R),
    Tree.handleGestures env lm s
    = Ok (Tree.set_lastGesture g
            (Tree.set_lastHandSize size
               (Tree.set_lastHandPos
                  (Point2.mk
                     (Point2.x (Tree.smoothedPos
                        (Tree.processContinuousGesture env g
                           (Tree.smoothedPos t) t)))
                     (Point2.y (Tree.smoothedPos
                        (Tree.processContinuousGesture env g
                           (Tree.smoothedPos t) t))))
                  (Tree.processContinuousGesture env g
                     (Tree.smoothedPos t) t))))
    /\ Tree.expandedPhoto t = Tree.expandedPhoto s
    /\ Tree.selectedPhoto t = Tree.selectedPhoto s
    /\ Tree.isExploded t = Tree.isExploded s
    /\ Tree.isFistShape t = Tree.isFistShape s
    /\ Tree.lastGesture t = Tree.lastGesture s
    /\ Tree.gestureStartTime t = Tree.gestureStartTime s
    /\ Tree.isGestureActive t = Tree.isGestureActive s
    /\ Tree.autoRotate t = Tree.autoRotate s
    /\ Tree.gestureVelocity t = Tree.gestureVelocity s
    /\ Tree.lastHandPos t = Tree.lastHandPos s
    /\ Tree.treeGroup_rotation_x t = Tree.treeGroup_rotation_x s
    /\ Tree.treeGroup_rotation_y t = Tree.treeGroup_rotation_y s
    /\ Tree.particles t = Tree.particles s
    /\ Tree.closingAnimations t = Tree.closingAnimations s.
Proof.
  intros Hg. pose proof (recognized_frame_length lm g Hg) as Hlen.
  destruct (getPalmCenter_in_range lm) as [c Hc]; [lia|].
  destruct (getHandSize_in_range lm Hlen) as [size Hsize].
  unfold Tree.handleGestures. rewrite Hc, Hsize, Hg. cbv zeta.
  eexists. exists size. split; [reflexivity|].
  unfold Tree.applyHandDistanceZoom.
  destruct (Gesture_eqb g OPEN_PALM && _);
    destruct (Tree.handSizeCalibrated s) eqn:E;
    cbn; rewrite ?E; cbn; rewrite ?E; cbn; repeat split; reflexivity.
Qed.

(** X12.  The sphere shape of the tree: a FIST frame turns it on (no photo
    expanded, tree not exploded); a NONE frame, or an OPEN_PALM frame with
    no photo expanded, turns it off; PINCH, POINT and V_SIGN frames leave
    it as it is, so opening the fist into one of them keeps the sphere. *)
Theorem sphere_shape_follows_the_fist (env : Tree.Env) (lm : LandmarkFrame)
    (g : Gesture) (s : Tree.State) :
  recognizeGesture lm = Some g ->
  exists s',
    Tree.handleGestures env lm s = Ok s'
    /\ (g = NONE -> Tree.isFistShape s' = false)
    /\ (g = OPEN_PALM -> Tree.expandedPhoto s = None ->
        Tree.isFistShape s' = false)
    /\ (g = FIST -> Tree.expandedPhoto s = None ->
        Tree.isExploded s = false -> Tree.isFistShape s' = true)
    /\ (g = PINCH \/ g = POINT \/ g = V_SIGN ->
        Tree.isFistShape s' = Tree.isFistShape s).
Proof.
  intros Hg.
  destruct (tree_frame_shape env lm g s Hg)
    as (t & size & Hrun & Ep & _ & Ex & Ef & _).
  eexists. split; [exact Hrun|]. cbn.
  pose proof (tree_mapper_fist_shape env g (Tree.smoothedPos t) t) as K.
  cbv zeta in K. rewrite Ep, Ex, Ef in K. exact K.
Qed.

Lemma sizedFrame_is_fist (size : R) :
  0.06 <= size -> recognizeGesture (sizedFrame size) = Some FIST.
Proof.
  intros Hs. unfold recognizeGesture, isExtended. cbn.
  decide_ltb. cbn.
  assert (Hfar : ltb (hypot (0 - size) (0 - 0)) 0.06 = false).
  { apply ltb_false. unfold hypot. apply sqrt_ge_bound; nra. }
  now rewrite Hfar.
Qed.

Lemma sphere_shape_follows_the_fist_witness :
  exists s',
    Tree.handleGestures quietTree (sizedFrame 0.6) (Tree.initial []) = Ok s'
    /\ Tree.isFistShape s' = true.
Proof.
  destruct (sphere_shape_follows_the_fist quietTree (sizedFrame 0.6) FIST
              (Tree.initial [])) as (s' & Hrun & _ & _ & Hfist & _).
  { apply sizedFrame_is_fist. lra. }
  exists s'. split; [exact Hrun|]. now apply Hfist.
Defined.

Lemma tree_mapper_fist_gathers (env : Tree.Env) (p : Point2.t)
    (s : Tree.State) :
  Tree.expandedPhoto s = None ->
  Tree.lastGesture s <> FIST ->
  Tree.isExploded (Tree.processContinuousGesture env FIST p s) = false.
Proof.
  intros Ep Hl. apply Gesture_eqb_neq in Hl.
  unfold Tree.processContinuousGesture, Tree.rotateTree,
    Tree.checkPhotoHover, Tree.gatherParticles.
  cbn. rewrite Ep.
  destruct (Tree.rayHit env); cbn; rewrite ?Ep; cbn;
    destruct (Tree.isExploded s) eqn:Ex; cbn; rewrite ?Hl, ?Ex; cbn;
    try reflexivity; break_all; cbn; auto.
Qed.

Lemma sky_mapper_fist_gathers (env : Starry.Env) (p : Point2.t)
    (s : Starry.State) :
  Starry.isScattered (Starry.processContinuousGesture env FIST p s) = false.
Proof.
  unfold Starry.processContinuousGesture, Starry.rotateSky,
    Starry.checkConstellationHover, Starry.gatherStars.
  cbn.
  destruct (Starry.rayHit env) as [n|]; cbn;
    [destruct (negb (option_nat_eqb (Starry.highlightedConstellation s)
                                    (Some n))); cbn|];
    destruct (Starry.isScattered s) eqn:Ex; cbn; rewrite ?Ex; reflexivity.
Qed.

Lemma sky_frame_shape (env : Starry.Env) (lm : LandmarkFrame) (g : Gesture)
    (s : Starry.State) :
  recognizeGesture lm = Some g ->
  exists (t : Starry.State) (size : R),
    Starry.handleGestures env lm s
    = Ok (Starry.set_lastGesture g
            (Starry.set_lastHandSize size
               (Starry.set_lastHandPos
                  (Point2.mk
                     (Point2.x (Starry.smoothedPos
                        (Starry.processContinuousGesture env g
                           (Starry.smoothedPos t) t)))
                     (Point2.y (Starry.smoothedPos
                        (Starry.processContinuousGesture env g
                           (Starry.smoothedPos t) t))))
                  (Starry.processContinuousGesture env g
                     (Starry.smoothedPos t) t))))
    /\ Starry.isScattered t = Starry.isScattered s
    /\ Starry.starVelocities t = Starry.starVelocities s
    /\ Starry.lastGesture t = Starry.lastGesture s
    /\ Starry.gestureStartTime t = Starry.gestureStartTime s
    /\ Starry.isGestureActive t = Starry.isGestureActive s
    /\ Starry.autoRotate t = Starry.autoRotate s
    /\ Starry.gestureVelocity t = Starry.gestureVelocity s
    /\ Starry.highlightedConstellation t = Starry.highlightedConstellation s
    /\ Starry.lastHandPos t = Starry.lastHandPos s
    /\ Starry.starGroup_rotation_x t = Starry.starGroup_rotation_x s
    /\ Starry.starGroup_rotation_y t = Starry.starGroup_rotation_y s.
Proof.
  intros Hg. pose proof (recognized_frame_length lm g Hg) as Hlen.
  destruct (getPalmCenter_in_range lm) as [c Hc]; [lia|].
  destruct (getHandSize_in_range lm Hlen) as [size Hsize].
  unfold Starry.handleGestures. rewrite Hc, Hsize, Hg. cbv zeta.
  eexists. exists size. split; [reflexivity|].
  unfold Starry.applyHandDistanceZoom.
  destruct (Gesture_eqb g OPEN_PALM);
    destruct (Starry.handSizeCalibrated s) eqn:E;
    cbn; rewrite ?E; cbn; rewrite ?E; cbn; repeat split; reflexivity.
Qed.

(** X13.  A fist gathers: after a FIST frame the sky is not scattered,
    and the tree is not exploded when no photo is expanded and the fist
    was not already held in the previous frame. *)
Theorem fist_gathers (lm : LandmarkFrame) :
  recognizeGesture lm = Some FIST ->
  (forall (env : Tree.Env) (s : Tree.State),
      Tree.expandedPhoto s = None ->
      Tree.lastGesture s <> FIST ->
      exists s',
        Tree.handleGestures env lm s = Ok s' /\ Tree.isExploded s' = false)
  /\ (forall (env : Starry.Env) (s : Starry.State),
         exists s',
           Starry.handleGestures env lm s = Ok s'
           /\ Starry.isScattered s' = false).
Proof.
  intros Hg. split.
  - intros env s Ep Hl.
    destruct (tree_frame_shape env lm FIST s Hg)
      as (t & size & Hrun & Ept & _ & _ & _ & Elt & _).
    eexists. split; [exact Hrun|]. cbn.
    apply tree_mapper_fist_gathers; congruence.
  - intros env s.
    destruct (sky_frame_shape env lm FIST s Hg) as (t & size & Hrun & _).
    eexists. split; [exact Hrun|]. cbn.
    apply sky_mapper_fist_gathers.
Qed.

Lemma fist_gathers_witness :
  (exists s',
      Tree.handleGestures quietTree (sizedFrame 0.6)
        (Tree.set_isExploded true (Tree.initial [])) = Ok s'
      /\ Tree.isExploded s' = false)
  /\ (exists s',
         Starry.handleGestures quietSky (sizedFrame 0.6)
           (Starry.set_isScattered true (Starry.initial [])) = Ok s'
         /\ Starry.isScattered s' = false).
Proof.
  destruct (fist_gathers (sizedFrame 0.6)) as [HT HS].
  { apply sizedFrame_is_fist. lra. }
  split.
  - apply (HT quietTree (Tree.set_isExploded true (Tree.initial [])));
      [reflexivity | discriminate].
  - apply (HS quietSky (Starry.set_isScattered true (Starry.initial []))).
Defined.

(** ** The explosion *)

Lemma explodeVelocities_spec (random : nat -> R) :
  (forall n, 0 <= random n < 1) ->
  forall (ps : list Tree.Particle) (i : nat),
    Forall2 (fun p p' =>
               Tree.position p' = Tree.position p
               /\ Tree.target p' = Tree.target p
               /\ Tree.sphereTarget p' = Tree.sphereTarget p
               /\ Tree.phase p' = Tree.phase p
               /\ Rabs (Vector3.x (Tree.velocity p')) <= 0.075
               /\ 0.05 <= Vector3.y (Tree.velocity p') < 0.15
               /\ Rabs (Vector3.z (Tree.velocity p')) <= 0.075)
            ps (Tree.explodeVelocities random i ps).
Proof.
  intros Hr. induction ps as [|p ps IH]; intros i; cbn; constructor.
  - cbn. repeat split; try reflexivity;
      match goal with
      | |- context [random ?n] => pose proof (Hr n)
      end; try apply Rabs_le; lra.
  - apply IH.
Qed.

(** X14.  The explosion throws every particle upward: with the draws of
    [Math.random] in [0, 1), each particle keeps its position and targets
    and gets a vertical velocity in [0.05, 0.15) and horizontal velocities
    of magnitude at most 0.075; the tree is flagged exploded and
    auto-rotation is switched off. *)
Theorem explosion_throws_upward (env : Tree.Env) (s : Tree.State) :
  (forall n, 0 <= Tree.random env n < 1) ->
  let s' := Tree.explodeParticles env s in
  Tree.isExploded s' = true
  /\ Tree.autoRotate s' = false
  /\ Forall2 (fun p p' =>
                Tree.position p' = Tree.position p
                /\ Tree.target p' = Tree.target p
                /\ Tree.sphereTarget p' = Tree.sphereTarget p
                /\ Tree.phase p' = Tree.phase p
                /\ Rabs (Vector3.x (Tree.velocity p')) <= 0.075
                /\ 0.05 <= Vector3.y (Tree.velocity p') < 0.15
                /\ Rabs (Vector3.z (Tree.velocity p')) <= 0.075)
             (Tree.particles s) (Tree.particles s').
Proof.
  intros Hr. cbv zeta. unfold Tree.explodeParticles. cbn.
  split; [reflexivity|]. split; [reflexivity|].
  now apply explodeVelocities_spec.
Qed.

Lemma explosion_throws_upward_witness :
  Tree.isExploded
    (Tree.explodeParticles quietTree (Tree.initial [restingParticle])) = true
  /\ Tree.autoRotate
       (Tree.explodeParticles quietTree (Tree.initial [restingParticle]))
     = false
  /\ Forall2 (fun p p' =>
                Tree.position p' = Tree.position p
                /\ Tree.target p' = Tree.target p
                /\ Tree.sphereTarget p' = Tree.sphereTarget p
                /\ Tree.phase p' = Tree.phase p
                /\ Rabs (Vector3.x (Tree.velocity p')) <= 0.075
                /\ 0.05 <= Vector3.y (Tree.velocity p') < 0.15
                /\ Rabs (Vector3.z (Tree.velocity p')) <= 0.075)
             (Tree.particles (Tree.initial [restingParticle]))
             (Tree.particles
                (Tree.explodeParticles quietTree
                   (Tree.initial [restingParticle]))).
Proof.
  apply (explosion_throws_upward quietTree (Tree.initial [restingParticle])).
  intros n. cbn. lra.
Defined.

Lemma length_ge_y (v : Vector3.t) : Rabs (Vector3.y v) <= Vector3.length v.
Proof.
  unfold Vector3.length. rewrite <- sqrt_Rsqr_abs. unfold Rsqr.
  apply sqrt_le_1_alt.
  pose proof (Rle_0_sqr (Vector3.x v)). pose proof (Rle_0_sqr (Vector3.z v)).
  unfold Rsqr in *. lra.
Qed.

Lemma length_ge_x (v : Vector3.t) : Rabs (Vector3.x v) <= Vector3.length v.
Proof.
  unfold Vector3.length. rewrite <- sqrt_Rsqr_abs. unfold Rsqr.
  apply sqrt_le_1_alt.
  pose proof (Rle_0_sqr (Vector3.y v)). pose proof (Rle_0_sqr (Vector3.z v)).
  unfold Rsqr in *. lra.
Qed.

(** X15.  The speed cap swallows the explosion at once: in the first
    particle update after an explosion (draws in [0, 1)), every particle
    is rescaled to the speed [maxSpeed] exactly. *)
Theorem explosion_is_capped_at_once (env : Tree.Env) (time : R)
    (s : Tree.State) :
  (forall n, 0 <= Tree.random env n < 1) ->
  Forall (fun p => Vector3.length (Tree.velocity p)
                   = Tree.CONFIG.physics.maxSpeed)
         (Tree.particles
            (Tree.updateParticlePhysics time (Tree.explodeParticles env s))).
Proof.
  intros Hr.
  assert (Hx : Tree.isExploded (Tree.explodeParticles env s) = true)
    by reflexivity.
  pose proof (explodeVelocities_spec (Tree.random env) Hr (Tree.particles s)
                0) as Hall.
  change (Tree.explodeVelocities (Tree.random env) 0 (Tree.particles s))
    with (Tree.particles (Tree.explodeParticles env s)) in Hall.
  unfold Tree.updateParticlePhysics. cbn [Tree.particles Tree.set_particles].
  rewrite Hx. apply Forall_map.
  induction Hall as [|p p' ps ps' Hp _ IH]; constructor; [|exact IH].
  destruct Hp as (_ & _ & _ & _ & _ & Hy & _).
  unfold Tree.updateParticle. cbv zeta. cbn [negb Tree.velocity].
  set (v := Vector3.mk _ _ _).
  assert (Hfast : Vector3.length v > Tree.CONFIG.physics.maxSpeed).
  { pose proof (length_ge_y v) as Hge. unfold v in Hge at 1.
    cbn [Vector3.y] in Hge.
    unfold Tree.CONFIG.physics.gravity, Tree.CONFIG.physics.damping,
      Tree.CONFIG.physics.maxSpeed in *.
    rewrite Rabs_pos_eq in Hge by lra. lra. }
  apply gtb_true in Hfast. rewrite Hfast.
  apply gtb_true in Hfast.
  unfold Tree.CONFIG.physics.maxSpeed in *.
  rewrite length_multiplyScalar.
  - field. lra.
  - apply Rmult_le_pos; [lra|]. apply Rlt_le, Rinv_0_lt_compat. lra.
Qed.

Lemma explosion_is_capped_at_once_witness :
  Forall (fun p => Vector3.length (Tree.velocity p)
                   = Tree.CONFIG.physics.maxSpeed)
         (Tree.particles
            (Tree.updateParticlePhysics 0
               (Tree.explodeParticles quietTree
                  (Tree.initial [restingParticle])))).
Proof.
  apply (explosion_is_capped_at_once quietTree 0
           (Tree.initial [restingParticle])).
  intros n. cbn. lra.
Defined.

(** ** Moves of the particles *)

Lemma updateParticle_move (time : R) (isFistShape isExploded : bool)
    (p : Tree.Particle) :
  displacement (Tree.position p)
    (Tree.position (Tree.updateParticle time isFistShape isExploded p))
  = Tree.velocity (Tree.updateParticle time isFistShape isExploded p).
Proof.
  unfold Tree.updateParticle, displacement. cbv zeta.
  cbn [Tree.position Tree.velocity Vector3.x Vector3.y Vector3.z].
  match goal with
  | |- _ = ?v => destruct v as [vx vy vz] eqn:E
  end.
  cbn [Vector3.x Vector3.y Vector3.z]. f_equal; ring.
Qed.

(** X16.  No particle jumps: a particle update moves every particle by at
    most [maxSpeed] = 0.015, in every mode, and keeps the number of
    particles and their targets. *)
Theorem particles_move_at_most_max_speed (time : R) (s : Tree.State) :
  Forall2 (fun p p' =>
             Vector3.length (displacement (Tree.position p)
                                          (Tree.position p'))
             <= 0.015
             /\ Tree.target p' = Tree.target p
             /\ Tree.sphereTarget p' = Tree.sphereTarget p)
          (Tree.particles s)
          (Tree.particles (Tree.updateParticlePhysics time s)).
Proof.
  unfold Tree.updateParticlePhysics. cbn [Tree.particles Tree.set_particles].
  induction (Tree.particles s) as [|p ps IH]; cbn [map]; constructor;
    [|exact IH].
  rewrite updateParticle_move. split; [apply updateParticle_speed|].
  unfold Tree.updateParticle. cbv zeta. now split.
Qed.

Lemma capped_component (m : R) (v : Vector3.t) :
  0 <= m ->
  let v' := if gtb (Vector3.length v) m
            then Vector3.multiplyScalar (m / Vector3.length v) v else v in
  Rabs (Vector3.x v') <= Rabs (Vector3.x v)
  /\ Rabs (Vector3.z v') <= Rabs (Vector3.z v).
Proof.
  intros Hm. cbv zeta. destruct (gtb (Vector3.length v) m) eqn:E;
    [|split; lra].
  apply gtb_true in E.
  assert (Hk : 0 <= m / Vector3.length v <= 1).
  { split.
    - apply Rmult_le_pos; [lra|]. apply Rlt_le, Rinv_0_lt_compat. lra.
    - apply Rmult_le_reg_r with (Vector3.length v); [lra|].
      unfold Rdiv. rewrite Rmult_assoc, Rinv_l by lra. lra. }
  unfold Vector3.multiplyScalar. cbn [Vector3.x Vector3.z].
  rewrite !Rabs_mult, (Rabs_pos_eq (m / Vector3.length v)) by lra.
  pose proof (Rabs_pos (Vector3.x v)). pose proof (Rabs_pos (Vector3.z v)).
  split; nra.
Qed.

Lemma exploded_horizontal_step (time : R) (isFistShape : bool)
    (p : Tree.Particle) :
  let p' := Tree.updateParticle time isFistShape true p in
  Rabs (Vector3.x (Tree.velocity p')) <= 0.95 * Rabs (Vector3.x (Tree.velocity p))
  /\ Rabs (Vector3.z (Tree.velocity p'))
     <= 0.95 * Rabs (Vector3.z (Tree.velocity p))
  /\ Vector3.x (Tree.position p')
     = Vector3.x (Tree.position p) + Vector3.x (Tree.velocity p')
  /\ Vector3.z (Tree.position p')
     = Vector3.z (Tree.position p) + Vector3.z (Tree.velocity p').
Proof.
  cbv zeta. unfold Tree.updateParticle. cbv zeta.
  cbn [negb Tree.velocity Tree.position Vector3.x Vector3.y Vector3.z].
  set (v := Vector3.mk _ _ _).
  pose proof (capped_component Tree.CONFIG.physics.maxSpeed v) as Hc.
  cbv zeta in Hc. destruct Hc as [Hx Hz];
    [unfold Tree.CONFIG.physics.maxSpeed; lra|].
  assert (Ex : Rabs (Vector3.x v)
               = 0.95 * Rabs (Vector3.x (Tree.velocity p))).
  { unfold v. cbn [Vector3.x]. unfold Tree.CONFIG.physics.damping.
    rewrite Rabs_mult, (Rabs_pos_eq 0.95) by lra. ring. }
  assert (Ez : Rabs (Vector3.z v)
               = 0.95 * Rabs (Vector3.z (Tree.velocity p))).
  { unfold v. cbn [Vector3.z]. unfold Tree.CONFIG.physics.damping.
    rewrite Rabs_mult, (Rabs_pos_eq 0.95) by lra. ring. }
  rewrite Ex in Hx. rewrite Ez in Hz.
  repeat split; try reflexivity; assumption.
Qed.

(** X17.  An exploded particle does not drift sideways for ever: over any
    number of particle updates in exploded mode, its x and z coordinates
    move by at most 19 times the magnitude of the x and z velocity it
    starts with (each update shrinks these velocities by 5% or more). *)
Theorem exploded_drift_is_bounded (frames : list (R * bool))
    (p : Tree.Particle) :
  let p' := explodedFrames frames p in
  Rabs (Vector3.x (Tree.position p') - Vector3.x (Tree.position p))
  <= 19 * Rabs (Vector3.x (Tree.velocity p))
  /\ Rabs (Vector3.z (Tree.position p') - Vector3.z (Tree.position p))
     <= 19 * Rabs (Vector3.z (Tree.velocity p)).
Proof.
  cbv zeta.
  assert (H : forall fs q,
             Rabs (Vector3.x (Tree.position (explodedFrames fs q))
                   - Vector3.x (Tree.position q))
             <= 19 * (Rabs (Vector3.x (Tree.velocity q))
                      - Rabs (Vector3.x (Tree.velocity
                                           (explodedFrames fs q))))
             /\ Rabs (Vector3.z (Tree.position (explodedFrames fs q))
                      - Vector3.z (Tree.position q))
                <= 19 * (Rabs (Vector3.z (Tree.velocity q))
                         - Rabs (Vector3.z (Tree.velocity
                                              (explodedFrames fs q))))).
  { induction fs as [|[time fist] fs IH]; intros q.
    - unfold explodedFrames. cbn [fold_left].
      rewrite !Rminus_diag, Rabs_R0. lra.
    - unfold explodedFrames in *. cbn [fold_left fst snd].
      destruct (exploded_horizontal_step time fist q) as (Vx & Vz & Px & Pz).
      cbv zeta in Vx, Vz, Px, Pz.
      set (q1 := Tree.updateParticle time fist true q) in *.
      destruct (IH q1) as [Ix Iz].
      set (qn := fold_left _ fs q1) in *.
      pose proof (Rabs_triang
                    (Vector3.x (Tree.position qn) - Vector3.x (Tree.position q1))
                    (Vector3.x (Tree.velocity q1))) as Tx.
      pose proof (Rabs_triang
                    (Vector3.z (Tree.position qn) - Vector3.z (Tree.position q1))
                    (Vector3.z (Tree.velocity q1))) as Tz.
      replace (Vector3.x (Tree.position qn) - Vector3.x (Tree.position q))
        with (Vector3.x (Tree.position qn) - Vector3.x (Tree.position q1)
              + Vector3.x (Tree.velocity q1)) by (rewrite Px; ring).
      replace (Vector3.z (Tree.position qn) - Vector3.z (Tree.position q))
        with (Vector3.z (Tree.position qn) - Vector3.z (Tree.position q1)
              + Vector3.z (Tree.velocity q1)) by (rewrite Pz; ring).
      split; lra. }
  destruct (H frames p) as [Hx Hz].
  pose proof (Rabs_pos (Vector3.x (Tree.velocity (explodedFrames frames p)))).
  pose proof (Rabs_pos (Vector3.z (Tree.velocity (explodedFrames frames p)))).
  split; lra.
Qed.

(** ** The dwell of the pointing finger *)

Lemma tree_point_arms (env : Tree.Env) (pos : Point2.t) (photo : nat)
    (t : Tree.State) :
  Tree.rayHit env = Some photo ->
  Tree.expandedPhoto t = None ->
  Tree.gestureStartTime t = 0 ->
  Tree.processContinuousGesture env POINT pos t
  = Tree.set_gestureStartTime (Tree.now env)
      (Tree.set_selectedPhoto (Some photo) t).
Proof.
  intros Hhit Ep Hstart.
  change (Tree.processContinuousGesture env POINT pos t)
    with (Tree.pointAtPhoto env t).
  unfold Tree.pointAtPhoto, Tree.checkPhotoHover.
  rewrite Hhit, Ep.
  cbn [is_None Tree.expandedPhoto Tree.selectedPhoto Tree.set_selectedPhoto
       Tree.gestureStartTime option_nat_eqb].
  rewrite Ep, Nat.eqb_refl. cbn [is_None].
  destruct (Req_dec_T (Tree.gestureStartTime t) 0); [reflexivity|].
  contradiction.
Qed.

Lemma tree_point_fires (env : Tree.Env) (pos : Point2.t) (photo : nat)
    (t : Tree.State) :
  Tree.rayHit env = Some photo ->
  Tree.expandedPhoto t = None ->
  Tree.gestureStartTime t <> 0 ->
  Tree.now env - Tree.gestureStartTime t > 500 ->
  Tree.processContinuousGesture env POINT pos t
  = Tree.set_gestureStartTime 0
      (Tree.set_autoRotate false
         (Tree.set_expandedPhoto (Some photo)
            (Tree.set_selectedPhoto (Some photo) t))).
Proof.
  intros Hhit Ep Hstart Hlong. apply gtb_true in Hlong.
  change (Tree.processContinuousGesture env POINT pos t)
    with (Tree.pointAtPhoto env t).
  unfold Tree.pointAtPhoto, Tree.checkPhotoHover, Tree.expandPhoto.
  rewrite Hhit, Ep.
  cbn [is_None Tree.expandedPhoto Tree.selectedPhoto Tree.set_selectedPhoto
       Tree.gestureStartTime option_nat_eqb].
  rewrite Ep, Nat.eqb_refl. cbn [is_None].
  destruct (Req_dec_T (Tree.gestureStartTime t) 0); [contradiction|].
  rewrite Hlong. reflexivity.
Qed.

(** X18.  The dwell timer does not care which photo it was started on: a
    POINT frame that hits photo [p] with the timer at 0 starts the timer
    and expands nothing; a POINT frame more than 500 ms later that hits
    photo [q], the same or another one, expands [q], resets the timer and
    switches auto-rotation off. *)
Theorem dwell_ignores_the_target (lm : LandmarkFrame) (p q : nat)
    (e1 e2 : Tree.Env) (s : Tree.State) :
  recognizeGesture lm = Some POINT ->
  Tree.rayHit e1 = Some p ->
  Tree.rayHit e2 = Some q ->
  Tree.expandedPhoto s = None ->
  Tree.gestureStartTime s = 0 ->
  Tree.now e1 <> 0 ->
  Tree.now e2 - Tree.now e1 > 500 ->
  exists s1 s2,
    Tree.handleGestures e1 lm s = Ok s1
    /\ Tree.expandedPhoto s1 = None
    /\ Tree.gestureStartTime s1 = Tree.now e1
    /\ Tree.handleGestures e2 lm s1 = Ok s2
    /\ Tree.expandedPhoto s2 = Some q
    /\ Tree.gestureStartTime s2 = 0
    /\ Tree.autoRotate s2 = false.
Proof.
  intros Hg H1 H2 Ep Hstart Hnow Hlong.
  destruct (tree_frame_shape e1 lm POINT s Hg)
    as (t & size & Hrun & Ept & _ & _ & _ & _ & Est & _).
  rewrite (tree_point_arms e1 _ p t H1) in Hrun by congruence.
  match type of Hrun with _ = Ok ?x => set (s1 := x) in * end.
  assert (Ep1 : Tree.expandedPhoto s1 = None)
    by (unfold s1; cbn; congruence).
  assert (Es1 : Tree.gestureStartTime s1 = Tree.now e1) by reflexivity.
  destruct (tree_frame_shape e2 lm POINT s1 Hg)
    as (t2 & size2 & Hrun2 & Ept2 & _ & _ & _ & _ & Est2 & _).
  rewrite (tree_point_fires e2 _ q t2 H2) in Hrun2;
    [| congruence | congruence | rewrite Est2, Es1; exact Hlong].
  exists s1. eexists. split; [exact Hrun|]. split; [exact Ep1|].
  split; [exact Es1|]. split; [exact Hrun2|]. cbn. now repeat split.
Qed.

Lemma pointFrame_is_point : recognizeGesture pointFrame = Some POINT.
Proof.
  unfold recognizeGesture, isExtended. cbn.
  decide_ltb. cbn.
  assert (Hfar : ltb (hypot (0.5 - 0.1) (0.2 - 0.5)) 0.06 = false).
  { apply ltb_false. unfold hypot. apply sqrt_ge_bound; lra. }
  now rewrite Hfar.
Qed.

Lemma dwell_ignores_the_target_witness :
  exists s1 s2,
    Tree.handleGestures (hovering 1 100) pointFrame (Tree.initial []) = Ok s1
    /\ Tree.expandedPhoto s1 = None
    /\ Tree.gestureStartTime s1 = 100
    /\ Tree.handleGestures (hovering 2 700) pointFrame s1 = Ok s2
    /\ Tree.expandedPhoto s2 = Some 2%nat
    /\ Tree.gestureStartTime s2 = 0
    /\ Tree.autoRotate s2 = false.
Proof.
  apply (dwell_ignores_the_target pointFrame 1 2 (hovering 1 100)
           (hovering 2 700) (Tree.initial []) pointFrame_is_point);
    try reflexivity; cbn; lra.
Defined.

(** ** Dragging and auto-rotation *)







(** ** Zoom by the distance of the hand *)

Lemma tree_open_palm_camera (env : Tree.Env) (p : Point2.t) (t : Tree.State) :
  Tree.camera_position_z (Tree.processContinuousGesture env OPEN_PALM p t)
  = Tree.camera_position_z t.
Proof.
  unfold Tree.processContinuousGesture, Tree.rotateTree,
    Tree.checkPhotoHover, Tree.closeExpandedPhoto.
  cbn. destruct (Tree.rayHit env); destruct (Tree.expandedPhoto t) eqn:Ep;
    cbn; rewrite ?Ep; cbn; try reflexivity;
    destruct (Tree.isFistShape t); reflexivity.
Qed.

Lemma sky_open_palm_camera (env : Starry.Env) (p : Point2.t)
    (t : Starry.State) :
  Starry.camera_position_z
    (Starry.processContinuousGesture env OPEN_PALM p t)
  = Starry.camera_position_z t.
Proof.
  unfold Starry.processContinuousGesture, Starry.rotateSky,
    Starry.checkConstellationHover.
  cbn. destruct (Starry.rayHit env); cbn; break_all; reflexivity.
Qed.

Lemma sky_camera_after_mapper (g : Gesture) (size : R) (p : Point2.t)
    (s : Starry.State) :
  Starry.camera_position_z
    (Starry.set_lastGesture g
       (Starry.set_lastHandSize size (Starry.set_lastHandPos p s)))
  = Starry.camera_position_z s.
Proof. reflexivity. Qed.

Lemma tree_camera_after_mapper (g : Gesture) (size : R) (p : Point2.t)
    (s : Tree.State) :
  Tree.camera_position_z
    (Tree.set_lastGesture g
       (Tree.set_lastHandSize size (Tree.set_lastHandPos p s)))
  = Tree.camera_position_z s.
Proof. reflexivity. Qed.

Lemma sky_calibrating_camera (env : Starry.Env) (lm : LandmarkFrame)
    (size : R) (s : Starry.State) :
  recognizeGesture lm = Some OPEN_PALM ->
  getHandSize lm = Some size ->
  size <> 0 ->
  Starry.handSizeCalibrated s = false ->
  exists s',
    Starry.handleGestures env lm s = Ok s'
    /\ Starry.camera_position_z s'
       = clamp Starry.CONFIG.camera.minZ Starry.CONFIG.camera.maxZ
           (Starry.camera_position_z s
            + (Starry.CONFIG.camera.initialZ - Starry.camera_position_z s)
              * 0.1).
Proof.
  intros Hg Hsize Hnz Ecal.
  pose proof (recognized_frame_length lm OPEN_PALM Hg) as Hlen.
  destruct (getPalmCenter_in_range lm) as [c Hc]; [lia|].
  unfold Starry.handleGestures. rewrite Hc, Hsize, Hg. cbv zeta.
  eexists. split; [reflexivity|].
  rewrite sky_camera_after_mapper, sky_open_palm_camera.
  cbn [Gesture_eqb Starry.handSizeCalibrated Starry.set_smoothedHandSize
       Starry.set_smoothedPos].
  rewrite Ecal. cbn [negb].
  unfold Starry.applyHandDistanceZoom.
  cbn [Starry.handSizeCalibrated Starry.set_handSizeCalibrated negb
       Starry.set_handSizeBaseline Starry.set_smoothedHandSize
       Starry.set_smoothedPos Starry.smoothedHandSize
       Starry.handSizeBaseline Starry.camera_position_z
       Starry.set_camera_position_z].
  assert (Hone : size / size = 1) by (field; exact Hnz).
  rewrite Hone. f_equal. lra.
Qed.

Lemma tree_calibrating_camera (env : Tree.Env) (lm : LandmarkFrame)
    (size : R) (s : Tree.State) :
  recognizeGesture lm = Some OPEN_PALM ->
  getHandSize lm = Some size ->
  size <> 0 ->
  Tree.handSizeCalibrated s = false ->
  Tree.expandedPhoto s = None ->
  exists s',
    Tree.handleGestures env lm s = Ok s'
    /\ Tree.camera_position_z s'
       = clamp Tree.CONFIG.camera.minZ Tree.CONFIG.camera.maxZ
           (Tree.camera_position_z s
            + (Tree.CONFIG.camera.initialZ - Tree.camera_position_z s) * 0.1).
Proof.
  intros Hg Hsize Hnz Ecal Ep.
  pose proof (recognized_frame_length lm OPEN_PALM Hg) as Hlen.
  destruct (getPalmCenter_in_range lm) as [c Hc]; [lia|].
  unfold Tree.handleGestures. rewrite Hc, Hsize, Hg. cbv zeta.
  eexists. split; [reflexivity|].
  rewrite tree_camera_after_mapper, tree_open_palm_camera.
  cbn [Gesture_eqb Tree.handSizeCalibrated Tree.set_smoothedHandSize
       Tree.set_smoothedPos Tree.expandedPhoto andb is_None
       Tree.set_handSizeCalibrated Tree.set_handSizeBaseline].
  rewrite Ecal. cbn [negb].
  cbn [Gesture_eqb Tree.handSizeCalibrated Tree.set_smoothedHandSize
       Tree.set_smoothedPos Tree.expandedPhoto andb is_None
       Tree.set_handSizeCalibrated Tree.set_handSizeBaseline].
  rewrite Ep. cbn [is_None andb].
  unfold Tree.applyHandDistanceZoom.
  cbn [Tree.handSizeCalibrated Tree.set_handSizeCalibrated negb
       Tree.set_handSizeBaseline Tree.set_smoothedHandSize
       Tree.set_smoothedPos Tree.smoothedHandSize
       Tree.handSizeBaseline Tree.camera_position_z
       Tree.set_camera_position_z].
  assert (Hone : size / size = 1) by (field; exact Hnz).
  rewrite Hone. f_equal. lra.
Qed.

(** X19.  The frame that calibrates already zooms: on an OPEN_PALM frame
    of non-zero hand size that finds the store uncalibrated (and, for the
    tree, no photo expanded), the size ratio is exactly 1, the target is
    [initialZ], and a camera inside its bounds moves a tenth of the way
    to [initialZ]. *)
Theorem calibrating_frame_eases_to_initial_distance (lm : LandmarkFrame)
    (size : R) :
  recognizeGesture lm = Some OPEN_PALM ->
  getHandSize lm = Some size ->
  size <> 0 ->
  (forall (env : Tree.Env) (s : Tree.State),
      Tree.handSizeCalibrated s = false ->
      Tree.expandedPhoto s = None ->
      Tree.CONFIG.camera.minZ <= Tree.camera_position_z s
      <= Tree.CONFIG.camera.maxZ ->
      exists s',
        Tree.handleGestures env lm s = Ok s'
        /\ Tree.camera_position_z s' - Tree.CONFIG.camera.initialZ
           = 0.9 * (Tree.camera_position_z s - Tree.CONFIG.camera.initialZ))
  /\ (forall (env : Starry.Env) (s : Starry.State),
         Starry.handSizeCalibrated s = false ->
         Starry.CONFIG.camera.minZ <= Starry.camera_position_z s
         <= Starry.CONFIG.camera.maxZ ->
         exists s',
           Starry.handleGestures env lm s = Ok s'
           /\ Starry.camera_position_z s' - Starry.CONFIG.camera.initialZ
              = 0.9 * (Starry.camera_position_z s
                       - Starry.CONFIG.camera.initialZ)).
Proof.
  intros Hg Hsize Hnz. split.
  - intros env s Ecal Ep Hin.
    destruct (tree_calibrating_camera env lm size s Hg Hsize Hnz Ecal Ep)
      as (s' & Hs' & Hz).
    exists s'. split; [exact Hs'|]. rewrite Hz.
    generalize dependent (Tree.camera_position_z s). intros z Hin _.
    unfold Tree.CONFIG.camera.minZ, Tree.CONFIG.camera.maxZ,
      Tree.CONFIG.camera.initialZ in *.
    rewrite clamp_inside; lra.
  - intros env s Ecal Hin.
    destruct (sky_calibrating_camera env lm size s Hg Hsize Hnz Ecal)
      as (s' & Hs' & Hz).
    exists s'. split; [exact Hs'|]. rewrite Hz.
    generalize dependent (Starry.camera_position_z s). intros z Hin _.
    unfold Starry.CONFIG.camera.minZ, Starry.CONFIG.camera.maxZ,
      Starry.CONFIG.camera.initialZ in *.
    rewrite clamp_inside; lra.
Qed.

Lemma hypot_value (a b r : R) : 0 <= r -> a * a + b * b = r * r -> hypot a b = r.
Proof. intros Hr H. unfold hypot. rewrite H. now apply sqrt_square. Qed.

Lemma getHandSize_openPalmFrame : getHandSize openPalmFrame = Some 0.3.
Proof.
  unfold getHandSize. cbn.
  rewrite (hypot_value (0.5 - 0.5) (0.6 - 0.2) 0.4) by lra.
  rewrite (hypot_value (0.1 - 0.5) (0.5 - 0.2) 0.5) by lra.
  rewrite (hypot_value (0.5 - 0.5) (0.6 - 0.6) 0) by lra.
  f_equal. lra.
Qed.

Lemma calibrating_frame_eases_to_initial_distance_witness :
  (exists s',
      Tree.handleGestures quietTree openPalmFrame
        (Tree.set_camera_position_z 8 (Tree.initial [])) = Ok s'
      /\ Tree.camera_position_z s' - Tree.CONFIG.camera.initialZ
         = 0.9 * (8 - Tree.CONFIG.camera.initialZ))
  /\ (exists s',
         Starry.handleGestures quietSky openPalmFrame
           (Starry.set_camera_position_z 20 (Starry.initial [])) = Ok s'
         /\ Starry.camera_position_z s' - Starry.CONFIG.camera.initialZ
            = 0.9 * (20 - Starry.CONFIG.camera.initialZ)).
Proof.
  destruct (calibrating_frame_eases_to_initial_distance openPalmFrame 0.3
              openPalmFrame_is_open_palm getHandSize_openPalmFrame)
    as [HT HS]; [lra|].
  split.
  - apply (HT quietTree (Tree.set_camera_position_z 8 (Tree.initial [])));
      [reflexivity | reflexivity |].
    cbn. unfold Tree.CONFIG.camera.minZ, Tree.CONFIG.camera.maxZ. lra.
  - apply (HS quietSky (Starry.set_camera_position_z 20 (Starry.initial [])));
      [reflexivity |].
    cbn. unfold Starry.CONFIG.camera.minZ, Starry.CONFIG.camera.maxZ. lra.
Defined.

(** * The animation loops *)

Lemma tree_inertia_scene (s : Tree.State) :
  Tree.isExploded (Tree.applyGestureInertia s) = Tree.isExploded s
  /\ Tree.expandedPhoto (Tree.applyGestureInertia s) = Tree.expandedPhoto s
  /\ Tree.isFistShape (Tree.applyGestureInertia s) = Tree.isFistShape s.
Proof.
  unfold Tree.applyGestureInertia. cbv zeta.
  destruct (negb (Tree.isGestureActive s) && is_None (Tree.expandedPhoto s)
            && negb (Tree.isExploded s)); [|now repeat split].
  destruct (gtb (Rabs (GestureVelocity.rotX (Tree.gestureVelocity s))) 0.0001
            || gtb (Rabs (GestureVelocity.rotY (Tree.gestureVelocity s)))
                 0.0001);
    cbn; break_all; now repeat split.
Qed.

Lemma capSpeed_le (cap : R) (v : Vector3.t) :
  0 <= cap -> Vector3.length (capSpeed cap v) <= cap.
Proof. intros H. unfold capSpeed. cbv zeta. now apply capped_speed. Qed.

Lemma updateGift_speed (time : R) (isFistShape isExploded : bool)
    (gift : Gift.t) :
  Vector3.length (Gift.velocity (updateGift time isFistShape isExploded gift))
  <= 0.06.
Proof.
  unfold updateGift. cbv zeta.
  destruct isExploded; cbv beta iota delta [negb Gift.velocity];
    apply capSpeed_le; lra.
Qed.

Lemma updatePhoto_speed (time : R) (expandedPhoto : option nat)
    (isExploded : bool) (photo : Photo.t) :
  option_nat_eqb expandedPhoto (Some (Photo.index photo)) = false ->
  Vector3.length
    (Photo.velocity (updatePhoto time expandedPhoto isExploded photo))
  <= 0.08.
Proof.
  intros E. unfold updatePhoto. rewrite E. cbv zeta.
  destruct isExploded; cbv beta iota delta [negb Photo.velocity];
    apply capSpeed_le; lra.
Qed.

(** X20.  One frame of the tree's animation loop caps every speed, from
    any velocities and in every mode: particles at 0.015, gift boxes at
    0.06 and photos at 0.08.  The one exception is the expanded photo,
    which the frame hands back exactly as it was, velocity included. *)
Theorem animate_caps_every_speed (time : R) (scene : TreeScene.t) :
  let scene' := TreeScene.animate time scene in
  Forall (fun p => Vector3.length (Tree.velocity p) <= 0.015)
         (Tree.particles (TreeScene.store scene'))
  /\ Forall (fun gift => Vector3.length (Gift.velocity gift) <= 0.06)
            (TreeScene.giftBoxes scene')
  /\ Forall2 (fun photo photo' =>
                if option_nat_eqb
                     (Tree.expandedPhoto (TreeScene.store scene))
                     (Some (Photo.index photo))
                then photo' = photo
                else Vector3.length (Photo.velocity photo') <= 0.08)
             (TreeScene.photoFrames scene) (TreeScene.photoFrames scene').
Proof.
  cbv zeta. unfold TreeScene.animate. cbv zeta.
  cbn [TreeScene.store TreeScene.giftBoxes TreeScene.photoFrames].
  split; [|split].
  - match goal with
    | |- Forall _ (Tree.particles (if ?c then _ else _)) => destruct c
    end;
      unfold Tree.updateParticlePhysics;
      cbn [Tree.particles Tree.set_particles Tree.set_treeGroup_rotation_y];
      apply Forall_map, Forall_forall; intros p _;
      apply updateParticle_speed.
  - unfold updateGiftPhysics. apply Forall_map, Forall_forall.
    intros gift _. apply updateGift_speed.
  - unfold updatePhotoPhysics, Tree.updateParticlePhysics.
    cbn [Tree.expandedPhoto Tree.isExploded Tree.set_particles].
    destruct (tree_inertia_scene (TreeScene.store scene)) as (_ & -> & _).
    apply Forall2_map_self. intros photo.
    destruct (option_nat_eqb _ (Some (Photo.index photo))) eqn:E.
    + unfold updatePhoto. now rewrite E.
    + now apply updatePhoto_speed.
Qed.

Lemma tree_animate_flags (time : R) (scene : TreeScene.t) :
  let s := TreeScene.store scene in
  let s' := TreeScene.store (TreeScene.animate time scene) in
  Tree.isExploded s' = Tree.isExploded s
  /\ Tree.autoRotate s' = Tree.autoRotate s
  /\ Tree.isGestureActive s' = Tree.isGestureActive s.
Proof.
  cbv zeta. unfold TreeScene.animate. cbv zeta. cbn [TreeScene.store].
  destruct (tree_inertia_scene (TreeScene.store scene)) as (He & _ & _).
  destruct (tree_inertia_flags (TreeScene.store scene)) as (Hg & Ha).
  match goal with
  | |- context [if ?c then _ else _] => destruct c
  end;
    unfold Tree.updateParticlePhysics; cbn; now rewrite He, Hg, Ha.
Qed.

Lemma tree_animate_star (time : R) (scene : TreeScene.t) :
  TreeScene.treeStar (TreeScene.animate time scene)
  = animateTreeStar time (Tree.isExploded (TreeScene.store scene))
                    (TreeScene.treeStar scene).
Proof.
  unfold TreeScene.animate. cbv zeta. cbn [TreeScene.treeStar].
  unfold Tree.updateParticlePhysics. cbn [Tree.isExploded Tree.set_particles].
  now destruct (tree_inertia_scene (TreeScene.store scene)) as (-> & _ & _).
Qed.

(** X21.  While the tree is exploded, the star on its top is in free fall
    under the animation loop: its vertical velocity loses 0.0003 on every
    frame, with no damping and no speed cap (unlike the particles, gifts
    and photos), so after n frames it has fallen by the triangular sum;
    x and z do not move. *)
Theorem tree_star_falls_freely (times : list R) (scene : TreeScene.t) :
  Tree.isExploded (TreeScene.store scene) = true ->
  let n := INR (length times) in
  let star := TreeScene.treeStar scene in
  let star' := TreeScene.treeStar (TreeScene.frames times scene) in
  Vector3.y (TreeStar.velocity star')
  = Vector3.y (TreeStar.velocity star) - 0.0003 * n
  /\ Vector3.y (TreeStar.position star')
     = Vector3.y (TreeStar.position star)
       + n * Vector3.y (TreeStar.velocity star)
       - 0.0003 * (n * (n + 1) / 2)
  /\ Vector3.x (TreeStar.position star') = Vector3.x (TreeStar.position star)
  /\ Vector3.z (TreeStar.position star') = Vector3.z (TreeStar.position star).
Proof.
  cbv zeta. revert scene. induction times as [|time times IH]; intros scene He.
  - cbn. repeat split; lra.
  - unfold TreeScene.frames in *. cbn [fold_left].
    destruct (tree_animate_flags time scene) as (He' & _ & _).
    cbv zeta in He'. rewrite He in He'.
    specialize (IH (TreeScene.animate time scene) He').
    destruct IH as (Hv & Hy & Hx & Hz).
    rewrite Hv, Hy, Hx, Hz. rewrite tree_animate_star, He.
    unfold animateTreeStar. cbv zeta.
    cbn [TreeStar.velocity TreeStar.position Vector3.x Vector3.y Vector3.z].
    change (Datatypes.length (time :: times))
      with (S (Datatypes.length times)).
    rewrite S_INR. unfold Tree.CONFIG.physics.gravity.
    generalize (INR (Datatypes.length times)). intros m.
    repeat split; try reflexivity; lra.
Qed.

Lemma tree_star_falls_freely_witness :
  let star' := TreeScene.treeStar (TreeScene.frames [0; 1] explodedScene) in
  Vector3.y (TreeStar.velocity star') = 0.07 - 0.0003 * 2
  /\ Vector3.y (TreeStar.position star') = 2.3 + 2 * 0.07 - 0.0003 * (2 * (2 + 1) / 2)
  /\ Vector3.x (TreeStar.position star') = 0
  /\ Vector3.z (TreeStar.position star') = 0.
Proof.
  exact (tree_star_falls_freely [0; 1] explodedScene eq_refl).
Defined.

Lemma tree_animate_turn (time : R) (scene : TreeScene.t) :
  let s := TreeScene.store scene in
  let s' := TreeScene.store (TreeScene.animate time scene) in
  Rabs (treeRotX s) <= 0.0001 -> Rabs (treeRotY s) <= 0.0001 ->
  treeRotX s' = treeRotX s /\ treeRotY s' = treeRotY s
  /\ Tree.treeGroup_rotation_y s'
     = Tree.treeGroup_rotation_y s
       + (if Tree.autoRotate s && negb (Tree.isExploded s)
          then 0.003 else 0).
Proof.
  cbv zeta. intros Hx Hy.
  destruct (tree_inertia_rotation_rest (TreeScene.store scene) Hx Hy)
    as (Ex & Ey & _ & Er).
  destruct (tree_inertia_scene (TreeScene.store scene)) as (He & _ & _).
  destruct (tree_inertia_flags (TreeScene.store scene)) as (_ & Ha).
  unfold TreeScene.animate. cbv zeta. cbn [TreeScene.store].
  unfold Tree.updateParticlePhysics, treeRotX, treeRotY.
  cbn [Tree.autoRotate Tree.isExploded Tree.set_particles].
  rewrite Ha, He.
  destruct (Tree.autoRotate (TreeScene.store scene)
            && negb (Tree.isExploded (TreeScene.store scene)));
    cbn [Tree.gestureVelocity Tree.treeGroup_rotation_y
         Tree.set_treeGroup_rotation_y Tree.set_particles];
    rewrite Ex, Ey, Er; repeat split; lra.
Qed.

Lemma sky_inertia_rotation_rest_y (s : Starry.State) :
  Rabs (skyRotX s) <= 0.0001 -> Rabs (skyRotY s) <= 0.0001 ->
  skyRotX (Starry.applyGestureInertia s) = skyRotX s
  /\ skyRotY (Starry.applyGestureInertia s) = skyRotY s
  /\ Starry.starGroup_rotation_y (Starry.applyGestureInertia s)
     = Starry.starGroup_rotation_y s.
Proof.
  unfold skyRotX, skyRotY. intros Hx Hy.
  destruct (sky_inertia_rotation_rest s Hx Hy) as (Ex & Ey & _ & Er).
  now rewrite Ex, Ey, Er.
Qed.

Lemma sky_animate_turn (time : R) (scene : SkyScene.t) :
  let s := SkyScene.store scene in
  let s' := SkyScene.store (SkyScene.animate time scene) in
  Rabs (skyRotX s) <= 0.0001 -> Rabs (skyRotY s) <= 0.0001 ->
  skyRotX s' = skyRotX s /\ skyRotY s' = skyRotY s
  /\ Starry.autoRotate s' = Starry.autoRotate s
  /\ Starry.starGroup_rotation_y s'
     = Starry.starGroup_rotation_y s
       + (if Starry.autoRotate s then 0.0005 else 0).
Proof.
  cbv zeta. intros Hx Hy.
  destruct (sky_inertia_rotation_rest_y (SkyScene.store scene) Hx Hy)
    as (Ex & Ey & Er).
  destruct (sky_inertia_flags (SkyScene.store scene)) as (_ & Ha).
  unfold SkyScene.animate. cbv zeta. cbn [SkyScene.store].
  rewrite Ha.
  destruct (Starry.autoRotate (SkyScene.store scene)) eqn:Ea;
    unfold skyRotX, skyRotY in *;
    cbn [Starry.gestureVelocity Starry.starGroup_rotation_y
         Starry.set_starGroup_rotation_y Starry.autoRotate];
    rewrite ?Ex, ?Ey, ?Er, ?Ha; repeat split; lra.
Qed.

(** X22.  With the rotation velocities at rest, the animation loop turns
    the scene at a steady rate and never clamps the angle: after n frames
    the tree has turned by 0.003 n if auto-rotation is on and the tree is
    not exploded, and not at all otherwise; the sky has turned by
    0.0005 n if auto-rotation is on, scattered or not. *)
Theorem auto_rotation_is_steady (times : list R) :
  let n := INR (length times) in
  (forall scene : TreeScene.t,
      let s := TreeScene.store scene in
      Rabs (treeRotX s) <= 0.0001 -> Rabs (treeRotY s) <= 0.0001 ->
      Tree.treeGroup_rotation_y
        (TreeScene.store (TreeScene.frames times scene))
      = Tree.treeGroup_rotation_y s
        + (if Tree.autoRotate s && negb (Tree.isExploded s)
           then 0.003 * n else 0))
  /\ (forall scene : SkyScene.t,
         let s := SkyScene.store scene in
         Rabs (skyRotX s) <= 0.0001 -> Rabs (skyRotY s) <= 0.0001 ->
         Starry.starGroup_rotation_y
           (SkyScene.store (SkyScene.frames times scene))
         = Starry.starGroup_rotation_y s
           + (if Starry.autoRotate s then 0.0005 * n else 0)).
Proof.
  cbv zeta. split.
  - induction times as [|time times IH]; intros scene Hx Hy.
    + cbn. destruct (_ && _); lra.
    + unfold TreeScene.frames in *. cbn [fold_left].
      destruct (tree_animate_turn time scene Hx Hy) as (Ex & Ey & Er).
      destruct (tree_animate_flags time scene) as (He & Ha & _).
      cbv zeta in He, Ha.
      rewrite IH by (rewrite ?Ex, ?Ey; assumption).
      rewrite Er, He, Ha.
      change (Datatypes.length (time :: times))
        with (S (Datatypes.length times)).
      rewrite S_INR.
      destruct (Tree.autoRotate (TreeScene.store scene)
                && negb (Tree.isExploded (TreeScene.store scene))); lra.
  - induction times as [|time times IH]; intros scene Hx Hy.
    + cbn. destruct (Starry.autoRotate _); lra.
    + unfold SkyScene.frames in *. cbn [fold_left].
      destruct (sky_animate_turn time scene Hx Hy) as (Ex & Ey & Ha & Er).
      rewrite IH by (rewrite ?Ex, ?Ey; assumption).
      rewrite Er, Ha.
      change (Datatypes.length (time :: times))
        with (S (Datatypes.length times)).
      rewrite S_INR.
      destruct (Starry.autoRotate (SkyScene.store scene)); lra.
Qed.

Lemma auto_rotation_is_steady_witness :
  Tree.treeGroup_rotation_y
    (TreeScene.store (TreeScene.frames [0; 1; 2] idleScene))
  = 0 + 0.003 * 3
  /\ Starry.starGroup_rotation_y
       (SkyScene.store (SkyScene.frames [0; 1; 2] idleSky))
     = 0 + 0.0005 * 3.
Proof.
  destruct (auto_rotation_is_steady [0; 1; 2]) as [HT HS].
  split.
  - rewrite (HT idleScene);
      unfold treeRotX, treeRotY; cbn; rewrite ?Rabs_R0; lra.
  - rewrite (HS idleSky);
      unfold skyRotX, skyRotY; cbn; rewrite ?Rabs_R0; lra.
Defined.

(** * The sphere the particles gather on *)

Lemma shell_length (r a b c d : R) :
  0 <= r -> a * a + b * b = 1 -> c * c + d * d = 1 ->
  Vector3.length (Vector3.mk (r * a * d) (r * b) (r * a * c)) = r.
Proof.
  intros Hr H1 H2. unfold Vector3.length.
  cbn [Vector3.x Vector3.y Vector3.z].
  replace (r * a * d * (r * a * d) + r * b * (r * b)
           + r * a * c * (r * a * c))
    with (r * r * (a * a * (c * c + d * d) + b * b)) by ring.
  rewrite H2, Rmult_1_r, H1, Rmult_1_r. now apply sqrt_square.
Qed.

(** X23.  Whatever [Math.random] draws in [0, 1), [createSphereTargets]
    makes one target per particle and every target lies in the shell
    between the radii 1.53 and 2.07 around the origin. *)
Theorem sphere_targets_lie_in_a_shell (random : nat -> R)
    (particleCount : nat) :
  (forall i, 0 <= random i < 1) ->
  length (createSphereTargets random particleCount) = particleCount
  /\ Forall (fun p => 1.53 <= Vector3.length p < 2.07)
            (createSphereTargets random particleCount).
Proof.
  intros Hr. unfold createSphereTargets. cbv zeta. split.
  - now rewrite length_map, length_seq.
  - apply Forall_map, Forall_forall. intros i _.
    pose proof (Hr i) as Hi.
    rewrite shell_length.
    + lra.
    + lra.
    + apply sin2_cos2.
    + apply sin2_cos2.
Qed.

Lemma sphere_targets_lie_in_a_shell_witness :
  length (createSphereTargets (fun _ => 0.5) 2500) = 2500%nat
  /\ Forall (fun p => 1.53 <= Vector3.length p < 2.07)
            (createSphereTargets (fun _ => 0.5) 2500).
Proof.
  apply (sphere_targets_lie_in_a_shell (fun _ => 0.5) 2500).
  intros _. lra.
Defined.

(** * The stars of the starry night *)

Lemma sky_inertia_scene (s : Starry.State) :
  Starry.isScattered (Starry.applyGestureInertia s) = Starry.isScattered s
  /\ Starry.highlightedConstellation (Starry.applyGestureInertia s)
     = Starry.highlightedConstellation s.
Proof.
  unfold Starry.applyGestureInertia. cbv zeta.
  destruct (negb (Starry.isGestureActive s)); [|now split].
  destruct (gtb (Rabs (GestureVelocity.rotX (Starry.gestureVelocity s)))
                0.0001
            || gtb (Rabs (GestureVelocity.rotY (Starry.gestureVelocity s)))
                 0.0001);
    cbn; break_all; now split.
Qed.

Lemma sky_animate_stars (time : R) (scene : SkyScene.t) :
  SkyScene.constellationStars (SkyScene.animate time scene)
  = map (updateConstellationStar time
           (Starry.isScattered (SkyScene.store scene))
           (Starry.highlightedConstellation (SkyScene.store scene)))
        (SkyScene.constellationStars scene).
Proof.
  unfold SkyScene.animate. cbv zeta. cbn [SkyScene.constellationStars].
  unfold updateConstellationStars.
  now destruct (sky_inertia_scene (SkyScene.store scene)) as (-> & ->).
Qed.

Lemma sky_animate_isScattered (time : R) (scene : SkyScene.t) :
  Starry.isScattered (SkyScene.store (SkyScene.animate time scene))
  = Starry.isScattered (SkyScene.store scene).
Proof.
  unfold SkyScene.animate. cbv zeta. cbn [SkyScene.store].
  destruct (sky_inertia_scene (SkyScene.store scene)) as (E & _).
  now destruct (Starry.autoRotate _); cbn; rewrite E.
Qed.

Lemma Forall2_map_where {A B} (P : A -> B -> Prop) (Q : A -> Prop)
    (f : A -> B) (l : list A) :
  (forall a, Q a -> P a (f a)) -> Forall Q l -> Forall2 P l (map f l).
Proof. intros H HQ. induction HQ; cbn; constructor; auto. Qed.

Lemma swing_bound (a u : R) : 0 <= a -> -1 <= u <= 1 -> Rabs (u * a) <= a.
Proof. intros Ha Hu. apply Rabs_le. split; nra. Qed.

(** X24.  While the stars are not scattered, a frame of the starry loop
    puts every constellation star within its wobble amplitude of its
    target in x and in y, whatever its position was before the frame (so
    nothing accumulates, and a gather takes effect on the next frame), and
    keeps its z. *)
Theorem constellation_wobble_is_bounded (time : R) (scene : SkyScene.t) :
  Starry.isScattered (SkyScene.store scene) = false ->
  Forall (fun star => 0 <= ConstellationStar.amplitude star)
         (SkyScene.constellationStars scene) ->
  Forall2 (fun star star' =>
             let target := ConstellationStar.targetPosition star in
             let position := ConstellationStar.position star' in
             Rabs (Vector3.x position - Vector3.x target)
             <= ConstellationStar.amplitude star
             /\ Rabs (Vector3.y position - Vector3.y target)
                <= ConstellationStar.amplitude star
             /\ Vector3.z position
                = Vector3.z (ConstellationStar.position star))
          (SkyScene.constellationStars scene)
          (SkyScene.constellationStars (SkyScene.animate time scene)).
Proof.
  intros Es Hamp. rewrite sky_animate_stars, Es.
  eapply Forall2_map_where; [|exact Hamp].
  intros star Ha. cbv beta zeta in *. unfold updateConstellationStar.
  cbv zeta.
  cbn [negb ConstellationStar.position Vector3.x Vector3.y Vector3.z].
  split; [|split; [|reflexivity]].
  - match goal with
    | |- Rabs (?t + ?u * ?a - ?t) <= _ =>
        replace (t + u * a - t) with (u * a) by ring
    end.
    apply swing_bound; [exact Ha | apply SIN_bound].
  - match goal with
    | |- Rabs (?t + ?u * ?a - ?t) <= _ =>
        replace (t + u * a - t) with (u * a) by ring
    end.
    apply swing_bound; [exact Ha | apply COS_bound].
Qed.

Lemma constellation_wobble_is_bounded_witness :
  Forall2 (fun star star' =>
             let target := ConstellationStar.targetPosition star in
             let position := ConstellationStar.position star' in
             Rabs (Vector3.x position - Vector3.x target)
             <= ConstellationStar.amplitude star
             /\ Rabs (Vector3.y position - Vector3.y target)
                <= ConstellationStar.amplitude star
             /\ Vector3.z position
                = Vector3.z (ConstellationStar.position star))
          (SkyScene.constellationStars idleSky)
          (SkyScene.constellationStars (SkyScene.animate 3 idleSky)).
Proof.
  apply (constellation_wobble_is_bounded 3 idleSky); [reflexivity|].
  repeat constructor. cbn. lra.
Defined.

Lemma scattered_frames (times : list R) (scene : SkyScene.t) :
  Starry.isScattered (SkyScene.store scene) = true ->
  Starry.isScattered (SkyScene.store (SkyScene.frames times scene)) = true
  /\ map ConstellationStar.position
         (SkyScene.constellationStars (SkyScene.frames times scene))
     = map ConstellationStar.position (SkyScene.constellationStars scene).
Proof.
  revert scene. induction times as [|time times IH]; intros scene Es.
  - now split.
  - unfold SkyScene.frames in *. cbn [fold_left].
    destruct (IH (SkyScene.animate time scene)) as (E1 & E2).
    { now rewrite sky_animate_isScattered. }
    split; [exact E1|]. rewrite E2, sky_animate_stars, Es, map_map.
    apply map_ext. intros star. reflexivity.
Qed.

(** X25.  In the starry effect the velocities that [scatterStars] draws
    are never read: after a scatter, over any number of frames of the
    loop, every constellation star stays exactly where it was (only the
    wobble stops), and the stars stay scattered. *)
Theorem scattered_stars_stay_put (env : Starry.Env) (times : list R)
    (scene : SkyScene.t) :
  let scattered :=
    SkyScene.mk (Starry.scatterStars env (SkyScene.store scene))
                (SkyScene.constellationStars scene) in
  Starry.isScattered (SkyScene.store (SkyScene.frames times scattered))
  = true
  /\ map ConstellationStar.position
         (SkyScene.constellationStars (SkyScene.frames times scattered))
     = map ConstellationStar.position (SkyScene.constellationStars scene).
Proof.
  cbv zeta.
  apply (scattered_frames times
           (SkyScene.mk (Starry.scatterStars env (SkyScene.store scene))
                        (SkyScene.constellationStars scene))).
  reflexivity.
Qed.

(** * Shooting stars *)

Lemma filterMap_app {A B} (f : A -> option B) (l1 l2 : list A) :
  filterMap f (l1 ++ l2) = filterMap f l1 ++ filterMap f l2.
Proof.
  induction l1 as [|a l1 IH]; cbn; [reflexivity|].
  destruct (f a); cbn; now rewrite IH.
Qed.

Lemma last_split {A} (n : nat) (l : list A) :
  length l = S n -> exists l' a, l = l' ++ [a] /\ length l' = n.
Proof.
  intros H. destruct (exists_last (l := l)) as (l' & a & ->).
  { intros ->. discriminate. }
  exists l', a. split; [reflexivity|].
  rewrite length_app in H. cbn in H. lia.
Qed.

Lemma firstn_prefix {A} (l1 l2 : list A) :
  firstn (length l1) (l1 ++ l2) = l1.
Proof.
  rewrite firstn_app, Nat.sub_diag, firstn_all. cbn. apply app_nil_r.
Qed.

Lemma skipn_prefix {A} (l1 l2 : list A) :
  skipn (length l1) (l1 ++ l2) = l2.
Proof.
  rewrite skipn_app, Nat.sub_diag, skipn_all. reflexivity.
Qed.

(** The loop, started with [n] stars still to visit and the stars after
    them already done. *)
Lemma shootingStarsLoop_spec (n : nat) :
  forall todo done : list ShootingStar.t,
    length todo = n ->
    shootingStarsLoop n (todo ++ done)
    = Some (filterMap shootingStarStep todo ++ done).
Proof.
  induction n as [|i IH]; intros todo done Hlen.
  - destruct todo; [reflexivity|discriminate].
  - destruct (last_split i todo Hlen) as (todo' & star & -> & Hlen').
    cbn [shootingStarsLoop]. rewrite <- app_assoc. cbn [app].
    subst i. rewrite nth_error_app2, Nat.sub_diag by lia. cbn [nth_error].
    rewrite firstn_prefix.
    change (S (length todo')) with (1 + length todo')%nat.
    rewrite <- skipn_skipn, skipn_prefix. cbn [skipn].
    rewrite filterMap_app. cbn [filterMap]. unfold shootingStarStep.
    destruct (leb (ShootingStar.life (ageShootingStar star)) 0).
    + rewrite IH by reflexivity. now rewrite app_nil_r.
    + rewrite IH by reflexivity. now rewrite <- app_assoc.
Qed.

(** X26.  The backwards loop of [updateShootingStars], which removes
    entries with [splice] while it iterates, never reads past the end of
    the array and visits every star exactly once: its result is the list
    of the stars that are still alive after ageing, each moved, in their
    old order. *)
Theorem shooting_stars_loop_visits_every_star
    (shootingStars : list ShootingStar.t) :
  updateShootingStars shootingStars
  = Some (filterMap shootingStarStep shootingStars).
Proof.
  unfold updateShootingStars.
  rewrite <- (app_nil_r shootingStars) at 2.
  rewrite shootingStarsLoop_spec by reflexivity. now rewrite app_nil_r.
Qed.

Lemma firstn_snoc {A} (j : nat) :
  forall (l : list A) (p : A),
    nth_error l j = Some p -> firstn (S j) l = firstn j l ++ [p].
Proof.
  induction j as [|j IH]; intros [|a l] p H; try discriminate.
  - cbn in *. now injection H as ->.
  - cbn [nth_error] in H. rewrite firstn_cons, (IH l p H). reflexivity.
Qed.

(** After the inner loop has run from [j] down to 1, the entries 1 to [j]
    hold what the entries 0 to [j - 1] held before. *)
Lemma shiftTrail_spec (j : nat) :
  forall positions : list Vector3.t,
    (j < length positions)%nat ->
    shiftTrail j positions
    = firstn 1 positions ++ firstn j positions ++ skipn (S j) positions.
Proof.
  induction j as [|j IH]; intros positions Hlen.
  - destruct positions as [|p0 positions]; [cbn in Hlen; lia|].
    reflexivity.
  - cbn [shiftTrail].
    destruct (nth_error positions j) as [p|] eqn:Ep.
    2:{ apply nth_error_None in Ep. lia. }
    assert (Hfront : length (firstn (S j) positions) = S j).
    { rewrite length_firstn. lia. }
    rewrite IH.
    2:{ rewrite length_app, Hfront. cbn. lia. }
    rewrite !firstn_app, Hfront, !firstn_firstn.
    replace (1 - S j)%nat with 0%nat by lia.
    replace (j - S j)%nat with 0%nat by lia.
    replace (Nat.min 1 (S j)) with 1%nat by lia.
    replace (Nat.min j (S j)) with j by lia.
    rewrite !firstn_O, !app_nil_r.
    rewrite <- Hfront at 1. rewrite skipn_prefix.
    rewrite (firstn_snoc j positions p Ep), <- app_assoc. reflexivity.
Qed.

(** X27.  On a frame that a shooting star survives, its trail of 30
    points moves along by one: the new head is the point at the current
    progress along the direction, and point j of the new trail is point
    j - 1 of the old one, the last old point being dropped. *)
Theorem shooting_star_trail_shifts (star : ShootingStar.t) :
  length (ShootingStar.positions star) = 30%nat ->
  let star' := moveShootingStar star in
  let at_progress (start dir : R) :=
    start + dir * ShootingStar.progress star * 20 in
  ShootingStar.positions star'
  = Vector3.mk
      (at_progress (Vector3.x (ShootingStar.startPos star))
                   (Vector3.x (ShootingStar.direction star)))
      (at_progress (Vector3.y (ShootingStar.startPos star))
                   (Vector3.y (ShootingStar.direction star)))
      (at_progress (Vector3.z (ShootingStar.startPos star))
                   (Vector3.z (ShootingStar.direction star)))
    :: firstn 29 (ShootingStar.positions star)
  /\ length (ShootingStar.positions star') = 30%nat.
Proof.
  intros Hlen. cbv zeta. unfold moveShootingStar. cbv zeta.
  cbn [ShootingStar.positions].
  rewrite shiftTrail_spec by lia.
  rewrite (skipn_all2 (n := 30)) by lia. rewrite app_nil_r.
  destruct (ShootingStar.positions star) as [|p0 positions] eqn:E;
    [discriminate|].
  change (firstn 1 (p0 :: positions)) with [p0].
  cbn [app tl]. split; [reflexivity|].
  cbn [length]. rewrite length_firstn. cbn [length] in *. lia.
Qed.

Lemma shooting_star_trail_shifts_witness :
  ShootingStar.positions (moveShootingStar sampleShootingStar)
  = Vector3.mk (1 + 0 * 0 * 20) (12 + -1 * 0 * 20) (0 + 0 * 0 * 20)
    :: firstn 29 (ShootingStar.positions sampleShootingStar)
  /\ length (ShootingStar.positions (moveShootingStar sampleShootingStar))
     = 30%nat.
Proof.
  exact (shooting_star_trail_shifts sampleShootingStar eq_refl).
Defined.
